(** * Job_webscraper: the fetch / paginate / dedup / normalize pipeline

    A shallow embedding of the job-board connectors ([jobspy.indeed],
    [jobspy.linkedin], [jobspy.naukri]), of the employer connectors
    ([company_careers]) and of the normalization stage ([server]), followed
    by the properties established about them.

    Conventions.
    - A Python [str] is a list of Unicode code points.
    - A Python [int] is a [Z].
    - What a connector receives from the network is an input of the model:
      a _source_ maps the number of the request inside a run, together with
      the cursor, offset or page asked for, to the response obtained.
    - A call that can raise returns a [res]: either [Ok v] or [Raise e].
    - A key of a decoded JSON object that the code reads with a default is
      a [jfield], which tells [null] from a missing key; a key read
      without one is an [option]. *)

From Stdlib Require Import ZArith NArith Bool Lia String Ascii.
From Stdlib Require Import List Permutation.
Import ListNotations.

Local Open Scope Z_scope.

(* ================================================================== *)
(** * Python strings *)
(* ================================================================== *)

Module PyStr.

Definition char := N.
Definition str := list char.

(** An ASCII literal, as a list of code points. *)
Definition lit (s : string) : str :=
  List.map N_of_ascii (list_ascii_of_string s).

Definition rupee : char := 8377%N.    (* U+20B9, the rupee sign *)
Definition en_dash : char := 8211%N.  (* U+2013 *)

Definition eqb (a b : str) : bool :=
  if list_eq_dec N.eq_dec a b then true else false.

Fixpoint startswith (p s : str) : bool :=
  match p, s with
  | [], _ => true
  | _ :: _, [] => false
  | a :: p', b :: s' => N.eqb a b && startswith p' s'
  end.

(** [contains needle hay] is Python's [needle in hay]. *)
Fixpoint contains (needle hay : str) : bool :=
  startswith needle hay ||
  match hay with
  | [] => false
  | _ :: t => contains needle t
  end.

(** Lower-casing of one ASCII letter; the other characters of the ASCII
    range are left alone. *)
Definition ascii_lower_char (c : char) : char :=
  if (65 <=? c)%N && (c <=? 90)%N then (c + 32)%N else c.

(** [str.lower] on text without cased letters outside ASCII. *)
Definition ascii_lower (s : str) : str := List.map ascii_lower_char s.

Definition ascii_upper_char (c : char) : char :=
  if (97 <=? c)%N && (c <=? 122)%N then (c - 32)%N else c.

(** [str.upper] on text without cased letters outside ASCII. *)
Definition ascii_upper (s : str) : str := List.map ascii_upper_char s.

(** [str.capitalize] on text without cased letters outside ASCII. *)
Definition ascii_capitalize (s : str) : str :=
  match s with
  | [] => []
  | c :: t =>
      ascii_upper_char c :: ascii_lower t
  end.

Definition is_ascii_digit (c : char) : bool := (48 <=? c)%N && (c <=? 57)%N.

(** Characters for which [str.isspace] holds. *)
Definition is_space (c : char) : bool :=
  ((9 <=? c)%N && (c <=? 13)%N) || ((28 <=? c)%N && (c <=? 32)%N)
  || N.eqb c 133 || N.eqb c 160 || N.eqb c 5760
  || ((8192 <=? c)%N && (c <=? 8202)%N)
  || N.eqb c 8232 || N.eqb c 8233 || N.eqb c 8239 || N.eqb c 8287
  || N.eqb c 12288.

(** [s.strip()] *)
Fixpoint lstrip (s : str) : str :=
  match s with
  | c :: t => if is_space c then lstrip t else s
  | [] => []
  end.
Definition strip (s : str) : str := rev (lstrip (rev (lstrip s))).

(** [s.split(sep)] for a separator of at least one character. *)
Fixpoint split_go (sep s : str) (skip : nat) (cur : str) : list str :=
  match s with
  | [] => [rev cur]
  | c :: t =>
      match skip with
      | S k => split_go sep t k cur
      | O =>
          if startswith sep s
          then rev cur :: split_go sep t (length sep - 1) []
          else split_go sep t 0 (c :: cur)
      end
  end.

Definition split (s sep : str) : list str := split_go sep s 0 [].

(** Value of a run of ASCII digits read in base ten, most significant
    digit first ([int("0123")] is [123]). *)
Definition digits_value (s : str) : Z :=
  fold_left (fun acc c => 10 * acc + (Z.of_N c - 48)) s 0.

(** Decimal rendering of a natural number, as [str(n)] gives it. *)
Fixpoint digits_of (fuel : nat) (n : N) (acc : str) : str :=
  match fuel with
  | O => acc
  | S f =>
      let acc' := (48 + n mod 10)%N :: acc in
      if (n <? 10)%N then acc' else digits_of f (n / 10)%N acc'
  end.

Definition str_of_Z (z : Z) : str :=
  let n := Z.to_N (Z.abs z) in
  let d := digits_of (S (N.to_nat (N.log2 n))) n [] in
  if z <? 0 then 45%N :: d else d.

(** [s[i:j]] and [s[:j]] on any list, with Python's treatment of negative
    and out-of-range bounds. *)
Definition clamp_index {A} (l : list A) (i : Z) : nat :=
  let n := Z.of_nat (length l) in
  Z.to_nat (Z.min n (if i <? 0 then Z.max 0 (n + i) else i)).

Definition slice {A} (l : list A) (i j : Z) : list A :=
  let a := clamp_index l i in
  let b := clamp_index l j in
  firstn (b - a) (skipn a l).

Definition slice_to {A} (l : list A) (j : Z) : list A := slice l 0 j.

(** [o == s] for a value [o] that may be [None]. *)
Definition opt_eqb (o : option str) (s : str) : bool :=
  match o with
  | Some x => eqb x s
  | None => false
  end.

(** [d.get(key, default)] for a key whose value is text. *)
Definition or_default (o : option str) (d : str) : str :=
  match o with
  | Some x => x
  | None => d
  end.

End PyStr.

Import PyStr.

(* ================================================================== *)
(** * Exceptions *)
(* ================================================================== *)

Inductive exn :=
| TransportError      (* raised by the HTTP session *)
| DecodeError         (* response body that is not the expected JSON *)
| OverflowError
| ValueError
| AttributeError
| KeyError
| TypeError.

Inductive res (A : Type) :=
| Ok (a : A)
| Raise (e : exn).
Arguments Ok {A} a.
Arguments Raise {A} e.

Definition bind {A B} (m : res A) (f : A -> res B) : res B :=
  match m with
  | Ok a => f a
  | Raise e => Raise e
  end.

Notation "x <- m ;; k" := (bind m (fun x => k))
  (at level 61, m at next level, right associativity).

(* ================================================================== *)
(** * Keys of decoded JSON objects *)
(* ================================================================== *)

(** A key of a decoded JSON object as [dict.get] sees it: missing, there
    with [null], which is decoded as [None], or there with a value.  In
    the records of the connectors a key that is only read with
    [.get(key)] is an [option], where [None] stands for a missing key and
    for [null] alike; a key read with a default keeps the two apart. *)
Inductive jfield (A : Type) :=
| Absent
| Null
| Val (a : A).
Arguments Absent {A}.
Arguments Null {A}.
Arguments Val {A} a.

(** [d.get(key)] *)
Definition get_opt {A} (f : jfield A) : option A :=
  match f with
  | Val a => Some a
  | _ => None
  end.

(** [d.get(key, default)]: the default stands in for a missing key only;
    [null] comes back as [None]. *)
Definition get_or {A} (f : jfield A) (default : A) : option A :=
  match f with
  | Absent => Some default
  | Null => None
  | Val a => Some a
  end.

(** A method call on a value that may be [None]: [None.strip()],
    [None.get(...)] and the like raise [AttributeError]. *)
Definition attr_of {A} (o : option A) : res A :=
  match o with
  | Some a => Ok a
  | None => Raise AttributeError
  end.

(** A [for] loop over, or a slice of, a value that may be [None]: both
    raise [TypeError] on [None]. *)
Definition iter_of {A} (o : option A) : res A :=
  match o with
  | Some a => Ok a
  | None => Raise TypeError
  end.

(** What an f-string puts in place of [{v}] for a text that may be
    [None]. *)
Definition str_of_opt (o : option str) : str :=
  match o with
  | Some x => x
  | None => lit "None"
  end.

(* ================================================================== *)
(** * Regular expressions

    The backtracking matcher of Python's [re] (and of the [regex] package,
    which the Naukri connector imports under the same name) for the
    constructs the patterns of this program use: literals, [\d], [\s],
    bracketed sets, concatenation, alternation, greedy [*], [+], [?] and
    capture groups.  Alternatives are tried left to right and a greedy
    repetition tries the longest run first, so the first success found is
    the match Python reports.

    [\d] is taken over the ASCII digits and [re.IGNORECASE] folds the ASCII
    letters; [\s] is [str.isspace]. *)
(* ================================================================== *)

Module Regex.

Inductive atom :=
| ALit (c : char)
| ADigit
| ASpace.

Inductive regex :=
| Eps
| Atom (l : list atom)        (* one character among the listed atoms *)
| Cat (r1 r2 : regex)
| Alt (r1 r2 : regex)
| Star (r : regex)
| Group (n : nat) (r : regex).

Definition Plus (r : regex) : regex := Cat r (Star r).
Definition Opt (r : regex) : regex := Alt r Eps.
Definition Chr (c : char) : regex := Atom [ALit c].
Definition Digit : regex := Atom [ADigit].
Definition Space : regex := Atom [ASpace].

(** The characters of an ASCII literal, one after the other. *)
Definition Lit (s : string) : regex :=
  fold_right (fun c r => Cat (Chr c) r) Eps (lit s).

Definition cats (l : list regex) : regex := fold_right Cat Eps l.

Definition atom_matches (ignorecase : bool) (a : atom) (c : char) : bool :=
  match a with
  | ALit d =>
      if ignorecase then N.eqb (ascii_lower_char d) (ascii_lower_char c)
      else N.eqb d c
  | ADigit => is_ascii_digit c
  | ASpace => is_space c
  end.

(** Captured groups, most recent binding first. *)
Definition caps := list (nat * str).

Fixpoint group (c : caps) (n : nat) : option str :=
  match c with
  | [] => None
  | (m, s) :: t => if Nat.eqb m n then Some s else group t n
  end.

(** [rmatch ic r s c k] matches [r] at the head of [s] and hands the rest of
    the text to the continuation [k]; when [k] fails the next way of matching
    [r] is tried. *)
Fixpoint rmatch (ic : bool) (r : regex) (s : str) (c : caps)
         (k : str -> caps -> option caps) {struct r} : option caps :=
  match r with
  | Eps => k s c
  | Atom l =>
      match s with
      | x :: t => if existsb (fun a => atom_matches ic a x) l then k t c else None
      | [] => None
      end
  | Cat r1 r2 => rmatch ic r1 s c (fun s' c' => rmatch ic r2 s' c' k)
  | Alt r1 r2 =>
      match rmatch ic r1 s c k with
      | Some c' => Some c'
      | None => rmatch ic r2 s c k
      end
  | Star r' =>
      (fix loop (n : nat) (s : str) (c : caps) : option caps :=
         match n with
         | O => k s c
         | S n' =>
             match rmatch ic r' s c
                     (fun s' c' =>
                        if (length s' <? length s)%nat then loop n' s' c'
                        else None) with
             | Some c' => Some c'
             | None => k s c
             end
         end) (length s) s c
  | Group n r' =>
      rmatch ic r' s c
        (fun s' c' => k s' ((n, firstn (length s - length s') s) :: c'))
  end.

(** [re.match(r, s)]: a match anchored at the start of [s]. *)
Definition re_match (ic : bool) (r : regex) (s : str) : option caps :=
  rmatch ic r s [] (fun _ c => Some c).

(** [re.search(r, s)]: the match at the leftmost position that has one. *)
Fixpoint re_search (ic : bool) (r : regex) (s : str) : option caps :=
  match re_match ic r s with
  | Some c => Some c
  | None =>
      match s with
      | [] => None
      | _ :: t => re_search ic r t
      end
  end.

End Regex.

Import Regex.

(* ================================================================== *)
(** * Python values held by a scraped record *)
(* ================================================================== *)

Module PyVal.

(** A value as the normalization code observes it: through [bool()],
    [str()], [isinstance(v, float)] and [math.isnan].  A float other than
    NaN, and an object of any other type (a date, a list), is described by
    its truth value and by the text [str()] gives. *)
Inductive pyval :=
| PNone
| PStr (s : str)
| PInt (n : Z)
| PNaN
| PFloat (nonzero : bool) (repr : str)
| PObject (truth : bool) (repr : str).

(** [bool(v)] *)
Definition truthy (v : pyval) : bool :=
  match v with
  | PNone => false
  | PStr s => match s with [] => false | _ => true end
  | PInt n => negb (n =? 0)
  | PNaN => true
  | PFloat nz _ => nz
  | PObject t _ => t
  end.

(** [str(v)], also what an f-string puts in place of [{v}]. *)
Definition py_str (v : pyval) : str :=
  match v with
  | PNone => lit "None"
  | PStr s => s
  | PInt n => str_of_Z n
  | PNaN => lit "nan"
  | PFloat _ r => r
  | PObject _ r => r
  end.

(** A [dict] with string keys, in insertion order. *)
Definition dict := list (str * pyval).

Fixpoint get_default (d : dict) (k : str) (default : pyval) : pyval :=
  match d with
  | [] => default
  | (k', v) :: t => if PyStr.eqb k' k then v else get_default t k default
  end.

(** [d.get(k)] *)
Definition get (d : dict) (k : str) : pyval := get_default d k PNone.

(** [d[k] = v] *)
Fixpoint set_item (d : dict) (k : str) (v : pyval) : dict :=
  match d with
  | [] => [(k, v)]
  | (k', v') :: t =>
      if PyStr.eqb k' k then (k', v) :: t else (k', v') :: set_item t k v
  end.

(** [a or b] *)
Definition py_or (a b : pyval) : pyval := if truthy a then a else b.

End PyVal.

Import PyVal.

(* ================================================================== *)
(** * company_careers.py: the employer connectors *)
(* ================================================================== *)

Module CompanyCareers.

(** The record an employer connector builds for one posting. *)
Record posting := {
  title : pyval;
  company_name : str;
  location : pyval;
  description : str;
  short_description : str;
  apply_url : pyval;
  posted_at : pyval;
  source : str;
  employment_type : pyval;
  salary_range : pyval
}.

(** What [.get] gave as a value of the record: text or [None]. *)
Definition of_opt (o : option str) : pyval :=
  match o with
  | Some x => PStr x
  | None => PNone
  end.

(** One element of the ["jobs"] array of the Amazon search API.  The two
    description keys are only tested for truth. *)
Record amazon_job := {
  a_title : option str;
  a_description_short : option str;
  a_basic_qualifications : option str;
  a_normalized_location : jfield str;
  a_city : jfield str;
  a_job_path : jfield str;
  a_posted_date : option str
}.

(** One element of the ["jobs"] array of a Greenhouse board.  The
    ["location"] object is given by its ["name"] key; ["content"] is only
    tested for truth. *)
Record greenhouse_job := {
  g_title : jfield str;
  g_location : jfield (jfield str);    (* "location", then "name" *)
  g_content : option str;
  g_absolute_url : option str;
  g_updated_at : jfield str
}.

(** The ["categories"] object of a Lever posting. *)
Record lever_categories := {
  c_location : jfield str;
  c_commitment : jfield str
}.

(** One posting of a Lever board. *)
Record lever_job := {
  l_text : jfield str;
  l_categories : jfield lever_categories;
  l_descriptionPlain : jfield str;
  l_hostedUrl : option str
}.

(** What the single request of a connector yields. *)
Inductive response (A : Type) :=
| Raised (e : exn)
| Http (ok : bool) (body : res (list A)).
Arguments Raised {A} e.
Arguments Http {A} ok body.

(** Length of the tag that opens at the head of [s], which is the text
    after a ['<']: the characters up to the next ['>'], none of them a line
    feed. *)
Fixpoint tag_length (s : str) : option nat :=
  match s with
  | [] => None
  | c :: t =>
      if N.eqb c 62 then Some 1%nat
      else if N.eqb c 10 then None
      else option_map S (tag_length t)
  end.

Fixpoint strip_tags (s : str) (skip : nat) : str :=
  match s with
  | [] => []
  | c :: t =>
      match skip with
      | S k => strip_tags t k
      | O =>
          if N.eqb c 60 then
            match tag_length t with
            | Some n => strip_tags t n
            | None => c :: strip_tags t 0
            end
          else c :: strip_tags t 0
      end
  end.

(** [clean_html]: [re.sub('<.*?>', '', raw_html)] *)
Definition clean_html (raw_html : option str) : str :=
  match raw_html with
  | Some s => strip_tags s 0
  | None => []
  end.

(** The body of a connector once the response is in: anything raised by
    the request or the decoding leaves the list empty. *)
Definition jobs_of {A} (r : response A) : list A :=
  match r with
  | Http true (Ok l) => l
  | _ => []
  end.

Section Connectors.

(** [str.lower] *)
Variable lower : str -> str.
(** [datetime.now().strftime("%Y-%m-%d")] *)
Variable today_text : str.

Definition scrape_amazon_jobs (r : response amazon_job) : list posting :=
  List.map
    (fun j =>
       let desc :=
         match a_description_short j with
         | Some ((_ :: _) as d) => d
         | _ => or_default (a_basic_qualifications j) []
         end in
       {| title := of_opt (a_title j);
          company_name := lit "Amazon";
          location :=
            of_opt (match a_normalized_location j with
                    | Absent => get_or (a_city j) []
                    | f => get_opt f
                    end);
          description := slice_to desc 500;
          short_description := slice_to desc 200;
          apply_url :=
            PStr (lit "https://www.amazon.jobs"
                  ++ str_of_opt (get_or (a_job_path j) []));
          posted_at := of_opt (a_posted_date j);
          source := lit "Amazon Careers";
          employment_type := PStr (lit "Full-time");
          salary_range := PNone |})
    (jobs_of r).

(** The loop shared by the connectors that filter on their own side.
    [visit] is the body of the loop for one element: it adds a posting,
    adds none, or raises; what it raises is caught by the [except] around
    the loop, which leaves the postings gathered so far.  The loop stops
    once [limit] postings are in. *)
Fixpoint take_matching {A} (visit : A -> res (option posting))
         (limit : Z) (count : Z) (l : list A) : list posting :=
  match l with
  | [] => []
  | j :: rest =>
      if limit <=? count then []
      else
        match visit j with
        | Raise _ => []
        | Ok None => take_matching visit limit count rest
        | Ok (Some p) => p :: take_matching visit limit (count + 1) rest
        end
  end.

(** [job.get("location", {}).get("name", default)]: [null] in place of
    the object has no [get]. *)
Definition location_name (j : greenhouse_job) (default : str)
  : res (option str) :=
  location <- attr_of (get_or (g_location j) Absent) ;;
  Ok (get_or location default).

(** The record a Greenhouse connector appends; [null] in place of
    ["updated_at"] cannot be sliced. *)
Definition greenhouse_posting (company : string) (title : pyval)
           (location : pyval) (j : greenhouse_job) : res posting :=
  let content := clean_html (g_content j) in
  updated_at <- iter_of (get_or (g_updated_at j) []) ;;
  Ok {| title := title;
        company_name := lit company;
        location := location;
        description := slice_to content 500;
        short_description := slice_to content 200;
        apply_url := of_opt (g_absolute_url j);
        posted_at := PStr (slice_to updated_at 10);
        source := lit company ++ lit " Careers";
        employment_type := PStr (lit "Full-time");
        salary_range := PNone |}.

(** [search_term.lower() in title.lower()] for a title that may be [None]. *)
Definition title_has (search_term : str) (t : option str) : res bool :=
  title <- attr_of t ;;
  Ok (contains (lower search_term) (lower title)).

Definition scrape_gitlab_jobs (search_term location : str) (limit : Z)
           (r : response greenhouse_job) : list posting :=
  take_matching
    (fun j =>
       let title := get_or (g_title j) [] in
       loc <- location_name j [] ;;
       matches <- title_has search_term title ;;
       if matches then
         loc_text <- attr_of loc ;;
         let l := lower loc_text in
         if contains (lower location) l || contains (lit "remote") l
            || contains (lit "everywhere") l
         then
           p <- greenhouse_posting "GitLab" (of_opt title) (of_opt loc) j ;;
           Ok (Some p)
         else Ok None
       else Ok None)
    limit 0 (jobs_of r).

Definition scrape_pinterest_jobs (search_term location : str) (limit : Z)
           (r : response greenhouse_job) : list posting :=
  take_matching
    (fun j =>
       let title := get_or (g_title j) [] in
       loc <- location_name j [] ;;
       matches <- title_has search_term title ;;
       if matches then
         loc_text <- attr_of loc ;;
         let l := lower loc_text in
         if contains (lower location) l || contains (lit "remote") l
         then
           p <- greenhouse_posting "Pinterest" (of_opt title) (of_opt loc) j ;;
           Ok (Some p)
         else Ok None
       else Ok None)
    limit 0 (jobs_of r).

Definition scrape_phonepe_jobs (search_term : str) (limit : Z)
           (r : response greenhouse_job) : list posting :=
  take_matching
    (fun j =>
       matches <- title_has search_term (get_or (g_title j) []) ;;
       if matches then
         loc <- location_name j (lit "Bangalore") ;;
         p <- greenhouse_posting "PhonePe" (of_opt (get_opt (g_title j)))
                                 (of_opt loc) j ;;
         Ok (Some p)
       else Ok None)
    limit 0 (jobs_of r).

Definition scrape_razorpay_jobs (search_term : str) (limit : Z)
           (r : response greenhouse_job) : list posting :=
  take_matching
    (fun j =>
       matches <- title_has search_term (get_or (g_title j) []) ;;
       if matches then
         loc <- location_name j (lit "Bangalore") ;;
         p <- greenhouse_posting "Razorpay" (of_opt (get_opt (g_title j)))
                                 (of_opt loc) j ;;
         Ok (Some p)
       else Ok None)
    limit 0 (jobs_of r).

(** The object [{}] as a default for ["categories"]. *)
Definition no_categories : lever_categories :=
  {| c_location := Absent; c_commitment := Absent |}.

Definition scrape_flipkart_jobs (search_term : str) (limit : Z)
           (r : response lever_job) : list posting :=
  take_matching
    (fun j =>
       matches <- title_has search_term (get_or (l_text j) []) ;;
       if matches then
         categories <- attr_of (get_or (l_categories j) no_categories) ;;
         plain <- iter_of (get_or (l_descriptionPlain j) []) ;;
         Ok (Some
               {| title := of_opt (get_opt (l_text j));
                  company_name := lit "Flipkart";
                  location :=
                    of_opt (get_or (c_location categories) (lit "Bangalore"));
                  description := slice_to plain 500;
                  short_description := slice_to plain 200;
                  apply_url := of_opt (l_hostedUrl j);
                  posted_at := PStr today_text;
                  source := lit "Flipkart Careers";
                  employment_type :=
                    of_opt (get_or (c_commitment categories)
                                   (lit "Full-time"));
                  salary_range := PNone |})
       else Ok None)
    limit 0 (jobs_of r).

(** What the six employer sites answer during one run. *)
Record sites := {
  amazon : response amazon_job;
  gitlab : response greenhouse_job;
  pinterest : response greenhouse_job;
  phonepe : response greenhouse_job;
  razorpay : response greenhouse_job;
  flipkart : response lever_job
}.

Inductive company := Amazon | GitLab | Pinterest | PhonePe | Razorpay | Flipkart.

(** [scrape_all_company_careers]: the six connectors run side by side and
    their lists are appended as they complete; [completed] is the order in
    which they did. *)
Definition scrape_all_company_careers (completed : list company) (w : sites)
           (search_term location : str) (limit : Z) : list posting :=
  flat_map
    (fun c =>
       match c with
       | Amazon => scrape_amazon_jobs (amazon w)
       | GitLab => scrape_gitlab_jobs (lit "software") location limit (gitlab w)
       | Pinterest =>
           scrape_pinterest_jobs (lit "software") location limit (pinterest w)
       | PhonePe => scrape_phonepe_jobs (lit "engineer") limit (phonepe w)
       | Razorpay => scrape_razorpay_jobs (lit "engineer") limit (razorpay w)
       | Flipkart => scrape_flipkart_jobs (lit "engineer") limit (flipkart w)
       end)
    completed.

End Connectors.

End CompanyCareers.

(* ================================================================== *)
(** * server.py: field extractors and normalization *)
(* ================================================================== *)

Module Server.

Section WithLower.

(** [str.lower], supplied by the Python runtime. *)
Variable lower : str -> str.

Definition clean_nan (value : pyval) : pyval :=
  match value with
  | PNaN => PNone
  | _ => value
  end.

Definition spaces : regex := Star Space.

(** [\d+(?:\.\d+)?] *)
Definition number : regex :=
  Cat (Plus Digit) (Opt (Cat (Lit ".") (Plus Digit))).

(** [[\d,]+(?:\.\d+)?] *)
Definition comma_number : regex :=
  Cat (Plus (Atom [ADigit; ALit 44%N])) (Opt (Cat (Lit ".") (Plus Digit))).

(** [(?:-|to|–)] *)
Definition range_sep : regex :=
  Alt (Lit "-") (Alt (Lit "to") (Chr en_dash)).

(** [lakhs?] *)
Definition lakhs : regex := Cat (Lit "lakh") (Opt (Lit "s")).

Definition pay_pattern : regex :=
  cats [ Lit "Pay:"; spaces;
         Opt (Cat (Lit "From") spaces);
         Opt (cats [Lit "Up"; spaces; Lit "to"; spaces]);
         Opt (Chr rupee); spaces;
         Group 1 comma_number; spaces;
         Opt range_sep; spaces;
         Opt (Chr rupee); spaces;
         Opt (Group 2 comma_number); spaces;
         Opt (Cat (Lit "per") spaces);
         Group 3 (Alt (Lit "year") (Alt (Lit "month") (Lit "annum"))) ].

Definition lpa_pattern : regex :=
  cats [ Group 1 number; spaces; range_sep; spaces; Group 2 number; spaces;
         Alt (Lit "lpa")
             (cats [ lakhs; spaces; Opt (Cat (Lit "per") spaces);
                     Alt (Lit "annum")
                         (Cat (Lit "p.a") (Opt (Lit "."))) ]) ].

Definition single_lpa : regex :=
  cats [ Opt (Alt (Cat (Lit "upto") spaces)
                  (cats [Lit "up"; spaces; Lit "to"; spaces]));
         Group 1 number; spaces;
         Alt (Lit "lpa")
             (cats [lakhs; spaces; Opt (Cat (Lit "per") spaces); Lit "annum"]) ].

Definition ctc_pattern : regex :=
  cats [ Lit "ctc"; Plus (Atom [ALit 58%N; ASpace]);
         Group 1 number; spaces; range_sep; spaces; Group 2 number; spaces;
         Opt (Alt lakhs (Lit "lpa")) ].

(** The text of a group that took part in the match; [match.group(n)] of a
    group that did not is [None]. *)
Definition grp (c : caps) (n : nat) : str :=
  match group c n with Some s => s | None => lit "None" end.

Definition extract_indian_salary (description : pyval) : option str :=
  if negb (truthy description) then None else
  let text := py_str description in
  match re_search true pay_pattern text with
  | Some m =>
      let min_sal := grp m 1 in
      let period := lower (grp m 3) in
      let period_str :=
        if PyStr.eqb period (lit "year") || PyStr.eqb period (lit "annum")
        then lit "per year" else lit "per month" in
      match group m 2 with
      | Some ((_ :: _) as max_sal) =>
          Some ([rupee] ++ min_sal ++ lit " - " ++ [rupee] ++ max_sal
                ++ lit " " ++ period_str)
      | _ => Some ([rupee] ++ min_sal ++ lit " " ++ period_str)
      end
  | None =>
  match re_search true lpa_pattern text with
  | Some m => Some ([rupee] ++ grp m 1 ++ lit " - " ++ grp m 2 ++ lit " LPA")
  | None =>
  match re_search true single_lpa text with
  | Some m => Some ([rupee] ++ grp m 1 ++ lit " LPA")
  | None =>
  match re_search true ctc_pattern text with
  | Some m => Some ([rupee] ++ grp m 1 ++ lit " - " ++ grp m 2 ++ lit " LPA")
  | None => None
  end end end end.

Definition map_job_type (job_type_str : pyval) : str :=
  if negb (truthy job_type_str) then lit "Full-time" else
  let job_type_lower := lower (py_str job_type_str) in
  if contains (lit "intern") job_type_lower then lit "Internship"
  else if contains (lit "contract") job_type_lower
          || contains (lit "temporary") job_type_lower then lit "Contract"
  else lit "Full-time".

(** The keys of the dictionary the transforms return that carry data of
    the posting; ["posted_at"] and the constant entries are left out. *)
Record schema := {
  title : pyval;
  company_name : pyval;
  location : pyval;
  description : str;
  short_description : str;
  employment_type : pyval;
  salary_range : pyval;
  apply_url : pyval;
  source : pyval
}.

Definition of_option (o : option str) : pyval :=
  match o with
  | Some x => PStr x
  | None => PNone
  end.

(** [str.capitalize] *)
Variable capitalize : str -> str.

(** [transform_jobspy_to_schema]: the first loop rewrites [doc] in place,
    so the dictionary as the call leaves it is returned with the result. *)
Definition transform_jobspy_to_schema (doc : dict) : dict * schema :=
  let doc := List.map (fun kv => (fst kv, clean_nan (snd kv))) doc in
  let min_amt := get doc (lit "min_amount") in
  let max_amt := get doc (lit "max_amount") in
  let salary_range :=
    if truthy min_amt && truthy max_amt then
      let currency := get_default doc (lit "currency") (PStr (lit "INR")) in
      let interval := get_default doc (lit "interval") (PStr (lit "yearly")) in
      PStr (py_str currency ++ lit " " ++ py_str min_amt ++ lit " - "
            ++ py_str max_amt ++ lit " (" ++ py_str interval ++ lit ")")
    else if truthy min_amt then
      PStr (py_str (get_default doc (lit "currency") (PStr (lit "INR")))
            ++ lit " " ++ py_str min_amt)
    else of_option (extract_indian_salary (get doc (lit "description"))) in
  let description := py_str (py_or (get doc (lit "description")) (PStr [])) in
  let short_description :=
    if (200 <? length description)%nat
    then slice_to description 200 ++ lit "..." else description in
  (doc,
   {| title := get_default doc (lit "title") (PStr (lit "Unknown Title"));
      company_name :=
        py_or (get doc (lit "company_name"))
              (get_default doc (lit "company") (PStr (lit "Unknown Company")));
      location :=
        PStr (py_str (get_default doc (lit "location")
                                  (PStr (lit "Unknown Location"))));
      description := description;
      short_description := short_description;
      employment_type := PStr (map_job_type (get doc (lit "job_type")));
      salary_range := salary_range;
      apply_url := get doc (lit "job_url");
      source :=
        PStr (capitalize
                (py_str (get_default doc (lit "site")
                                     (PStr (lit "Unknown"))))) |}).

Definition transform_company_to_schema (job : CompanyCareers.posting)
  : schema :=
  {| title := CompanyCareers.title job;
     company_name := PStr (CompanyCareers.company_name job);
     location := CompanyCareers.location job;
     description := CompanyCareers.description job;
     short_description := CompanyCareers.short_description job;
     employment_type := CompanyCareers.employment_type job;
     salary_range := CompanyCareers.salary_range job;
     apply_url := CompanyCareers.apply_url job;
     source := PStr (CompanyCareers.source job) |}.

Definition REQUIRED_FIELDS : list str :=
  List.map lit
    [ "title"; "company"; "company_name"; "location"; "description";
      "job_type"; "job_url"; "site"; "date_posted";
      "min_amount"; "max_amount"; "currency"; "interval" ]%string.

Fixpoint has_key (d : dict) (k : str) : bool :=
  match d with
  | [] => false
  | (k', _) :: t => PyStr.eqb k' k || has_key t k
  end.

(** One row of [jobs[available_cols].to_dict(orient="records")]. *)
Definition required_columns (row : dict) : dict :=
  flat_map (fun col => if has_key row col then [(col, get row col)] else [])
           REQUIRED_FIELDS.

(** [jobspy.scrape_jobs] on the three boards, given by the rows of the
    data frame it returns for a search term, a location, a result count and
    a recency window; the function is not among the sources. *)
Variable scrape_jobs : str -> str -> Z -> Z -> list dict.
(** [datetime.now().strftime("%Y-%m-%d")] *)
Variable today_text : str.

(** [run_scraper], up to the list [transformed_jobs] it hands to the
    store.  [completed] is the order in which the employer connectors
    complete and [w] what their sites answer. *)
Definition run_scraper (completed : list CompanyCareers.company)
           (w : CompanyCareers.sites)
           (search_term location : str) (results_wanted hours_old : Z)
  : list schema :=
  let jobs := scrape_jobs search_term location results_wanted hours_old in
  let jobs_data := List.map required_columns jobs in
  let company_jobs :=
    CompanyCareers.scrape_all_company_careers
      lower today_text completed w search_term (lit "India") 10 in
  List.map (fun doc => snd (transform_jobspy_to_schema doc)) jobs_data
  ++ List.map transform_company_to_schema company_jobs.

End WithLower.

End Server.

(* ================================================================== *)
(** * Binary64 arithmetic on non-negative numbers

    [float(text)], [float * int] and [int(float)] as CPython computes them
    on the unsigned decimal numerals the salary pattern captures: every
    operation returns the binary64 number nearest to the exact result, ties
    going to the even significand. *)
(* ================================================================== *)

Module Float64.

(** [Fin m e] is the number [m * 2^e]. *)
Inductive float :=
| Fin (m : Z) (e : Z)
| Inf.

(** Quotient of [num] by [den] rounded to the nearest integer, ties to even. *)
Definition div_nearest_even (num den : Z) : Z :=
  let q := num / den in
  let r := num mod den in
  if 2 * r <? den then q
  else if den <? 2 * r then q + 1
  else if Z.even q then q else q + 1.

(** [2^k <= num / den], for [k] of either sign. *)
Definition ge_pow2 (num den k : Z) : bool :=
  if 0 <=? k then den * 2 ^ k <=? num else den <=? num * 2 ^ (- k).

(** The binary64 number nearest to [num / den], for [0 <= num], [0 < den].
    With [2^e <= num / den < 2^(e+1)] the quotient is rounded to 53 bits
    as [m * 2^q]; the result is infinite as soon as [m * 2^q] reaches
    [2^1024], that is for [q >= 972], where [2^52 <= m], and for [q = 971]
    when the rounding gave [m = 2^53]. *)
Definition of_ratio (num den : Z) : float :=
  if num =? 0 then Fin 0 0 else
  let e0 := Z.log2 num - Z.log2 den in
  let e := if ge_pow2 num den e0 then e0 else e0 - 1 in
  let q := Z.max (e - 52) (-1074) in
  let m := if 0 <=? q then div_nearest_even num (den * 2 ^ q)
           else div_nearest_even (num * 2 ^ (- q)) den in
  if (972 <=? q) || ((2 ^ 53 <=? m) && (971 <=? q)) then Inf else Fin m q.

(** [float(s)] for [s] made of the digits [int_part], then possibly a point
    and the digits [frac_part]. *)
Definition of_decimal (int_part frac_part : str) : float :=
  of_ratio (digits_value (int_part ++ frac_part))
           (10 ^ Z.of_nat (length frac_part)).

(** [x * n] for a float [x] and a positive [int] [n] below [2^53]. *)
Definition mul_int (x : float) (n : Z) : float :=
  match x with
  | Inf => Inf
  | Fin m e =>
      if 0 <=? e then of_ratio (m * n * 2 ^ e) 1
      else of_ratio (m * n) (2 ^ (- e))
  end.

(** [int(x)]: the integer part; infinity cannot be converted. *)
Definition to_int (x : float) : res Z :=
  match x with
  | Inf => Raise OverflowError
  | Fin m e => Ok (if 0 <=? e then m * 2 ^ e else m / 2 ^ (- e))
  end.

End Float64.

(* ================================================================== *)
(** * jobspy.model: the records the connectors build *)
(* ================================================================== *)

Module Model.

(** A calendar date, as its proleptic Gregorian ordinal ([date.toordinal]):
    day 1 is 0001-01-01 and day 3652059 is 9999-12-31. *)
Definition date := Z.

(** Modelled from the spec: [jobspy.model] is not among the sources; these
    are the members of [CompensationInterval] that
    [indeed.util._get_compensation_interval] can produce. *)
Inductive CompensationInterval := DAILY | YEARLY | HOURLY | WEEKLY | MONTHLY.

(** Modelled from the spec: [jobspy.model.JobType], the enumerated
    employment categories of the data model. *)
Inductive JobType := FULL_TIME | PART_TIME | CONTRACT | INTERNSHIP | TEMPORARY.

(** Modelled from the spec: [jobspy.model.Country].  A country is kept as
    the expression that denotes it in the connector: the member [INDIA],
    a call of [Country.from_string], or text handed over as it is. *)
Inductive Country :=
| INDIA
| from_string (name : str)
| as_given (code : str).

(** Modelled from the spec: [jobspy.model.Compensation], with the keyword
    arguments the connectors pass; an argument left out is [None]. *)
Record Compensation := {
  interval : option CompensationInterval;
  min_amount : option Z;
  max_amount : option Z;
  currency : str
}.

(** Modelled from the spec: [jobspy.model.Location]. *)
Record Location := {
  city : option str;
  state : option str;
  country : option Country
}.

(** The value given as [date_posted]: Indeed passes formatted text, the
    other connectors a date. *)
Inductive posted :=
| PostedText (s : str)
| PostedOn (d : date).

(** Modelled from the spec: [jobspy.model.JobPost], with the keyword
    arguments the connectors pass. *)
Record JobPost := {
  id : str;
  title : option str;
  company_name : option str;
  location : Location;
  job_type : option (list JobType);
  date_posted : option posted;
  job_url : str;
  compensation : option Compensation;
  description : option str
}.

Inductive DescriptionFormat := MARKDOWN | HTML.

(** Modelled from the spec: [jobspy.model.ScraperInput], the search query;
    only the attributes the connectors read are listed. *)
Record ScraperInput := {
  search_term : option str;
  search_location : option str;
  results_wanted : Z;
  offset : Z;
  hours_old : option Z;
  wanted_job_type : option JobType;       (* [job_type] *)
  is_remote : bool;
  description_format : DescriptionFormat;
  linkedin_fetch_description : bool;
  indeed_domain_value : str * str     (* of [country]: domain, API code *)
}.

(** [JobResponse(jobs=...)] *)
Definition JobResponse := list JobPost.

(** A Python [set] of strings: membership, insertion and [len]. *)
Definition str_set := list str.

Definition set_mem (x : str) (s : str_set) : bool :=
  existsb (PyStr.eqb x) s.

Definition set_add (x : str) (s : str_set) : str_set :=
  if set_mem x s then s else x :: s.

Definition set_len (s : str_set) : Z := Z.of_nat (length s).

End Model.

Import Model.

(* ================================================================== *)
(** * jobspy.naukri: the keyword REST connector *)
(* ================================================================== *)

Module Naukri.

(** One entry of a job's ["placeholders"] array. *)
Record placeholder := {
  ptype : option str;          (* "type", read with [.get("type")] *)
  plabel : jfield str          (* "label", read with [.get("label", "")] *)
}.

(** One element of ["jobDetails"].  The keys read with a default are
    ["title"], ["companyName"], ["placeholders"] and ["jdURL"]. *)
Record job := {
  jobId : option str;
  jtitle : jfield str;                   (* "title" *)
  companyName : jfield str;
  placeholders : jfield (list placeholder);
  footerPlaceholderLabel : option str;
  createdDate : option Z;
  jdURL : jfield str;
  jobDescription : option str
}.

(** What one page request yields: the session raises, or a response comes
    back with its status code and, once decoded, its ["jobDetails"]. *)
Inductive response :=
| Raised (e : exn)
| Http (status_code : Z) (jobDetails : res (list job)).

(** The source: the response to the request numbered [n] in the run, asking
    for page [pageNo]. *)
Definition source := nat -> Z -> response.

(** What a run did: the pages it requested, first request first, and what
    [scrape] returned or raised. *)
Record outcome := {
  fetched : list Z;
  result : res JobResponse
}.

Definition jobs_per_page : Z := 20.

(** [float(s)] for a numeral matched by [\d+(?:\.\d+)?]. *)
Definition float_of_numeral (s : str) : Float64.float :=
  match split s (lit ".") with
  | [i] => Float64.of_decimal i []
  | i :: f :: _ => Float64.of_decimal i f
  | [] => Float64.of_decimal [] []
  end.

(** [(\d+(?:\.\d+)?)\s*-\s*(\d+(?:\.\d+)?)\s*(Lacs|Lakh|Cr)] *)
Definition salary_pattern : regex :=
  cats [ Group 1 Server.number; Server.spaces; Lit "-"; Server.spaces;
         Group 2 Server.number; Server.spaces;
         Group 3 (Alt (Lit "Lacs") (Alt (Lit "Lakh") (Lit "Cr"))) ].

(** [(\d+)\s*day] *)
Definition day_pattern : regex :=
  cats [ Group 1 (Plus Digit); Server.spaces; Lit "day" ].

Section Connector.

(** [str.lower] *)
Variable lower : str -> str.
(** [jobspy.util.markdown_converter], the markup-to-markdown capability. *)
Variable markdown_converter : str -> str.
(** The date [datetime.now()] reads from the wall clock. *)
Variable today : date.
(** [datetime.fromtimestamp(ms / 1000).date()]: the local calendar date of
    an instant given in milliseconds since the epoch; it raises for an
    instant outside the range the platform supports. *)
Variable fromtimestamp_date : Z -> res date.

(** [_get_location]: the first placeholder of type "location" decides; a
    label that is [null] has no [split]. *)
Definition _get_location (placeholders : list placeholder) : res Location :=
  match find (fun p => opt_eqb (ptype p) (lit "location")) placeholders with
  | Some p =>
      location_str <- attr_of (get_or (plabel p) []) ;;
      let parts := split location_str (lit ", ") in
      Ok {| city := nth_error parts 0;
            state := nth_error parts 1;
            country := Some INDIA |}
  | None => Ok {| city := None; state := None; country := Some INDIA |}
  end.

Fixpoint _get_compensation (placeholders : list placeholder)
  : res (option Compensation) :=
  match placeholders with
  | [] => Ok None
  | p :: rest =>
      if opt_eqb (ptype p) (lit "salary") then
        label <- attr_of (get_or (plabel p) []) ;;
        let salary_text := strip label in
        if PyStr.eqb salary_text (lit "Not disclosed") then Ok None else
        match re_match true salary_pattern salary_text with
        | Some m =>
            let unit := lower (Server.grp m 3) in
            let scale (x : Float64.float) :=
              if PyStr.eqb unit (lit "lacs") || PyStr.eqb unit (lit "lakh")
              then Float64.mul_int x 100000
              else if PyStr.eqb unit (lit "cr")
              then Float64.mul_int x 10000000
              else x in
            let min_sal := scale (float_of_numeral (Server.grp m 1)) in
            let max_sal := scale (float_of_numeral (Server.grp m 2)) in
            lo <- Float64.to_int min_sal ;;
            hi <- Float64.to_int max_sal ;;
            Ok (Some {| interval := None;
                        min_amount := Some lo;
                        max_amount := Some hi;
                        currency := lit "INR" |})
        | None => _get_compensation rest
        end
      else _get_compensation rest
  end.

(** [(today - timedelta(days=days)).date()] *)
Definition days_before (days : Z) : res date :=
  if 999999999 <? days then Raise OverflowError
  else if today - days <? 1 then Raise OverflowError
  else Ok (today - days).

Definition of_timestamp (created_date : Z) : res (option date) :=
  d <- fromtimestamp_date created_date ;; Ok (Some d).

Definition _parse_date (label : option str) (created_date : option Z)
  : res (option date) :=
  let created := match created_date with
                 | Some c => if c =? 0 then None else Some c
                 | None => None
                 end in
  match label with
  | None | Some [] =>
      match created with
      | Some c => of_timestamp c
      | None => Ok None
      end
  | Some l =>
      let label := lower l in
      if contains (lit "today") label || contains (lit "just now") label
         || contains (lit "few hours") label
      then Ok (Some today)
      else if contains (lit "ago") label then
        match re_search false day_pattern label with
        | Some m =>
            d <- days_before (digits_value (Server.grp m 1)) ;; Ok (Some d)
        | None => Ok None
        end
      else
        match created with
        | Some c => of_timestamp c
        | None => Ok None
        end
  end.

(** [_process_job].  [job.get("placeholders", [])] is handed to the two
    extractors, whose loops cannot run over [None]; the title and the
    company go into the posting as [.get] gives them, [None] included. *)
Definition _process_job (inp : ScraperInput) (j : job) (job_id : str)
  : res JobPost :=
  let title := get_or (jtitle j) (lit "N/A") in
  let company := get_or (companyName j) (lit "N/A") in
  placeholders <- iter_of (get_or (placeholders j) []) ;;
  location <- _get_location placeholders ;;
  compensation <- _get_compensation placeholders ;;
  date_posted <- _parse_date (footerPlaceholderLabel j) (createdDate j) ;;
  let job_url :=
    lit "https://www.naukri.com"
    ++ str_of_opt (get_or (jdURL j) (lit "/job/" ++ job_id)) in
  let description :=
    match jobDescription j, description_format inp with
    | Some ((_ :: _) as d), MARKDOWN => Some (markdown_converter d)
    | d, _ => d
    end in
  Ok {| id := lit "nk-" ++ job_id;
        title := title;
        company_name := company;
        location := location;
        job_type := None;
        date_posted := option_map PostedOn date_posted;
        job_url := job_url;
        compensation := compensation;
        description := description |}.

(** [continue_search], the condition of the pagination loop. *)
Definition continue_search (inp : ScraperInput) (job_list : list JobPost)
           (page : Z) : bool :=
  (Z.of_nat (length job_list) <? results_wanted inp) && (page <=? 50).

(** The [for job in job_details] loop: it stops early, by [break], as soon
    as [continue_search] no longer holds. *)
Fixpoint process_page (inp : ScraperInput) (page : Z) (job_details : list job)
         (job_list : list JobPost) (seen_ids : str_set)
  : res (list JobPost * str_set) :=
  match job_details with
  | [] => Ok (job_list, seen_ids)
  | j :: rest =>
      match jobId j with
      | Some ((_ :: _) as job_id) =>
          if set_mem job_id seen_ids
          then process_page inp page rest job_list seen_ids
          else
            let seen_ids := set_add job_id seen_ids in
            job_post <- _process_job inp j job_id ;;
            let job_list := job_list ++ [job_post] in
            if negb (continue_search inp job_list page)
            then Ok (job_list, seen_ids)
            else process_page inp page rest job_list seen_ids
      | _ => process_page inp page rest job_list seen_ids
      end
  end.

Definition status_ok (status_code : Z) : bool :=
  (200 <=? status_code) && (status_code <? 400).

(** The [while continue_search()] loop.  [fuel] bounds the number of times
    the condition is evaluated; [None] means the bound was too small. *)
Fixpoint scrape_loop (fuel : nat) (fetch : source) (inp : ScraperInput)
         (job_list : list JobPost) (seen_ids : str_set) (page : Z)
         (log : list Z) : option outcome :=
  match fuel with
  | O => None
  | S fuel' =>
      if negb (continue_search inp job_list page) then
        Some {| fetched := log;
                result := Ok (slice_to job_list (results_wanted inp)) |}
      else
        match search_term inp with
        | None => Some {| fetched := log; result := Raise AttributeError |}
        | Some _ =>
            let log' := log ++ [page] in
            let stop (r : res JobResponse) :=
              Some {| fetched := log'; result := r |} in
            match fetch (length log) page with
            | Raised _ => stop (Ok job_list)
            | Http status_code body =>
                if negb (status_ok status_code) then stop (Ok job_list) else
                match body with
                | Raise _ => stop (Ok job_list)
                | Ok [] => stop (Ok (slice_to job_list (results_wanted inp)))
                | Ok job_details =>
                    match process_page inp page job_details
                                       job_list seen_ids with
                    | Raise e => stop (Raise e)
                    | Ok (job_list', seen_ids') =>
                        let page' :=
                          if continue_search inp job_list' page
                          then page + 1 else page in
                        scrape_loop fuel' fetch inp job_list' seen_ids'
                                    page' log'
                    end
                end
            end
        end
  end.

(** [Naukri.scrape]: at most fifty pages are visited, so fifty-one
    evaluations of the loop condition are enough. *)
Definition scrape (fetch : source) (inp : ScraperInput) : option outcome :=
  scrape_loop 51 fetch inp [] [] 1 [].

End Connector.

End Naukri.

(* ================================================================== *)
(** * jobspy.linkedin: the rendered-page connector *)
(* ================================================================== *)

Module LinkedIn.

(** What the markup parser finds in one [div.base-search-card]; a tag or an
    attribute that is not there is [None]. *)
Record job_card := {
  href : option str;            (* a.base-card__full-link, attribute href *)
  salary_info : option str;     (* span.job-search-card__salary-info, text *)
  sr_only : option str;         (* span.sr-only, stripped text *)
  subtitle : option str;        (* h4.base-search-card__subtitle > a, text *)
  card_location : option str;   (* span.job-search-card__location, text *)
  listdate : option str         (* time.job-search-card__listdate, datetime *)
}.

(** What one search request yields: the session raises, or a response
    comes back with its status code and the cards found in its markup. *)
Inductive response :=
| Raised (e : exn)
| Http (status_code : Z) (job_cards : list job_card).

(** The source: the response to the request numbered [n] in the run, asking
    for the results from offset [start] on. *)
Definition source := nat -> Z -> response.

Record outcome := {
  fetched : list Z;             (* the offsets requested, in order *)
  result : JobResponse
}.

Definition base_url : str := lit "https://www.linkedin.com".

Section Connector.

(** [jobspy.util.currency_parser] and [int()] on what it returns. *)
Variable amount : Type.
Variable currency_parser : str -> res amount.
Variable int_of_amount : amount -> res Z.
(** [datetime.strptime(s, "%Y-%m-%d")] *)
Variable strptime : str -> res date.
(** [jobspy.util.markdown_converter] *)
Variable markdown_converter : str -> str.
(** The job page of a posting, reduced to the prettified markup of its
    description block: [None] when the page cannot be fetched, redirects to
    the sign-up page or has no such block. *)
Variable job_page : str -> option str.

Fixpoint parse_all (l : list str) : res (list amount) :=
  match l with
  | [] => Ok []
  | x :: t => v <- currency_parser x ;; vs <- parse_all t ;; Ok (v :: vs)
  end.

(** The salary block of [_process_job]; whatever is raised inside is
    swallowed and leaves the compensation unset. *)
Definition card_compensation (c : job_card) : option Compensation :=
  match salary_info c with
  | None => None
  | Some text =>
      let salary_text := strip text in
      let attempt :=
        salary_values <- parse_all (split salary_text (lit "-")) ;;
        match salary_values with
        | v0 :: v1 :: _ =>
            lo <- int_of_amount v0 ;;
            hi <- int_of_amount v1 ;;
            Ok (Some {| interval := None;
                        min_amount := Some lo;
                        max_amount := Some hi;
                        currency :=
                          match salary_text with
                          | ch :: _ =>
                              if N.eqb ch 36 then lit "USD" else [ch]
                          | [] => []
                          end |})
        | _ => Ok None
        end in
      match attempt with
      | Ok r => r
      | Raise _ => None
      end
  end.

Definition _get_location (c : job_card) : Location :=
  let worldwide := Some (from_string (lit "worldwide")) in
  let unset := {| city := None; state := None; country := worldwide |} in
  match card_location c with
  | None => unset
  | Some text =>
      match split (strip text) (lit ", ") with
      | [a; b] => {| city := Some a; state := Some b; country := worldwide |}
      | [a; b; c] =>
          {| city := Some a; state := Some b;
             country := Some (from_string c) |}
      | _ => unset
      end
  end.

Definition _get_description (inp : ScraperInput) (job_id : str)
  : option str :=
  match job_page job_id with
  | Some markup =>
      match description_format inp with
      | MARKDOWN => Some (markdown_converter markup)
      | HTML => Some markup
      end
  | None => None
  end.

Definition _process_job (inp : ScraperInput) (c : job_card) (job_id : str)
  : JobPost :=
  {| id := lit "li-" ++ job_id;
     title := Some (or_default (sr_only c) (lit "N/A"));
     company_name := Some (or_default (subtitle c) (lit "N/A"));
     location := _get_location c;
     job_type := None;
     date_posted :=
       match listdate c with
       | Some d => match strptime d with
                   | Ok x => Some (PostedOn x)
                   | Raise _ => None
                   end
       | None => None
       end;
     job_url := base_url ++ lit "/jobs/view/" ++ job_id;
     compensation := card_compensation c;
     description :=
       if linkedin_fetch_description inp
       then _get_description inp job_id else None |}.

(** [href.split("?")[0].split("-")[-1]] *)
Definition job_id_of (href : str) : str :=
  last (split (hd [] (split href (lit "?"))) (lit "-")) [].

(** [continue_search], the condition of the pagination loop. *)
Definition continue_search (inp : ScraperInput) (job_list : list JobPost)
           (start : Z) : bool :=
  (Z.of_nat (length job_list) <? results_wanted inp) && (start <? 1000).

(** The [for job_card in job_cards] loop, with its [break]. *)
Fixpoint process_page (inp : ScraperInput) (start : Z)
         (job_cards : list job_card)
         (job_list : list JobPost) (seen_ids : str_set)
  : list JobPost * str_set :=
  match job_cards with
  | [] => (job_list, seen_ids)
  | c :: rest =>
      match href c with
      | Some h =>
          let job_id := job_id_of h in
          if set_mem job_id seen_ids
          then process_page inp start rest job_list seen_ids
          else
            let seen_ids := set_add job_id seen_ids in
            let job_list := job_list ++ [_process_job inp c job_id] in
            if negb (continue_search inp job_list start)
            then (job_list, seen_ids)
            else process_page inp start rest job_list seen_ids
      | None => process_page inp start rest job_list seen_ids
      end
  end.

Definition status_ok (status_code : Z) : bool :=
  (200 <=? status_code) && (status_code <? 400).

(** The [while continue_search()] loop.  [fuel] bounds the number of times
    the condition is evaluated; [None] means the bound was too small. *)
Fixpoint scrape_loop (fuel : nat) (fetch : source) (inp : ScraperInput)
         (job_list : list JobPost) (seen_ids : str_set) (start : Z)
         (log : list Z) : option outcome :=
  match fuel with
  | O => None
  | S fuel' =>
      if negb (continue_search inp job_list start) then
        Some {| fetched := log;
                result := slice_to job_list (results_wanted inp) |}
      else
        let log' := log ++ [start] in
        let stop := Some {| fetched := log'; result := job_list |} in
        match fetch (length log) start with
        | Raised _ => stop
        | Http status_code job_cards =>
            if negb (status_ok status_code) then stop else
            match job_cards with
            | [] => stop
            | _ =>
                let '(job_list', seen_ids') :=
                  process_page inp start job_cards job_list seen_ids in
                let start' :=
                  if continue_search inp job_list' start
                  then start + Z.of_nat (length job_cards) else start in
                scrape_loop fuel' fetch inp job_list' seen_ids' start' log'
            end
        end
  end.

(** [offset // 10 * 10 if offset else 0] *)
Definition first_start (inp : ScraperInput) : Z :=
  if offset inp =? 0 then 0 else offset inp / 10 * 10.

(** [LinkedIn.scrape]: every pass that goes on moves [start] forward by at
    least one and no pass begins at 1000 or beyond. *)
Definition scrape (fetch : source) (inp : ScraperInput) : option outcome :=
  scrape_loop (S (Z.to_nat (1000 - first_start inp))) fetch inp
              [] [] (first_start inp) [].

End Connector.

End LinkedIn.

(* ================================================================== *)
(** * jobspy.indeed: the query-language API connector *)
(* ================================================================== *)

Module Indeed.

(** ["range"]: the two bounds; a number is given by its integer part,
    which is what [int()] keeps of it. *)
Record range_data := {
  range_min : option Z;                      (* "min" *)
  range_max : option Z                       (* "max" *)
}.

(** ["baseSalary"], an object with at least one key: the unit, read with
    [.get("unitOfWork", "")] and tested for truth, and the range, read
    with [.get("range", {})]. *)
Record salary := {
  unitOfWork : option str;
  range : jfield range_data
}.

(** ["estimated"], an object with at least one key. *)
Record estimate := {
  est_baseSalary : option salary;
  est_currencyCode : option str
}.

(** The ["compensation"] object of a job.  Where the code only tests a
    value for truth, an object without keys counts as missing: so it is
    for ["baseSalary"], and for ["estimated"], where [Absent] is a missing
    key or an object without keys and [Null] is [null]. *)
Record compensation_data := {
  baseSalary : option salary;
  estimated : jfield estimate;
  currencyCode : option str
}.

(** ["location"], read with [.get("location", {})]. *)
Record location_data := {
  loc_city : option str;                     (* "city" *)
  loc_admin1Code : option str;
  loc_countryCode : option str
}.

(** The ["job"] object of one search result.  The keys the code reads by
    subscript are there with a value; ["attributes"], ["location"] and
    ["compensation"] are read with [.get] and a default. *)
Record job := {
  key : str;
  jtitle : str;                              (* "title" *)
  description_html : str;                    (* "description"."html" *)
  attributes : jfield (list str);            (* the "label" of each one *)
  datePublished : Z;
  jlocation : jfield location_data;          (* "location" *)
  employer_name : option str;                (* "employer"."name" *)
  jcompensation : option compensation_data   (* "compensation" *)
}.

(** A decoded response body: the results and ["pageInfo"."nextCursor"]. *)
Record page := {
  results : list job;
  nextCursor : option str
}.

(** What one query yields: the session raises, or a response comes back
    with its [ok] flag and its body, decoded or not decodable. *)
Inductive response :=
| Raised (e : exn)
| Http (ok : bool) (body : res page).

(** The source: the response to the request numbered [n] in the run, made
    with the given cursor. *)
Definition source := nat -> option str -> response.

(** The attributes of an [Indeed] object that [scrape] reads or writes. *)
Record instance := {
  scraper_input : option ScraperInput;
  seen_urls : str_set;
  api_country_code : option str;
  base_url : option str
}.

(** [Indeed.__init__] *)
Definition init : instance :=
  {| scraper_input := None; seen_urls := []; api_country_code := None;
     base_url := None |}.

Record outcome := {
  fetched : list (option str);     (* the cursors sent, in order *)
  result : res JobResponse;
  self_after : instance
}.

Definition with_seen (self : instance) (s : str_set) : instance :=
  {| scraper_input := scraper_input self; seen_urls := s;
     api_country_code := api_country_code self; base_url := base_url self |}.

Section Connector.

(** [str.lower] and [str.upper] *)
Variable lower : str -> str.
Variable upper : str -> str.
(** [jobspy.util.get_enum_from_job_type] *)
Variable get_enum_from_job_type : str -> option JobType.
(** [jobspy.util.markdown_converter] *)
Variable markdown_converter : str -> str.
(** [datetime.fromtimestamp(ms / 1000).strftime("%Y-%m-%d")] *)
Variable strftime_of_ms : Z -> res str.

(** [indeed.util.get_job_type] *)
Definition get_job_type (attributes : list str) : list JobType :=
  flat_map
    (fun label =>
       let job_type_str :=
         lower (filter (fun c => negb (N.eqb c 45 || N.eqb c 32)) label) in
       match get_enum_from_job_type job_type_str with
       | Some t => [t]
       | None => []
       end)
    attributes.

(** [indeed.util._get_compensation_interval] *)
Definition _get_compensation_interval (interval : str)
  : option CompensationInterval :=
  match interval with
  | [] => None
  | _ =>
      let u := upper interval in
      if PyStr.eqb u (lit "DAY") then Some DAILY
      else if PyStr.eqb u (lit "YEAR") then Some YEARLY
      else if PyStr.eqb u (lit "HOUR") then Some HOURLY
      else if PyStr.eqb u (lit "WEEK") then Some WEEKLY
      else if PyStr.eqb u (lit "MONTH") then Some MONTHLY
      else None
  end.

Definition nonempty (o : option str) : option str :=
  match o with
  | Some (_ :: _) => o
  | _ => None
  end.

(** The object [{}] as a default for ["range"] and for ["estimated"]. *)
Definition no_range : range_data :=
  {| range_min := None; range_max := None |}.

Definition no_estimate : estimate :=
  {| est_baseSalary := None; est_currencyCode := None |}.

(** [indeed.util.get_compensation].  Once the interval is known the range
    and the currency are read through [.get("range", {})] and
    [.get("estimated", {})]: a [null] there has no [get]. *)
Definition get_compensation (compensation : option compensation_data)
  : res (option Compensation) :=
  match compensation with
  | None => Ok None
  | Some c =>
      let comp :=
        match baseSalary c with
        | Some b => Some b
        | None =>
            match estimated c with
            | Val e => est_baseSalary e
            | _ => None
            end
        end in
      match comp with
      | None => Ok None
      | Some comp =>
          match _get_compensation_interval
                  (or_default (unitOfWork comp) []) with
          | None => Ok None
          | Some i =>
              range_data <- attr_of (get_or (range comp) no_range) ;;
              est <- attr_of (get_or (estimated c) no_estimate) ;;
              Ok (Some {| interval := Some i;
                          min_amount := range_min range_data;
                          max_amount := range_max range_data;
                          currency :=
                            match nonempty (est_currencyCode est) with
                            | Some x => x
                            | None =>
                                match nonempty (currencyCode c) with
                                | Some x => x
                                | None => lit "USD"
                                end
                            end |})
          end
      end
  end.

(** [_build_filters], reduced to whether it returns: the text of the filter
    goes into the query and plays no part afterwards.  The table of keys
    has no entry for [TEMPORARY]. *)
Definition _build_filters (inp : ScraperInput) : res unit :=
  match hours_old inp with
  | Some h => if h =? 0 then
                match wanted_job_type inp with
                | Some TEMPORARY => Raise KeyError
                | _ => Ok tt
                end
              else Ok tt
  | None =>
      match wanted_job_type inp with
      | Some TEMPORARY => Raise KeyError
      | _ => Ok tt
      end
  end.

(** The object [{}] as a default for ["location"]. *)
Definition no_location : location_data :=
  {| loc_city := None; loc_admin1Code := None; loc_countryCode := None |}.

(** [_process_job]: [None] for a posting whose URL was seen already;
    otherwise the URL is recorded before anything else is read.  The loop
    of [get_job_type] cannot run over [None], and a [null] location has
    no [get]. *)
Definition _process_job (self : instance) (inp : ScraperInput) (j : job)
  : instance * res (option JobPost) :=
  let job_url :=
    or_default (base_url self) (lit "None") ++ lit "/viewjob?jk=" ++ key j in
  if set_mem job_url (seen_urls self) then (self, Ok None) else
  let self := with_seen self (set_add job_url (seen_urls self)) in
  let description :=
    match description_format inp with
    | MARKDOWN => markdown_converter (description_html j)
    | HTML => description_html j
    end in
  (self,
   labels <- iter_of (get_or (attributes j) []) ;;
   let job_type := get_job_type labels in
   date_posted <- strftime_of_ms (datePublished j) ;;
   loc <- attr_of (get_or (jlocation j) no_location) ;;
   compensation <- get_compensation (jcompensation j) ;;
   Ok (Some {| id := lit "in-" ++ key j;
               title := Some (jtitle j);
               description := Some description;
               company_name := employer_name j;
               location := {| city := loc_city loc;
                              state := loc_admin1Code loc;
                              country :=
                                option_map as_given (loc_countryCode loc) |};
               job_type := Some job_type;
               compensation := compensation;
               date_posted := Some (PostedText date_posted);
               job_url := job_url |})).

(** The [for job in jobs] loop of [_scrape_page]. *)
Fixpoint process_results (self : instance) (inp : ScraperInput)
         (jobs : list job) (job_list : list JobPost)
  : instance * res (list JobPost) :=
  match jobs with
  | [] => (self, Ok job_list)
  | j :: rest =>
      match _process_job self inp j with
      | (self', Raise e) => (self', Raise e)
      | (self', Ok None) => process_results self' inp rest job_list
      | (self', Ok (Some processed_job)) =>
          process_results self' inp rest (job_list ++ [processed_job])
      end
  end.

(** [_scrape_page] once the query is built: nothing around the request or
    the decoding catches what they raise. *)
Definition _scrape_page (self : instance) (inp : ScraperInput)
           (answer : response)
  : instance * res (list JobPost * option str) :=
  match answer with
  | Raised e => (self, Raise e)
  | Http false _ => (self, Ok ([], None))
  | Http true (Raise e) => (self, Raise e)
  | Http true (Ok data) =>
      match process_results self inp (results data) [] with
      | (self', Raise e) => (self', Raise e)
      | (self', Ok job_list) => (self', Ok (job_list, nextCursor data))
      end
  end.

(** The [while len(self.seen_urls) < results_wanted + offset] loop.  [fuel]
    bounds the number of times the condition is evaluated. *)
Fixpoint scrape_loop (fuel : nat) (fetch : source) (inp : ScraperInput)
         (self : instance) (job_list : list JobPost) (cursor : option str)
         (log : list (option str)) : option outcome :=
  match fuel with
  | O => None
  | S fuel' =>
      let finish (self : instance) (log : list (option str)) :=
        Some {| fetched := log;
                result := Ok (slice job_list (offset inp)
                                    (offset inp + results_wanted inp));
                self_after := self |} in
      if negb (set_len (seen_urls self) <? results_wanted inp + offset inp)
      then finish self log
      else
        match _build_filters inp with
        | Raise e =>
            Some {| fetched := log; result := Raise e; self_after := self |}
        | Ok _ =>
        let log' := log ++ [cursor] in
        match _scrape_page self inp (fetch (length log) cursor) with
        | (self', Raise e) =>
            Some {| fetched := log'; result := Raise e; self_after := self' |}
        | (self', Ok ([], _)) => finish self' log'
        | (self', Ok (jobs, cursor')) =>
            scrape_loop fuel' fetch inp self' (job_list ++ jobs) cursor' log'
        end
        end
  end.

(** [Indeed.scrape] on the object [self]: the attributes set at the start
    of a run are the input, the country code and the base URL; every pass
    that goes on adds a URL to [seen_urls]. *)
Definition scrape (fetch : source) (self : instance) (inp : ScraperInput)
  : option outcome :=
  let self :=
    {| scraper_input := Some inp;
       seen_urls := seen_urls self;
       api_country_code := Some (snd (indeed_domain_value inp));
       base_url := Some (lit "https://" ++ fst (indeed_domain_value inp)
                         ++ lit ".indeed.com") |} in
  scrape_loop
    (S (Z.to_nat (results_wanted inp + offset inp - set_len (seen_urls self))))
    fetch inp self [] None [].

End Connector.

End Indeed.

(* ================================================================== *)
(** * Vocabulary of the properties *)
(* ================================================================== *)

(** The jobs a run hands back; a run that raised hands back none. *)
Definition returned (r : res JobResponse) : list JobPost :=
  match r with
  | Ok l => l
  | Raise _ => []
  end.

(** The identifiers of a list of postings. *)
Definition ids (l : list JobPost) : list str := List.map id l.

(** Every identifier of [l] is [tag] followed by a key that [known]
    accepts. *)
Definition tagged (tag : string) (known : str -> Prop) (l : list JobPost)
  : Prop :=
  forall jp, In jp l -> exists k, id jp = lit tag ++ k /\ known k.

(** The accumulated postings have distinct identifiers, each made of the
    tag and of a key recorded in [seen]. *)
Definition ids_ok (tag : string) (jl : list JobPost) (seen : str_set) : Prop :=
  NoDup (ids jl) /\ tagged tag (fun k => In k seen) jl.

(** The URL under which the posting with a given key is recorded. *)
Definition viewjob (base : str) (key : str) : str :=
  base ++ lit "/viewjob?jk=" ++ key.

(** The key of a posting is known when its URL is in the set. *)
Definition url_seen (base : str) (seen : str_set) (key : str) : Prop :=
  In (viewjob base key) seen.

(** The postings gathered so far: distinct identifiers, each one made of
    the tag and of a key whose URL is recorded. *)
Definition in_ok (base : str) (jl : list JobPost) (seen : str_set) : Prop :=
  NoDup (ids jl) /\ tagged "in-" (url_seen base seen) jl.

(** What holds of a finished Naukri run. *)
Definition nk_post (inp : ScraperInput) (o : Naukri.outcome) : Prop :=
  Forall (fun p => 1 <= p <= 50) (Naukri.fetched o)
  /\ (length (Naukri.fetched o) <= 50)%nat
  /\ Z.of_nat (length (returned (Naukri.result o)))
     <= Z.max 0 (results_wanted inp)
  /\ NoDup (ids (returned (Naukri.result o)))
  /\ tagged "nk-" (fun _ => True) (returned (Naukri.result o)).

(** What holds of a finished LinkedIn run. *)
Definition li_post (inp : ScraperInput) (o : LinkedIn.outcome) : Prop :=
  Forall (fun s => LinkedIn.first_start inp <= s < 1000) (LinkedIn.fetched o)
  /\ Z.of_nat (length (LinkedIn.fetched o))
     <= Z.max 0 (1000 - LinkedIn.first_start inp)
  /\ Z.of_nat (length (LinkedIn.result o)) <= Z.max 0 (results_wanted inp)
  /\ NoDup (ids (LinkedIn.result o))
  /\ tagged "li-" (fun _ => True) (LinkedIn.result o).

(** What holds of a finished Indeed run. *)
Definition in_post (inp : ScraperInput) (o : Indeed.outcome) : Prop :=
  Z.of_nat (length (returned (Indeed.result o)))
    <= Z.max 0 (results_wanted inp)
  /\ NoDup (ids (returned (Indeed.result o)))
  /\ tagged "in-" (fun _ => True) (returned (Indeed.result o)).

(** The salary placeholder of a Naukri record. *)
Definition salary_placeholder (label : string) : Naukri.placeholder :=
  {| Naukri.ptype := Some (lit "salary"); Naukri.plabel := Val (lit label) |}.

Definition inr (lo hi : Z) : Compensation :=
  {| interval := None; min_amount := Some lo; max_amount := Some hi;
     currency := lit "INR" |}.

(** The description line of the scenario. *)
Definition pay_line : str :=
  lit "Pay: " ++ [rupee] ++ lit "200,000.00 - " ++ [rupee]
  ++ lit "300,000.00 per year".


Definition cleaned (doc : dict) : dict :=
  List.map (fun kv => (fst kv, Server.clean_nan (snd kv))) doc.

(** A structured amount passes the truth test of the transform, after
    the NaN pass, when it is neither missing, [None], NaN nor zero. *)
Definition passes_truth_test (doc : dict) (k : string) : Prop :=
  truthy (Server.clean_nan (get doc (lit k))) = true.

(** A structured amount is given when the record holds a number for it,
    zero included: a value that is not missing, [None] or NaN. *)
Definition amount_given (doc : dict) (k : string) : Prop :=
  match Server.clean_nan (get doc (lit k)) with
  | PInt _ | PFloat _ _ => True
  | _ => False
  end.

(** The salary range built from the structured values alone. *)
Definition structured_range (doc : dict) : pyval :=
  PStr (py_str (get_default (cleaned doc) (lit "currency") (PStr (lit "INR")))
        ++ lit " " ++ py_str (get (cleaned doc) (lit "min_amount"))
        ++ lit " - " ++ py_str (get (cleaned doc) (lit "max_amount"))
        ++ lit " (" ++ py_str (get_default (cleaned doc) (lit "interval")
                                          (PStr (lit "yearly")))
        ++ lit ")").

(** A record with structured compensation whose description also names a
    salary. *)
Definition priced_record : dict :=
  [ (lit "title", PStr (lit "Software Engineer"));
    (lit "description", PStr (lit "CTC: 10-15 lakhs. Build services."));
    (lit "min_amount", PFloat true (lit "500000.0"));
    (lit "max_amount", PFloat true (lit "800000.0"));
    (lit "currency", PStr (lit "INR"));
    (lit "interval", PStr (lit "yearly")) ].

(** A record whose structured compensation starts at zero, as the Naukri
    extractor builds it from "0-3 Lacs P.A.", and whose description names
    another salary. *)
Definition zero_minimum_record : dict :=
  [ (lit "title", PStr (lit "Software Engineer"));
    (lit "description", PStr (lit "CTC: 10-15 lakhs. Build services."));
    (lit "min_amount", PFloat false (lit "0.0"));
    (lit "max_amount", PFloat true (lit "300000.0"));
    (lit "currency", PStr (lit "INR")) ].

(** The answers of the employer sites in a run where the Amazon search
    comes back with two postings and the other boards with none. *)
Definition amazon_posting (title path : string) : CompanyCareers.amazon_job :=
  {| CompanyCareers.a_title := Some (lit title);
     CompanyCareers.a_description_short := Some (lit "Build services.");
     CompanyCareers.a_basic_qualifications := None;
     CompanyCareers.a_normalized_location := Val (lit "Bengaluru, KA, IND");
     CompanyCareers.a_city := Val (lit "Bengaluru");
     CompanyCareers.a_job_path := Val (lit path);
     CompanyCareers.a_posted_date := Some (lit "January 5, 2026") |}.

Definition two_amazon_postings : CompanyCareers.sites :=
  {| CompanyCareers.amazon :=
       CompanyCareers.Http true
         (Ok [ amazon_posting "Software Engineer" "/en/jobs/1";
               amazon_posting "Software Engineer II" "/en/jobs/2" ]);
     CompanyCareers.gitlab := CompanyCareers.Http true (Ok []);
     CompanyCareers.pinterest := CompanyCareers.Http true (Ok []);
     CompanyCareers.phonepe := CompanyCareers.Http true (Ok []);
     CompanyCareers.razorpay := CompanyCareers.Http true (Ok []);
     CompanyCareers.flipkart := CompanyCareers.Http true (Ok []) |}.

(** A board search that comes back with a single row. *)
Definition one_board_row (_ _ : str) (_ _ : Z) : list dict :=
  [ [ (lit "title", PStr (lit "Software Engineer"));
      (lit "company", PStr (lit "Acme"));
      (lit "job_url", PStr (lit "https://www.naukri.com/job/77"));
      (lit "site", PStr (lit "naukri")) ] ].

Definition all_six : list CompanyCareers.company :=
  [ CompanyCareers.Amazon; CompanyCareers.GitLab; CompanyCareers.Pinterest;
    CompanyCareers.PhonePe; CompanyCareers.Razorpay; CompanyCareers.Flipkart ].

Definition query (term : string) (wanted : Z) : ScraperInput :=
  {| search_term := Some (lit term);
     search_location := Some (lit "Gurugram, Haryana");
     results_wanted := wanted;
     offset := 0;
     hours_old := Some 96;
     wanted_job_type := None;
     is_remote := false;
     description_format := MARKDOWN;
     linkedin_fetch_description := false;
     indeed_domain_value := (lit "in", lit "IN") |}.

Module Examples.

(** Stand-ins for the functions the connectors take from outside. *)
Definition markdown (s : str) : str := s.
Definition no_job_type (_ : str) : option JobType := None.
Definition published (_ : Z) : res str := Ok (lit "2023-11-14").
Definition no_amount (_ : str) : res Z := Raise ValueError.
Definition int_of (z : Z) : res Z := Ok z.
Definition no_date (_ : str) : res date := Raise ValueError.
Definition no_page (_ : str) : option str := None.
Definition utc_date (ms : Z) : res date := Ok (719163 + ms / 86400000).

Definition indeed_scrape :=
  Indeed.scrape ascii_lower ascii_upper no_job_type markdown published.
Definition linkedin_scrape :=
  LinkedIn.scrape Z no_amount int_of no_date markdown no_page.
Definition naukri_scrape :=
  Naukri.scrape ascii_lower markdown 739000 utc_date.

Definition indeed_job (k : str) : Indeed.job :=
  {| Indeed.key := k;
     Indeed.jtitle := lit "Software Engineer";
     Indeed.description_html := lit "<p>Build services.</p>";
     Indeed.attributes := Val [lit "Full-time"];
     Indeed.datePublished := 1700000000000;
     Indeed.jlocation :=
       Val {| Indeed.loc_city := Some (lit "Gurugram");
              Indeed.loc_admin1Code := Some (lit "HR");
              Indeed.loc_countryCode := Some (lit "IN") |};
     Indeed.employer_name := Some (lit "Acme");
     Indeed.jcompensation := None |}.

Definition linkedin_card (k : str) : LinkedIn.job_card :=
  {| LinkedIn.href :=
       Some (lit "https://in.linkedin.com/jobs/view/software-engineer-at-acme-"
             ++ k ++ lit "?position=1");
     LinkedIn.salary_info := None;
     LinkedIn.sr_only := Some (lit "Software Engineer");
     LinkedIn.subtitle := Some (lit "Acme");
     LinkedIn.card_location := Some (lit "Gurugram, Haryana, India");
     LinkedIn.listdate := Some (lit "2023-11-14") |}.

Definition naukri_job (k : str) : Naukri.job :=
  {| Naukri.jobId := Some k;
     Naukri.jtitle := Val (lit "Software Engineer");
     Naukri.companyName := Val (lit "Acme");
     Naukri.placeholders :=
       Val [ {| Naukri.ptype := Some (lit "salary");
                Naukri.plabel := Val (lit "12-16 Lacs P.A.") |};
             {| Naukri.ptype := Some (lit "location");
                Naukri.plabel := Val (lit "Gurugram, Haryana") |} ];
     Naukri.footerPlaceholderLabel := Some (lit "3 Days Ago");
     Naukri.createdDate := Some 1700000000000;
     Naukri.jdURL := Absent;
     Naukri.jobDescription := Some (lit "Build services.") |}.

(** An Indeed source with a single page, holding the posting [a1]. *)
Definition indeed_one_page : Indeed.source :=
  fun _ _ =>
    Indeed.Http true
      (Ok {| Indeed.results := [indeed_job (lit "a1")];
             Indeed.nextCursor := None |}).

(** Sources whose first request succeeds with one posting and whose second
    request fails in the transport. *)
Definition indeed_then_failure : Indeed.source :=
  fun n _ =>
    match n with
    | O => Indeed.Http true
             (Ok {| Indeed.results := [indeed_job (lit "a1")];
                    Indeed.nextCursor := Some (lit "c1") |})
    | _ => Indeed.Raised TransportError
    end.

Definition linkedin_then_failure : LinkedIn.source :=
  fun n _ =>
    match n with
    | O => LinkedIn.Http 200 [linkedin_card (lit "3801")]
    | _ => LinkedIn.Raised TransportError
    end.

Definition naukri_then_failure : Naukri.source :=
  fun n _ =>
    match n with
    | O => Naukri.Http 200 (Ok [naukri_job (lit "77")])
    | _ => Naukri.Raised TransportError
    end.

(** The same, with a server error in place of the transport failure. *)
Definition indeed_then_bad_status : Indeed.source :=
  fun n _ =>
    match n with
    | O => Indeed.Http true
             (Ok {| Indeed.results := [indeed_job (lit "a1")];
                    Indeed.nextCursor := Some (lit "c1") |})
    | _ => Indeed.Http false (Raise DecodeError)
    end.

(** Sources that never run dry: every page brings postings not seen
    before. *)
Definition linkedin_endless : LinkedIn.source :=
  fun _ start =>
    LinkedIn.Http 200
      (List.map (fun i => linkedin_card (str_of_Z (start + Z.of_nat i)))
                (seq 0 25)).

Definition naukri_endless : Naukri.source :=
  fun _ page => Naukri.Http 200 (Ok [naukri_job (str_of_Z page)]).

Definition indeed_endless : Indeed.source :=
  fun n _ =>
    Indeed.Http true
      (Ok {| Indeed.results := [indeed_job (str_of_Z (Z.of_nat n))];
             Indeed.nextCursor := Some (str_of_Z (Z.of_nat n)) |}).

End Examples.

Import Examples.

(* ------------------------------------------------------------------ *)
(** ** Traces of requests *)

(** [chain next n a l]: the requests [l], of which the first is numbered
    [n], start with [a], and each one after the first is what [next] makes
    of the request before it. *)
Fixpoint chain {A : Type} (next : nat -> A -> option A) (n : nat) (a : A)
         (l : list A) : Prop :=
  match l with
  | [] => True
  | x :: rest =>
      x = a
      /\ (rest = []
          \/ exists a', next n a = Some a' /\ chain next (S n) a' rest)
  end.

(** The offset the LinkedIn loop can go on with after request [n] for
    the offset [start]: the response has to be there, with a status from
    200 to 399 and at least one card. *)
Definition li_next (fetch : LinkedIn.source) (n : nat) (start : Z)
  : option Z :=
  match fetch n start with
  | LinkedIn.Http status_code ((_ :: _) as job_cards) =>
      if LinkedIn.status_ok status_code
      then Some (start + Z.of_nat (length job_cards)) else None
  | _ => None
  end.

(** The page the Naukri loop can go on with after request [n] for [page]:
    the response has to be there, with a status from 200 to 399 and a
    decoded, non-empty ["jobDetails"]. *)
Definition nk_next (fetch : Naukri.source) (n : nat) (page : Z) : option Z :=
  match fetch n page with
  | Naukri.Http status_code (Ok (_ :: _)) =>
      if Naukri.status_ok status_code then Some (page + 1) else None
  | _ => None
  end.

(** The cursor the Indeed loop can go on with after request [n] made with
    [cursor]: the response has to be [ok], decoded and with results. *)
Definition in_next (fetch : Indeed.source) (n : nat) (cursor : option str)
  : option (option str) :=
  match fetch n cursor with
  | Indeed.Http true (Ok data) =>
      match Indeed.results data with
      | [] => None
      | _ :: _ => Some (Indeed.nextCursor data)
      end
  | _ => None
  end.

(** The postings of [jl] have URLs that are in [seen] and were not in
    [seen0]. *)
Definition urls_new (seen0 seen : str_set) (jl : list JobPost) : Prop :=
  Forall (fun jp => ~ In (job_url jp) seen0 /\ In (job_url jp) seen) jl.

(** A query for temporary jobs without a recency window. *)
Definition temporary_query : ScraperInput :=
  {| search_term := Some (lit "software engineer");
     search_location := Some (lit "Gurugram, Haryana");
     results_wanted := 5;
     offset := 0;
     hours_old := None;
     wanted_job_type := Some TEMPORARY;
     is_remote := false;
     description_format := MARKDOWN;
     linkedin_fetch_description := false;
     indeed_domain_value := (lit "in", lit "IN") |}.

(** A query without a search term. *)
Definition termless_query : ScraperInput :=
  {| search_term := None;
     search_location := Some (lit "Gurugram, Haryana");
     results_wanted := 5;
     offset := 0;
     hours_old := None;
     wanted_job_type := None;
     is_remote := false;
     description_format := MARKDOWN;
     linkedin_fetch_description := false;
     indeed_domain_value := (lit "in", lit "IN") |}.

(* ------------------------------------------------------------------ *)
(** ** Sample records for the field extractors *)

(** An Indeed compensation object: a yearly base salary and no currency
    code anywhere. *)
Definition yearly_salary : Indeed.compensation_data :=
  {| Indeed.baseSalary :=
       Some {| Indeed.unitOfWork := Some (lit "YEAR");
               Indeed.range :=
                 Val {| Indeed.range_min := Some 500000;
                        Indeed.range_max := Some 800000 |} |};
     Indeed.estimated := Absent;
     Indeed.currencyCode := None |}.

(** A Naukri placeholder of another type than salary. *)
Definition experience_placeholder : Naukri.placeholder :=
  {| Naukri.ptype := Some (lit "experience");
     Naukri.plabel := Val (lit "2-5 Yrs") |}.

(** Whether a placeholder is the salary one. *)
Definition is_salary (p : Naukri.placeholder) : bool :=
  opt_eqb (Naukri.ptype p) (lit "salary").

(* ------------------------------------------------------------------ *)
(** ** Employer postings *)

(** The text of a title as the filters read it: [job.get("title", "")]. *)
Definition title_text (v : pyval) : str :=
  match v with
  | PStr t => t
  | _ => []
  end.

(** What every posting of an employer connector satisfies: at most 500
    characters of description, at most 200 of short description, and no
    salary range. *)
Definition posting_bounded (p : CompanyCareers.posting) : Prop :=
  (length (CompanyCareers.description p) <= 500)%nat
  /\ (length (CompanyCareers.short_description p) <= 200)%nat
  /\ CompanyCareers.salary_range p = PNone.

(** The employer connectors in the reverse of their listing order. *)
Definition all_six_reversed : list CompanyCareers.company := rev all_six.

(* ------------------------------------------------------------------ *)
(** ** The shape of the postings a connector returns *)

(** A LinkedIn posting: the identifier and the URL are built from one job
    id, free of dashes and question marks; the company and the country are
    set. *)
Definition linkedin_shaped (jp : JobPost) : Prop :=
  exists k,
    id jp = lit "li-" ++ k
    /\ job_url jp = LinkedIn.base_url ++ lit "/jobs/view/" ++ k
    /\ ~ In 45%N k /\ ~ In 63%N k
    /\ company_name jp <> None
    /\ country (location jp) <> None.




(* ================================================================== *)
(** * Properties: field extractors *)
(* ================================================================== *)

(** C5.  On the placeholder text "12-16 Lacs P.A." the Naukri compensation
    extractor returns a minimum of 1200000, a maximum of 1600000 and the
    currency INR: an amount in lakhs is multiplied by 100,000, one in
    crores by 10,000,000, also when it has a fractional part. *)
Theorem naukri_lakhs_to_rupees :
  Naukri._get_compensation ascii_lower [salary_placeholder "12-16 Lacs P.A."]
    = Ok (Some (inr 1200000 1600000))
  /\ Naukri._get_compensation ascii_lower [salary_placeholder "3-5 Lakh"]
    = Ok (Some (inr 300000 500000))
  /\ Naukri._get_compensation ascii_lower [salary_placeholder "2.5-4.25 Lacs P.A."]
    = Ok (Some (inr 250000 425000))
  /\ Naukri._get_compensation ascii_lower [salary_placeholder "1-2 Cr P.A."]
    = Ok (Some (inr 10000000 20000000)).
Proof. repeat split; vm_compute; reflexivity. Qed.


Lemma pay_line_groups :
  exists m,
    re_search true Server.pay_pattern pay_line = Some m
    /\ group m 1 = Some (lit "200,000.00")
    /\ group m 2 = Some (lit "300,000.00")
    /\ group m 3 = Some (lit "year").
Proof. eexists; repeat split; vm_compute; reflexivity. Qed.

Ltac lit_neq := intros; try (vm_compute in *; congruence).

(** C10.  [map_job_type] is total and three-valued: whatever it is given,
    it answers "Internship" exactly when the value is true-ish and its
    lower-cased text contains "intern", "Contract" exactly when that fails
    and the text contains "contract" or "temporary", and "Full-time" in
    every other case, which covers [None], the empty text and any label it
    does not know. *)
Theorem map_job_type_three_valued :
  forall (lower : str -> str) (v : pyval),
    let r := Server.map_job_type lower v in
    let s := lower (py_str v) in
    (r = lit "Internship" \/ r = lit "Contract" \/ r = lit "Full-time")
    /\ (r = lit "Internship" <->
        truthy v = true /\ contains (lit "intern") s = true)
    /\ (r = lit "Contract" <->
        truthy v = true /\ contains (lit "intern") s = false
        /\ (contains (lit "contract") s = true
            \/ contains (lit "temporary") s = true))
    /\ (r = lit "Full-time" <->
        truthy v = false
        \/ (contains (lit "intern") s = false
            /\ contains (lit "contract") s = false
            /\ contains (lit "temporary") s = false)).
Proof.
  intros lower v r s. subst r s. unfold Server.map_job_type.
  destruct (truthy v); simpl negb; cbv iota.
  2:{ repeat split; lit_neq; intuition (try discriminate); auto. }
  destruct (contains (lit "intern") (lower (py_str v))); cbv iota.
  { repeat split; lit_neq; intuition (try discriminate); auto. }
  destruct (contains (lit "contract") (lower (py_str v)));
    destruct (contains (lit "temporary") (lower (py_str v)));
    simpl orb; cbv iota;
    repeat split; lit_neq; intuition (try discriminate); auto.
Qed.

Lemma map_job_type_unknown :
  forall lower : str -> str,
    Server.map_job_type lower PNone = lit "Full-time"
    /\ Server.map_job_type lower (PStr []) = lit "Full-time"
    /\ Server.map_job_type ascii_lower (PStr (lit "Volunteer")) = lit "Full-time".
Proof. intros; repeat split. Qed.

(* ------------------------------------------------------------------ *)
(** ** Naukri: dates *)

(** With neither label nor creation timestamp there is no date, and a
    missing label leaves the timestamp to decide. *)
Lemma parse_date_without_label :
  forall lower today fromts,
    Naukri._parse_date lower today fromts None None = Ok None
    /\ Naukri._parse_date lower today fromts (Some []) None = Ok None
    /\ Naukri._parse_date lower today fromts None (Some 0) = Ok None
    /\ forall c, c <> 0 ->
         Naukri._parse_date lower today fromts None (Some c)
           = Naukri.of_timestamp fromts c.
Proof.
  intros. repeat split. intros c Hc. unfold Naukri._parse_date.
  destruct (Z.eqb_spec c 0); [contradiction | reflexivity].
Qed.

(** A label that holds none of the words the parser looks for falls back
    to the creation timestamp. *)
Lemma parse_date_falls_back :
  forall lower today fromts l c,
    l <> [] -> c <> 0 ->
    contains (lit "today") (lower l) = false ->
    contains (lit "just now") (lower l) = false ->
    contains (lit "few hours") (lower l) = false ->
    contains (lit "ago") (lower l) = false ->
    Naukri._parse_date lower today fromts (Some l) (Some c)
      = Naukri.of_timestamp fromts c.
Proof.
  intros lower today fromts l c Hl Hc H1 H2 H3 H4.
  unfold Naukri._parse_date. destruct l as [|x l']; [congruence|].
  rewrite H1, H2, H3, H4. simpl orb. cbv iota.
  destruct (Z.eqb_spec c 0); [contradiction | reflexivity].
Qed.

(** C8.  The label "2 weeks ago" is present and gives no day count; the
    record has a creation timestamp, which on its own yields a date; yet the
    parsed date is [None]: once "ago" occurs in the label the timestamp is
    not looked at. *)
Theorem parse_date_ago_label_ignores_timestamp :
  forall (today : date) (fromts : Z -> res date),
    Naukri._parse_date ascii_lower today fromts
      (Some (lit "2 weeks ago")) (Some 1700000000000) = Ok None
    /\ Naukri._parse_date ascii_lower today fromts
         None (Some 1700000000000)
       = Naukri.of_timestamp fromts 1700000000000.
Proof. intros; split; vm_compute; reflexivity. Qed.

Lemma parse_date_days_ago :
  forall fromts,
    Naukri._parse_date ascii_lower 739000 fromts
      (Some (lit "3 Days Ago")) (Some 1700000000000) = Ok (Some 738997).
Proof. intros; vm_compute; reflexivity. Qed.

(* ------------------------------------------------------------------ *)
(** ** server.py: normalization *)

Lemma clean_nan_idempotent :
  forall v, Server.clean_nan (Server.clean_nan v) = Server.clean_nan v.
Proof. destruct v; reflexivity. Qed.

Lemma cleaned_idempotent : forall doc, cleaned (cleaned doc) = cleaned doc.
Proof.
  intros doc. unfold cleaned. rewrite map_map. apply map_ext.
  intros [k v]; simpl. now rewrite clean_nan_idempotent.
Qed.

Lemma get_default_cleaned :
  forall doc k d,
    (forall v, d = v -> Server.clean_nan v = v) ->
    get_default (cleaned doc) k d = Server.clean_nan (get_default doc k d).
Proof.
  intros doc k d Hd. induction doc as [|[k' v] t IH]; simpl.
  - symmetry; now apply Hd.
  - destruct (PyStr.eqb k' k); [reflexivity | exact IH].
Qed.

Lemma get_cleaned :
  forall doc k, get (cleaned doc) k = Server.clean_nan (get doc k).
Proof.
  intros. unfold get. apply get_default_cleaned. now intros v <-.
Qed.

Lemma transform_doc_after :
  forall lower capitalize doc,
    fst (Server.transform_jobspy_to_schema lower capitalize doc) = cleaned doc.
Proof. reflexivity. Qed.

Lemma transform_again :
  forall lower capitalize doc,
    Server.transform_jobspy_to_schema lower capitalize (cleaned doc)
    = Server.transform_jobspy_to_schema lower capitalize doc.
Proof.
  intros. unfold Server.transform_jobspy_to_schema.
  fold (cleaned doc). fold (cleaned (cleaned doc)).
  now rewrite cleaned_idempotent.
Qed.

Lemma eqb_eq : forall a b : str, PyStr.eqb a b = true <-> a = b.
Proof.
  intros a b. unfold PyStr.eqb.
  destruct (list_eq_dec N.eq_dec a b); split; congruence.
Qed.

Lemma get_default_set_item_other :
  forall doc k v k' d,
    k <> k' ->
    get_default (cleaned (set_item doc k v)) k' d
    = get_default (cleaned doc) k' d.
Proof.
  intros doc k v k' d Hneq. induction doc as [|[k0 v0] t IH]; simpl.
  - destruct (PyStr.eqb k k') eqn:E; [|reflexivity].
    apply eqb_eq in E. contradiction.
  - destruct (PyStr.eqb k0 k) eqn:E0; simpl.
    + apply eqb_eq in E0. subst k0.
      destruct (PyStr.eqb k k') eqn:E; [|reflexivity].
      apply eqb_eq in E. contradiction.
    + destruct (PyStr.eqb k0 k'); [reflexivity | exact IH].
Qed.

Lemma salary_range_structured :
  forall lower capitalize doc,
    passes_truth_test doc "min_amount" -> passes_truth_test doc "max_amount" ->
    Server.salary_range
      (snd (Server.transform_jobspy_to_schema lower capitalize doc))
    = structured_range doc.
Proof.
  intros lower capitalize doc Hmin Hmax.
  unfold Server.transform_jobspy_to_schema. fold (cleaned doc).
  cbn [snd Server.salary_range].
  unfold passes_truth_test in Hmin, Hmax. rewrite <- get_cleaned in Hmin, Hmax.
  rewrite Hmin, Hmax. reflexivity.
Qed.

Ltac other_key := intros E; vm_compute in E; congruence.

Lemma structured_range_ignores_description :
  forall doc d,
    structured_range (set_item doc (lit "description") d)
    = structured_range doc.
Proof.
  intros doc d. unfold structured_range, get.
  rewrite !get_default_set_item_other by other_key. reflexivity.
Qed.

Lemma truth_test_with_description :
  forall doc d k,
    lit "description" <> lit k ->
    passes_truth_test doc k -> passes_truth_test (set_item doc (lit "description") d) k.
Proof.
  intros doc d k Hk H. unfold passes_truth_test in *.
  rewrite <- get_cleaned in *. unfold get in *.
  now rewrite get_default_set_item_other.
Qed.

(** C7, as stated, fails.  A record that holds the structured amounts 0
    and 300000 does not get its salary range from them: zero fails the
    truth test of the transform, which then asks the free-text extractor. *)
Lemma zero_minimum_consults_description :
  ~ (forall (lower capitalize : str -> str) (doc : dict),
       amount_given doc "min_amount" -> amount_given doc "max_amount" ->
       Server.salary_range
         (snd (Server.transform_jobspy_to_schema lower capitalize doc))
       = structured_range doc).
Proof.
  intros H.
  specialize (H ascii_lower ascii_capitalize zero_minimum_record I I).
  vm_compute in H. discriminate H.
Qed.

(** Such a record comes out of the Naukri extractor, and its salary range
    follows the description. *)
Lemma zero_minimum_range_follows_description :
  Naukri._get_compensation ascii_lower [salary_placeholder "0-3 Lacs P.A."]
    = Ok (Some (inr 0 300000))
  /\ Server.salary_range
       (snd (Server.transform_jobspy_to_schema ascii_lower ascii_capitalize
               zero_minimum_record))
     = PStr ([rupee] ++ lit "10 - 15 LPA")
  /\ Server.salary_range
       (snd (Server.transform_jobspy_to_schema ascii_lower ascii_capitalize
               (set_item zero_minimum_record (lit "description")
                         (PStr (lit "Salary: 20 LPA")))))
     = PStr ([rupee] ++ lit "20 LPA").
Proof. repeat split; vm_compute; reflexivity. Qed.

(** C7, amended.  When [min_amount] and [max_amount] both pass the truth
    test of the transform, that is when neither is missing, [None], NaN or
    zero, the salary range of the transformed record is the text built
    from the structured values; it is the same whatever the description
    says, so the free-text extractor has no part in it; and running the
    transform again on the record, as the first run left it, gives the
    same result. *)
Theorem structured_compensation_kept :
  forall (lower capitalize : str -> str) (doc : dict),
    passes_truth_test doc "min_amount" -> passes_truth_test doc "max_amount" ->
    let first := Server.transform_jobspy_to_schema lower capitalize doc in
    let second :=
      Server.transform_jobspy_to_schema lower capitalize (fst first) in
    Server.salary_range (snd first) = structured_range doc
    /\ (forall d,
          Server.salary_range
            (snd (Server.transform_jobspy_to_schema lower capitalize
                    (set_item doc (lit "description") d)))
          = Server.salary_range (snd first))
    /\ Server.salary_range (snd second) = Server.salary_range (snd first)
    /\ second = first.
Proof.
  intros lower capitalize doc Hmin Hmax first second.
  assert (Hsecond : second = first).
  { subst second first. rewrite transform_doc_after. apply transform_again. }
  assert (Hfirst : Server.salary_range (snd first) = structured_range doc).
  { now apply salary_range_structured. }
  split; [exact Hfirst|]. split; [|split; [now rewrite Hsecond | exact Hsecond]].
  intros d. rewrite Hfirst. rewrite salary_range_structured.
  - apply structured_range_ignores_description.
  - apply truth_test_with_description; [other_key | exact Hmin].
  - apply truth_test_with_description; [other_key | exact Hmax].
Qed.

Lemma structured_compensation_kept_witness :
  passes_truth_test priced_record "min_amount" /\ passes_truth_test priced_record "max_amount"
  /\ Server.salary_range
       (snd (Server.transform_jobspy_to_schema ascii_lower ascii_capitalize
               priced_record))
     = PStr (lit "INR 500000.0 - 800000.0 (yearly)").
Proof.
  split; [reflexivity|]. split; [reflexivity|].
  destruct (structured_compensation_kept ascii_lower ascii_capitalize
              priced_record eq_refl eq_refl) as [H _].
  rewrite H. reflexivity.
Defined.

(* ================================================================== *)
(** * Properties: sets, slices and identifiers *)
(* ================================================================== *)

Lemma set_mem_In : forall x s, set_mem x s = true <-> In x s.
Proof.
  intros x s. unfold set_mem. rewrite existsb_exists. split.
  - intros (y & Hy & E). apply eqb_eq in E. now subst.
  - intros H. exists x. split; [exact H | now apply eqb_eq].
Qed.

Lemma set_mem_false : forall x s, set_mem x s = false <-> ~ In x s.
Proof.
  intros x s. rewrite <- set_mem_In. destruct (set_mem x s); split; congruence.
Qed.

Lemma set_add_In : forall x y s, In y (set_add x s) <-> y = x \/ In y s.
Proof.
  intros x y s. unfold set_add. destruct (set_mem x s) eqn:E; simpl.
  - apply set_mem_In in E. split; [tauto | intros [->|H]; assumption].
  - split; intros [H|H]; auto.
Qed.

Lemma set_add_new_len :
  forall x s, set_mem x s = false -> set_len (set_add x s) = set_len s + 1.
Proof.
  intros x s E. unfold set_add, set_len. rewrite E. simpl length. lia.
Qed.

Lemma In_firstn : forall A n (l : list A) x, In x (firstn n l) -> In x l.
Proof.
  intros A n l x H. rewrite <- (firstn_skipn n l). apply in_or_app. now left.
Qed.

Lemma In_skipn : forall A n (l : list A) x, In x (skipn n l) -> In x l.
Proof.
  intros A n l x H. rewrite <- (firstn_skipn n l). apply in_or_app. now right.
Qed.

Lemma slice_incl : forall A (l : list A) i j x, In x (slice l i j) -> In x l.
Proof.
  intros A l i j x H. unfold slice in H.
  apply In_firstn in H. now apply In_skipn in H.
Qed.

Lemma NoDup_firstn : forall A n (l : list A), NoDup l -> NoDup (firstn n l).
Proof.
  intros A n l H. revert n. induction H as [|x l Hx Hl IH]; intros [|n]; simpl;
    try constructor; auto.
  intros Hin. apply Hx. now apply In_firstn in Hin.
Qed.

Lemma NoDup_skipn : forall A n (l : list A), NoDup l -> NoDup (skipn n l).
Proof.
  intros A n l H. revert n. induction H as [|x l Hx Hl IH]; intros [|n]; simpl;
    try constructor; auto.
Qed.

Lemma NoDup_map_slice :
  forall A B (f : A -> B) (l : list A) i j,
    NoDup (List.map f l) -> NoDup (List.map f (slice l i j)).
Proof.
  intros A B f l i j H. unfold slice.
  rewrite <- firstn_map, <- skipn_map.
  now apply NoDup_firstn, NoDup_skipn.
Qed.

Lemma slice_length_le :
  forall A (l : list A) i j, (length (slice l i j) <= length l)%nat.
Proof.
  intros. unfold slice. rewrite length_firstn, length_skipn. lia.
Qed.

(** [l[i : i + n]] holds at most [n] elements when [n] is not negative, and
    none when [n] is negative and [i + n] is positive. *)
Lemma slice_window :
  forall A (l : list A) i n,
    0 <= n \/ 0 < i + n ->
    Z.of_nat (length (slice l i (i + n))) <= Z.max 0 n.
Proof.
  intros A l i n H. unfold slice, clamp_index.
  rewrite length_firstn, length_skipn.
  destruct (Z.ltb_spec i 0), (Z.ltb_spec (i + n) 0); lia.
Qed.

Lemma slice_to_window :
  forall A (l : list A) n,
    Z.of_nat (length l) <= Z.max 0 n ->
    Z.of_nat (length (slice_to l n)) <= Z.max 0 n.
Proof.
  intros A l n H. unfold slice_to.
  pose proof (slice_length_le A l 0 n). lia.
Qed.

Lemma tagged_nil : forall tag known, tagged tag known [].
Proof. intros tag known jp []. Qed.

Lemma tagged_weaken :
  forall tag (P Q : str -> Prop) l,
    (forall k, P k -> Q k) -> tagged tag P l -> tagged tag Q l.
Proof.
  intros tag P Q l HPQ H jp Hin. destruct (H jp Hin) as (k & E & Hk).
  exists k; auto.
Qed.

Lemma tagged_app :
  forall tag known l1 l2,
    tagged tag known l1 -> tagged tag known l2 -> tagged tag known (l1 ++ l2).
Proof.
  intros tag known l1 l2 H1 H2 jp Hin. apply in_app_or in Hin.
  destruct Hin; auto.
Qed.

Lemma tagged_slice :
  forall tag known l i j,
    tagged tag known l -> tagged tag known (slice l i j).
Proof.
  intros tag known l i j H jp Hin. apply H. eapply slice_incl; eauto.
Qed.

(** Appending a posting whose key is new keeps the identifiers distinct. *)
Lemma ids_snoc_fresh :
  forall tag (known : str -> Prop) l jp k,
    NoDup (ids l) -> tagged tag known l ->
    id jp = lit tag ++ k -> ~ known k ->
    NoDup (ids (l ++ [jp])).
Proof.
  intros tag known l jp k Hnd Htag Hid Hnew. unfold ids in *.
  rewrite map_app. simpl. apply NoDup_app; [exact Hnd | |].
  - constructor; [intros [] | constructor].
  - intros a Hin [<- | []]. apply in_map_iff in Hin.
    destruct Hin as (jp' & E & Hin').
    destruct (Htag jp' Hin') as (k' & E' & Hk').
    rewrite Hid, E' in E. apply app_inv_head in E. subst k'. contradiction.
Qed.

(* ================================================================== *)
(** * Properties: the Naukri run *)
(* ================================================================== *)

Lemma bind_Ok :
  forall A B (m : res A) (f : A -> res B) (b : B),
    bind m f = Ok b -> exists a, m = Ok a /\ f a = Ok b.
Proof.
  intros A B m f b H. destruct m as [a|e]; [|discriminate].
  exists a. split; [reflexivity | exact H].
Qed.

(** Takes a chain of binds that returned apart, one step after the
    other. *)
Ltac bind_ok H :=
  cbv zeta in H;
  repeat (let a := fresh "a" in
          let E := fresh "E" in
          apply bind_Ok in H; destruct H as (a & E & H); cbv beta in H).

Section NaukriRun.

Variable lower : str -> str.
Variable markdown_converter : str -> str.
Variable today : date.
Variable fromtimestamp_date : Z -> res date.
Variable fetch : Naukri.source.
Variable inp : ScraperInput.

Let nk_process_job :=
  Naukri._process_job lower markdown_converter today fromtimestamp_date inp.
Let nk_process_page :=
  Naukri.process_page lower markdown_converter today fromtimestamp_date inp.
Let nk_loop :=
  Naukri.scrape_loop lower markdown_converter today fromtimestamp_date.

Lemma nk_process_job_id :
  forall j job_id jp,
    nk_process_job j job_id = Ok jp -> id jp = lit "nk-" ++ job_id.
Proof.
  intros j job_id jp H. unfold nk_process_job, Naukri._process_job in H.
  bind_ok H. inversion H. reflexivity.
Qed.

Lemma ids_ok_add :
  forall tag jl seen jp k,
    ids_ok tag jl seen -> id jp = lit tag ++ k -> set_mem k seen = false ->
    ids_ok tag (jl ++ [jp]) (set_add k seen).
Proof.
  intros tag jl seen jp k [Hnd Htag] Hid Hnew. split.
  - eapply ids_snoc_fresh; eauto. now apply set_mem_false.
  - apply tagged_app.
    + eapply tagged_weaken; [|exact Htag]. intros k' Hk'.
      apply set_add_In. now right.
    + intros jp' [<- | []]. exists k. split; [exact Hid|].
      apply set_add_In. now left.
Qed.

Lemma nk_continue_length :
  forall jl page,
    Naukri.continue_search inp jl page = true ->
    Z.of_nat (length jl) < results_wanted inp /\ page <= 50.
Proof.
  intros jl page H. unfold Naukri.continue_search in H.
  apply andb_prop in H. destruct H as [H1 H2].
  apply Z.ltb_lt in H1. apply Z.leb_le in H2. auto.
Qed.

Lemma nk_process_page_spec :
  forall page details jl seen jl' seen',
    nk_process_page page details jl seen = Ok (jl', seen') ->
    Naukri.continue_search inp jl page = true ->
    ids_ok "nk-" jl seen ->
    Z.of_nat (length jl') <= results_wanted inp /\ ids_ok "nk-" jl' seen'.
Proof.
  intros page details. unfold nk_process_page.
  induction details as [|j rest IH]; intros jl seen jl' seen' Hrun Hcs Hok;
    simpl in Hrun.
  - inversion Hrun; subst. split; [|exact Hok].
    apply nk_continue_length in Hcs. lia.
  - destruct (Naukri.jobId j) as [[|c job_id]|] eqn:Ej;
      try (eapply IH; eassumption).
    destruct (set_mem (c :: job_id) seen) eqn:Emem;
      [eapply IH; eassumption|].
    fold nk_process_job in Hrun.
    destruct (nk_process_job j (c :: job_id)) as [jp|e] eqn:Ejp;
      simpl in Hrun; [|discriminate].
    assert (Hok' : ids_ok "nk-" (jl ++ [jp]) (set_add (c :: job_id) seen)).
    { apply ids_ok_add; auto. eapply nk_process_job_id; eauto. }
    destruct (Naukri.continue_search inp (jl ++ [jp]) page) eqn:Ecs';
      simpl in Hrun.
    + eapply IH; eassumption.
    + inversion Hrun; subst. split; [|exact Hok'].
      apply nk_continue_length in Hcs. rewrite length_app. simpl. lia.
Qed.

Lemma nk_post_jobs :
  forall log jl seen,
    Forall (fun p => 1 <= p <= 50) log -> (length log <= 50)%nat ->
    Z.of_nat (length jl) <= Z.max 0 (results_wanted inp) ->
    ids_ok "nk-" jl seen ->
    nk_post inp {| Naukri.fetched := log; Naukri.result := Ok jl |}
    /\ nk_post inp {| Naukri.fetched := log;
                  Naukri.result := Ok (slice_to jl (results_wanted inp)) |}.
Proof.
  intros log jl seen Hlog Hlen Hjl [Hnd Htag].
  assert (Htag' : tagged "nk-" (fun _ => True) jl).
  { eapply tagged_weaken; [|exact Htag]. auto. }
  split; repeat split; simpl; auto.
  - now apply slice_to_window.
  - now apply NoDup_map_slice.
  - now apply tagged_slice.
Qed.

Lemma nk_post_raise :
  forall log e,
    Forall (fun p => 1 <= p <= 50) log -> (length log <= 50)%nat ->
    nk_post inp {| Naukri.fetched := log; Naukri.result := Raise e |}.
Proof.
  intros log e Hlog Hlen. repeat split; simpl; auto; try lia.
  - constructor.
  - apply tagged_nil.
Qed.

Lemma nk_loop_spec :
  forall fuel jl seen page log,
    1 <= page ->
    Z.of_nat (length jl) <= Z.max 0 (results_wanted inp) ->
    ids_ok "nk-" jl seen ->
    Forall (fun p => 1 <= p <= 50) log ->
    (length log <= 50)%nat ->
    (Naukri.continue_search inp jl page = true ->
     Z.of_nat (length log) <= page - 1 /\ (Z.to_nat (51 - page) < fuel)%nat) ->
    (0 < fuel)%nat ->
    exists o, nk_loop fuel fetch inp jl seen page log = Some o /\ nk_post inp o.
Proof.
  unfold nk_loop.
  induction fuel as [|fuel IH]; intros jl seen page log Hpage Hjl Hok Hlog
    Hlen Hcs Hfuel; [lia|].
  cbn [Naukri.scrape_loop].
  destruct (Naukri.continue_search inp jl page) eqn:Ecs; cbn [negb].
  2:{ eexists; split; [reflexivity|]. eapply nk_post_jobs; eauto. }
  destruct (Hcs eq_refl) as [Hcount Hmeasure].
  destruct (nk_continue_length _ _ Ecs) as [Hlt Hp50].
  destruct (search_term inp) as [term|].
  2:{ eexists; split; [reflexivity|]. now apply nk_post_raise. }
  assert (Hlog' : Forall (fun p => 1 <= p <= 50) (log ++ [page])).
  { apply Forall_app. split; [exact Hlog|]. constructor; [lia|constructor]. }
  assert (Hlen' : (length (log ++ [page]) <= 50)%nat).
  { rewrite length_app. simpl. lia. }
  assert (Hcount' : Z.of_nat (length (log ++ [page])) <= page).
  { rewrite length_app. simpl. lia. }
  destruct (fetch (length log) page) as [e|status body].
  { eexists; split; [reflexivity|]. eapply nk_post_jobs; eauto. }
  destruct (Naukri.status_ok status); cbn [negb].
  2:{ eexists; split; [reflexivity|]. eapply nk_post_jobs; eauto. }
  destruct body as [[|j rest]|e].
  { eexists; split; [reflexivity|]. eapply nk_post_jobs; eauto. }
  2:{ eexists; split; [reflexivity|]. eapply nk_post_jobs; eauto. }
  fold nk_process_page.
  destruct (nk_process_page page (j :: rest) jl seen) as [[jl' seen']|e] eqn:Epage.
  2:{ eexists; split; [reflexivity|]. now apply nk_post_raise. }
  destruct (nk_process_page_spec _ _ _ _ _ _ Epage Ecs Hok) as [Hjl' Hok'].
  destruct (Naukri.continue_search inp jl' page) eqn:Ecs'.
  - apply IH; auto; lia.
  - apply IH; auto; try lia.
    rewrite Ecs'. discriminate.
Qed.

Lemma nk_scrape_spec :
  exists o,
    Naukri.scrape lower markdown_converter today fromtimestamp_date fetch inp
      = Some o
    /\ nk_post inp o.
Proof.
  unfold Naukri.scrape. apply nk_loop_spec; simpl; auto; try lia.
  split; [constructor | apply tagged_nil].
Qed.

Lemma ids_ok_nil : forall tag, ids_ok tag [] [].
Proof. intros tag. split; [constructor | apply tagged_nil]. Qed.

End NaukriRun.

(* ================================================================== *)
(** * Properties: the LinkedIn run *)
(* ================================================================== *)

Section LinkedInRun.

Variable amount : Type.
Variable currency_parser : str -> res amount.
Variable int_of_amount : amount -> res Z.
Variable strptime : str -> res date.
Variable markdown_converter : str -> str.
Variable job_page : str -> option str.
Variable fetch : LinkedIn.source.
Variable inp : ScraperInput.

Let li_process_job :=
  LinkedIn._process_job amount currency_parser int_of_amount strptime
                        markdown_converter job_page inp.
Let li_process_page :=
  LinkedIn.process_page amount currency_parser int_of_amount strptime
                        markdown_converter job_page inp.
Let li_loop :=
  LinkedIn.scrape_loop amount currency_parser int_of_amount strptime
                       markdown_converter job_page.

Lemma li_continue_length :
  forall jl start,
    LinkedIn.continue_search inp jl start = true ->
    Z.of_nat (length jl) < results_wanted inp /\ start < 1000.
Proof.
  intros jl start H. unfold LinkedIn.continue_search in H.
  apply andb_prop in H. destruct H as [H1 H2].
  apply Z.ltb_lt in H1. apply Z.ltb_lt in H2. auto.
Qed.

Lemma li_process_page_spec :
  forall start cards jl seen,
    LinkedIn.continue_search inp jl start = true ->
    ids_ok "li-" jl seen ->
    Z.of_nat (length (fst (li_process_page start cards jl seen)))
      <= results_wanted inp
    /\ ids_ok "li-" (fst (li_process_page start cards jl seen))
                    (snd (li_process_page start cards jl seen)).
Proof.
  intros start cards. unfold li_process_page.
  induction cards as [|c rest IH]; intros jl seen Hcs Hok; simpl.
  - split; [|exact Hok]. apply li_continue_length in Hcs. lia.
  - destruct (LinkedIn.href c) as [h|]; [|now apply IH].
    destruct (set_mem (LinkedIn.job_id_of h) seen) eqn:Emem; [now apply IH|].
    fold li_process_job.
    assert (Hok' : ids_ok "li-"
                     (jl ++ [li_process_job c (LinkedIn.job_id_of h)])
                     (set_add (LinkedIn.job_id_of h) seen)).
    { apply ids_ok_add; auto. }
    destruct (LinkedIn.continue_search inp
                (jl ++ [li_process_job c (LinkedIn.job_id_of h)]) start)
      eqn:Ecs'; simpl.
    + now apply IH.
    + split; [|exact Hok'].
      apply li_continue_length in Hcs. rewrite length_app. simpl. lia.
Qed.

Lemma li_post_jobs :
  forall log jl seen,
    Forall (fun s => LinkedIn.first_start inp <= s < 1000) log ->
    Z.of_nat (length log) <= Z.max 0 (1000 - LinkedIn.first_start inp) ->
    Z.of_nat (length jl) <= Z.max 0 (results_wanted inp) ->
    ids_ok "li-" jl seen ->
    li_post inp {| LinkedIn.fetched := log; LinkedIn.result := jl |}
    /\ li_post inp {| LinkedIn.fetched := log;
                  LinkedIn.result := slice_to jl (results_wanted inp) |}.
Proof.
  intros log jl seen Hlog Hlen Hjl [Hnd Htag].
  assert (Htag' : tagged "li-" (fun _ => True) jl).
  { eapply tagged_weaken; [|exact Htag]. auto. }
  split; repeat split; simpl; auto.
  - now apply slice_to_window.
  - now apply NoDup_map_slice.
  - now apply tagged_slice.
Qed.

Lemma li_loop_spec :
  forall fuel jl seen start log,
    LinkedIn.first_start inp <= start ->
    Z.of_nat (length jl) <= Z.max 0 (results_wanted inp) ->
    ids_ok "li-" jl seen ->
    Forall (fun s => LinkedIn.first_start inp <= s < 1000) log ->
    Z.of_nat (length log) <= Z.max 0 (1000 - LinkedIn.first_start inp) ->
    (LinkedIn.continue_search inp jl start = true ->
     Z.of_nat (length log) <= start - LinkedIn.first_start inp
     /\ (Z.to_nat (1000 - start) < fuel)%nat) ->
    (0 < fuel)%nat ->
    exists o, li_loop fuel fetch inp jl seen start log = Some o /\ li_post inp o.
Proof.
  unfold li_loop.
  induction fuel as [|fuel IH]; intros jl seen start log Hstart Hjl Hok Hlog
    Hlen Hcs Hfuel; [lia|].
  cbn [LinkedIn.scrape_loop].
  destruct (LinkedIn.continue_search inp jl start) eqn:Ecs; cbn [negb].
  2:{ eexists; split; [reflexivity|]. eapply li_post_jobs; eauto. }
  destruct (Hcs eq_refl) as [Hcount Hmeasure].
  destruct (li_continue_length _ _ Ecs) as [Hlt Hs].
  assert (Hlog' : Forall (fun s => LinkedIn.first_start inp <= s < 1000)
                         (log ++ [start])).
  { apply Forall_app. split; [exact Hlog|]. constructor; [lia|constructor]. }
  assert (Hcount' : Z.of_nat (length (log ++ [start]))
                    <= start - LinkedIn.first_start inp + 1).
  { rewrite length_app. simpl. lia. }
  destruct (fetch (length log) start) as [e|status cards].
  { eexists; split; [reflexivity|]. eapply li_post_jobs; eauto. lia. }
  destruct (LinkedIn.status_ok status); cbn [negb].
  2:{ eexists; split; [reflexivity|]. eapply li_post_jobs; eauto. lia. }
  destruct cards as [|c rest].
  { eexists; split; [reflexivity|]. eapply li_post_jobs; eauto. lia. }
  fold li_process_page.
  destruct (li_process_page_spec start (c :: rest) jl seen Ecs Hok)
    as [Hjl' Hok'].
  destruct (li_process_page start (c :: rest) jl seen) as [jl' seen'].
  simpl fst in *. simpl snd in *.
  destruct (LinkedIn.continue_search inp jl' start) eqn:Ecs'.
  - apply IH; auto; simpl length; try lia.
  - apply IH; auto; try lia.
    rewrite Ecs'. discriminate.
Qed.

Lemma li_scrape_spec :
  exists o,
    LinkedIn.scrape amount currency_parser int_of_amount strptime
                    markdown_converter job_page fetch inp = Some o
    /\ li_post inp o.
Proof.
  unfold LinkedIn.scrape. apply li_loop_spec; simpl; auto; try lia.
  apply ids_ok_nil.
Qed.

End LinkedInRun.

(* ================================================================== *)
(** * Properties: the Indeed run *)
(* ================================================================== *)

Section IndeedRun.

Variable lower upper : str -> str.
Variable get_enum_from_job_type : str -> option JobType.
Variable markdown_converter : str -> str.
Variable strftime_of_ms : Z -> res str.
Variable fetch : Indeed.source.
Variable inp : ScraperInput.

Let in_process_job :=
  Indeed._process_job lower upper get_enum_from_job_type markdown_converter
                      strftime_of_ms.
Let in_process_results :=
  Indeed.process_results lower upper get_enum_from_job_type markdown_converter
                         strftime_of_ms.
Let in_scrape_page :=
  Indeed._scrape_page lower upper get_enum_from_job_type markdown_converter
                      strftime_of_ms.
Let in_loop :=
  Indeed.scrape_loop lower upper get_enum_from_job_type markdown_converter
                     strftime_of_ms.

Lemma in_process_job_spec :
  forall base self j,
    Indeed.base_url self = Some base ->
    let r := in_process_job self inp j in
    Indeed.base_url (fst r) = Some base
    /\ match snd r with
       | Ok None =>
           fst r = self /\ url_seen base (Indeed.seen_urls self) (Indeed.key j)
       | Ok (Some jp) =>
           id jp = lit "in-" ++ Indeed.key j
           /\ ~ url_seen base (Indeed.seen_urls self) (Indeed.key j)
           /\ Indeed.seen_urls (fst r)
              = viewjob base (Indeed.key j) :: Indeed.seen_urls self
       | Raise _ =>
           Indeed.seen_urls (fst r)
           = viewjob base (Indeed.key j) :: Indeed.seen_urls self
       end.
Proof.
  intros base self j Hbase r. subst r.
  unfold in_process_job, Indeed._process_job. rewrite Hbase. simpl or_default.
  fold (viewjob base (Indeed.key j)).
  destruct (set_mem (viewjob base (Indeed.key j)) (Indeed.seen_urls self))
    eqn:Emem; simpl.
  - split; [exact Hbase|]. split; [reflexivity|]. now apply set_mem_In.
  - split; [exact Hbase|]. unfold set_add. rewrite Emem.
    match goal with
    | |- match ?m with _ => _ end => destruct m as [[jp|]|e] eqn:E
    end.
    + bind_ok E. inversion E. cbn. repeat split. now apply set_mem_false.
    + bind_ok E. discriminate E.
    + reflexivity.
Qed.

Lemma in_ok_weaken :
  forall base jl seen u, in_ok base jl seen -> in_ok base jl (u :: seen).
Proof.
  intros base jl seen u [Hnd Htag]. split; [exact Hnd|].
  eapply tagged_weaken; [|exact Htag]. intros k Hk. now right.
Qed.

Lemma in_process_results_spec :
  forall base jobs self acc pl,
    Indeed.base_url self = Some base ->
    in_ok base (acc ++ pl) (Indeed.seen_urls self) ->
    let r := in_process_results self inp jobs pl in
    Indeed.base_url (fst r) = Some base
    /\ set_len (Indeed.seen_urls self) <= set_len (Indeed.seen_urls (fst r))
    /\ match snd r with
       | Ok pl' =>
           in_ok base (acc ++ pl') (Indeed.seen_urls (fst r))
           /\ set_len (Indeed.seen_urls (fst r))
              = set_len (Indeed.seen_urls self)
                + Z.of_nat (length pl') - Z.of_nat (length pl)
       | Raise _ => True
       end.
Proof.
  intros base jobs. unfold in_process_results.
  induction jobs as [|j rest IH]; intros self acc pl Hbase Hok; simpl.
  - split; [exact Hbase|]. split; [lia|]. split; [exact Hok | lia].
  - fold in_process_job.
    pose proof (in_process_job_spec base self j Hbase) as Hj. simpl in Hj.
    destruct (in_process_job self inp j) as [self' [[jp|]|e]];
      simpl in Hj; destruct Hj as [Hbase' Hj].
    + destruct Hj as (Hid & Hnew & Hseen).
      assert (Hok' : in_ok base (acc ++ pl ++ [jp]) (Indeed.seen_urls self')).
      { rewrite Hseen, app_assoc. destruct Hok as [Hnd Htag]. split.
        - apply (ids_snoc_fresh "in-" (url_seen base (Indeed.seen_urls self))
                                _ jp (Indeed.key j)); auto.
        - apply tagged_app.
          + eapply tagged_weaken; [|exact Htag]. intros k Hk. now right.
          + intros jp' [<- | []]. exists (Indeed.key j).
            split; [exact Hid | now left]. }
      specialize (IH self' acc (pl ++ [jp]) Hbase' Hok'). simpl in IH.
      destruct (Indeed.process_results _ _ _ _ _ self' inp rest (pl ++ [jp]))
        as [self'' r]. cbn [fst snd] in *.
      destruct IH as (Hb & Hmono & Hr). rewrite Hseen in *.
      unfold set_len in *. cbn [length] in *.
      repeat split; auto; try lia.
      destruct r; auto. destruct Hr as [Hr1 Hr2]. split; auto.
      rewrite length_app in Hr2. cbn [length] in Hr2. lia.
    + destruct Hj as [-> Hin]. now apply IH.
    + cbn [fst snd]. rewrite Hj. unfold set_len. cbn [length].
      repeat split; auto; lia.
Qed.

Lemma slice_nil : forall A i j, slice (@nil A) i j = [].
Proof.
  intros A i j. pose proof (slice_length_le A [] i j) as H.
  destruct (slice [] i j); [reflexivity | simpl in H; lia].
Qed.

Lemma in_post_finish :
  forall base log self jl seen,
    in_ok base jl seen ->
    jl = [] \/ 0 < offset inp + results_wanted inp ->
    in_post inp {| Indeed.fetched := log;
               Indeed.result :=
                 Ok (slice jl (offset inp) (offset inp + results_wanted inp));
               Indeed.self_after := self |}.
Proof.
  intros base log self jl seen [Hnd Htag] Hwin. repeat split; simpl.
  - destruct Hwin as [-> | Hwin].
    + rewrite slice_nil. simpl. lia.
    + apply slice_window. now right.
  - now apply NoDup_map_slice.
  - apply tagged_slice. eapply tagged_weaken; [|exact Htag]. auto.
Qed.

Lemma in_post_raise :
  forall log self e,
    in_post inp {| Indeed.fetched := log; Indeed.result := Raise e;
               Indeed.self_after := self |}.
Proof.
  intros. repeat split; simpl; try lia; [constructor | apply tagged_nil].
Qed.

Lemma in_scrape_page_spec :
  forall base self acc answer,
    Indeed.base_url self = Some base ->
    in_ok base acc (Indeed.seen_urls self) ->
    let r := in_scrape_page self inp answer in
    Indeed.base_url (fst r) = Some base
    /\ match snd r with
       | Ok (jobs, _) =>
           in_ok base (acc ++ jobs) (Indeed.seen_urls (fst r))
           /\ set_len (Indeed.seen_urls (fst r))
              = set_len (Indeed.seen_urls self) + Z.of_nat (length jobs)
       | Raise _ => True
       end.
Proof.
  intros base self acc answer Hbase Hok. unfold in_scrape_page.
  destruct answer as [e|[|] [data|e]]; simpl; auto;
    try (rewrite app_nil_r; split; [exact Hbase | split; [exact Hok | lia]]).
  fold in_process_results.
  assert (Hok' : in_ok base (acc ++ []) (Indeed.seen_urls self))
    by now rewrite app_nil_r.
  pose proof (in_process_results_spec base (Indeed.results data) self acc []
                Hbase Hok') as H.
  cbn zeta in H.
  destruct (in_process_results self inp (Indeed.results data) [])
    as [self' [pl|e]]; cbn [fst snd] in *.
  - destruct H as (Hb & _ & Hin & Hlen). cbn [length] in Hlen.
    split; [exact Hb | split; [exact Hin | lia]].
  - destruct H as (Hb & _). auto.
Qed.

Lemma in_loop_spec :
  forall base fuel self jl cursor log,
    Indeed.base_url self = Some base ->
    in_ok base jl (Indeed.seen_urls self) ->
    jl = [] \/ 0 < offset inp + results_wanted inp ->
    (set_len (Indeed.seen_urls self) < results_wanted inp + offset inp ->
     (Z.to_nat (results_wanted inp + offset inp
                - set_len (Indeed.seen_urls self)) < fuel)%nat) ->
    (0 < fuel)%nat ->
    exists o,
      in_loop fuel fetch inp self jl cursor log = Some o /\ in_post inp o.
Proof.
  intros base. unfold in_loop.
  induction fuel as [|fuel IH]; intros self jl cursor log Hbase Hok Hwin
    Hmeasure Hfuel; [lia|].
  cbn [Indeed.scrape_loop].
  destruct (Z.ltb_spec (set_len (Indeed.seen_urls self))
                       (results_wanted inp + offset inp)) as [Hlt|Hge];
    cbn [negb].
  2:{ eexists; split; [reflexivity|]. eapply in_post_finish; eauto. }
  specialize (Hmeasure Hlt).
  destruct (Indeed._build_filters inp) as [[]|e].
  2:{ eexists; split; [reflexivity|]. apply in_post_raise. }
  fold in_scrape_page.
  pose proof (in_scrape_page_spec base self jl
                (fetch (length log) cursor) Hbase Hok) as H.
  cbn zeta in H.
  destruct (in_scrape_page self inp (fetch (length log) cursor))
    as [self' [[[|jp jobs] cursor']|e]]; cbn [fst snd] in H.
  - destruct H as (Hb & Hin & _). rewrite app_nil_r in Hin.
    eexists; split; [reflexivity|]. eapply in_post_finish; eauto.
  - destruct H as (Hb & Hin & Hlen). cbn [length] in Hlen.
    assert (0 <= set_len (Indeed.seen_urls self)) by (unfold set_len; lia).
    apply IH; auto; lia.
  - eexists; split; [reflexivity|]. apply in_post_raise.
Qed.

Lemma in_scrape_spec :
  forall self,
    exists o,
      Indeed.scrape lower upper get_enum_from_job_type markdown_converter
                    strftime_of_ms fetch self inp = Some o
      /\ in_post inp o.
Proof.
  intros self. unfold Indeed.scrape.
  eapply in_loop_spec; cbn [Indeed.base_url Indeed.seen_urls]; auto; try lia.
  split; [constructor | apply tagged_nil].
Qed.

End IndeedRun.

(* ================================================================== *)
(** * Properties: result counts *)
(* ================================================================== *)

(** C1, as stated, fails.  A run asked for one result, whose board search
    returns one row and in which Amazon lists two postings, stores three
    records: the employer postings are added whatever the count asked
    for. *)
Lemma run_collects_more_than_wanted :
  ~ (Z.of_nat
       (length
          (Server.run_scraper ascii_lower ascii_capitalize one_board_row
             (lit "2026-01-05") all_six two_amazon_postings
             (lit "software engineer") (lit "Gurugram, Haryana") 1 12))
     <= 1).
Proof. vm_compute. intros H. apply H. reflexivity. Qed.

(** The employer postings are part of what a run stores, whatever the
    boards return and whatever count was asked for. *)
Lemma run_keeps_every_company_posting :
  forall lower capitalize scrape_jobs today_text completed w term loc n h,
    (length
       (CompanyCareers.scrape_all_company_careers
          lower today_text completed w term (lit "India") 10)
     <= length
          (Server.run_scraper lower capitalize scrape_jobs today_text
             completed w term loc n h))%nat.
Proof.
  intros. unfold Server.run_scraper.
  rewrite length_app, !length_map. lia.
Qed.

(** C1, amended.  Whatever the sources answer and whatever the query, the
    list each board connector returns holds at most [results_wanted]
    postings, and none when [results_wanted] is negative; for Indeed this
    holds in whatever state the object is. *)
Theorem connector_quota :
  forall (lower upper markdown_converter : str -> str)
         (get_enum_from_job_type : str -> option JobType)
         (strftime_of_ms : Z -> res str)
         (amount : Type) (currency_parser : str -> res amount)
         (int_of_amount : amount -> res Z) (strptime : str -> res date)
         (job_page : str -> option str)
         (today : date) (fromtimestamp_date : Z -> res date)
         (indeed : Indeed.source) (linkedin : LinkedIn.source)
         (naukri : Naukri.source)
         (self : Indeed.instance) (inp : ScraperInput),
    (exists o,
        Indeed.scrape lower upper get_enum_from_job_type markdown_converter
                      strftime_of_ms indeed self inp = Some o
        /\ Z.of_nat (length (returned (Indeed.result o)))
           <= Z.max 0 (results_wanted inp))
    /\ (exists o,
           LinkedIn.scrape amount currency_parser int_of_amount strptime
                           markdown_converter job_page linkedin inp = Some o
           /\ Z.of_nat (length (LinkedIn.result o))
              <= Z.max 0 (results_wanted inp))
    /\ (exists o,
           Naukri.scrape lower markdown_converter today fromtimestamp_date
                         naukri inp = Some o
           /\ Z.of_nat (length (returned (Naukri.result o)))
              <= Z.max 0 (results_wanted inp)).
Proof.
  intros. split; [|split].
  - destruct (in_scrape_spec lower upper get_enum_from_job_type
                markdown_converter strftime_of_ms indeed inp self)
      as (o & Ho & Hpost).
    exists o. split; [exact Ho | apply Hpost].
  - destruct (li_scrape_spec amount currency_parser int_of_amount strptime
                markdown_converter job_page linkedin inp) as (o & Ho & Hpost).
    exists o. split; [exact Ho | apply Hpost].
  - destruct (nk_scrape_spec lower markdown_converter today
                fromtimestamp_date naukri inp) as (o & Ho & Hpost).
    exists o. split; [exact Ho | apply Hpost].
Qed.

(* ================================================================== *)
(** * Properties: identifiers of a run *)
(* ================================================================== *)

Lemma tagged_apart :
  forall tag1 tag2 P Q l1 l2,
    (forall k1 k2, lit tag1 ++ k1 <> lit tag2 ++ k2) ->
    tagged tag1 P l1 -> tagged tag2 Q l2 ->
    forall a, In a (ids l1) -> ~ In a (ids l2).
Proof.
  intros tag1 tag2 P Q l1 l2 Hneq H1 H2 a Ha1 Ha2.
  apply in_map_iff in Ha1. destruct Ha1 as (j1 & E1 & Hj1).
  apply in_map_iff in Ha2. destruct Ha2 as (j2 & E2 & Hj2).
  destruct (H1 j1 Hj1) as (k1 & Ek1 & _).
  destruct (H2 j2 Hj2) as (k2 & Ek2 & _).
  apply (Hneq k1 k2). congruence.
Qed.

Lemma ids_app : forall l1 l2, ids (l1 ++ l2) = ids l1 ++ ids l2.
Proof. intros. apply map_app. Qed.

(** Three lists with distinct identifiers inside each and a tag of its own
    for each have distinct identifiers when put together. *)
Lemma ids_distinct_together :
  forall l_in l_li l_nk,
    NoDup (ids l_in) -> tagged "in-" (fun _ => True) l_in ->
    NoDup (ids l_li) -> tagged "li-" (fun _ => True) l_li ->
    NoDup (ids l_nk) -> tagged "nk-" (fun _ => True) l_nk ->
    NoDup (ids (l_in ++ l_li ++ l_nk)).
Proof.
  intros l_in l_li l_nk Hin Tin Hli Tli Hnk Tnk.
  rewrite !ids_app. apply NoDup_app; [exact Hin | |].
  - apply NoDup_app; [exact Hli | exact Hnk |].
    eapply tagged_apart; eauto. intros k1 k2 H. vm_compute in H. congruence.
  - intros a Ha Hb. apply in_app_or in Hb. destruct Hb as [Hb|Hb]; revert Hb.
    + eapply tagged_apart with (tag1 := "in-"%string) (tag2 := "li-"%string);
        eauto.
      intros k1 k2 H. vm_compute in H. congruence.
    + eapply tagged_apart with (tag1 := "in-"%string) (tag2 := "nk-"%string);
        eauto.
      intros k1 k2 H. vm_compute in H. congruence.
Qed.

(** C2.  Whatever the three sources answer, whatever the query and whatever
    state the Indeed object is in, each connector finishes and the postings
    of the three, put together, have pairwise distinct identifiers. *)
Theorem run_ids_distinct :
  forall (lower upper markdown_converter : str -> str)
         (get_enum_from_job_type : str -> option JobType)
         (strftime_of_ms : Z -> res str)
         (amount : Type) (currency_parser : str -> res amount)
         (int_of_amount : amount -> res Z) (strptime : str -> res date)
         (job_page : str -> option str)
         (today : date) (fromtimestamp_date : Z -> res date)
         (indeed : Indeed.source) (linkedin : LinkedIn.source)
         (naukri : Naukri.source)
         (self : Indeed.instance) (inp : ScraperInput),
  exists o_in o_li o_nk,
    Indeed.scrape lower upper get_enum_from_job_type markdown_converter
                  strftime_of_ms indeed self inp = Some o_in
    /\ LinkedIn.scrape amount currency_parser int_of_amount strptime
                       markdown_converter job_page linkedin inp = Some o_li
    /\ Naukri.scrape lower markdown_converter today fromtimestamp_date
                     naukri inp = Some o_nk
    /\ NoDup (ids (returned (Indeed.result o_in)
                   ++ LinkedIn.result o_li
                   ++ returned (Naukri.result o_nk))).
Proof.
  intros.
  destruct (in_scrape_spec lower upper get_enum_from_job_type
              markdown_converter strftime_of_ms indeed inp self)
    as (o_in & Hin & _ & Nin & Tin).
  destruct (li_scrape_spec amount currency_parser int_of_amount strptime
              markdown_converter job_page linkedin inp)
    as (o_li & Hli & _ & _ & _ & Nli & Tli).
  destruct (nk_scrape_spec lower markdown_converter today
              fromtimestamp_date naukri inp)
    as (o_nk & Hnk & _ & _ & _ & Nnk & Tnk).
  exists o_in, o_li, o_nk. repeat split; auto.
  now apply ids_distinct_together.
Qed.

(** The order in which the lists are put together does not matter. *)
Lemma ids_distinct_any_order :
  forall merged l_in l_li l_nk,
    Permutation merged (l_in ++ l_li ++ l_nk) ->
    NoDup (ids (l_in ++ l_li ++ l_nk)) -> NoDup (ids merged).
Proof.
  intros merged l_in l_li l_nk Hperm Hnd.
  eapply Permutation_NoDup; [|exact Hnd].
  apply Permutation_map. now apply Permutation_sym.
Qed.

(* ================================================================== *)
(** * Properties: pagination ceilings *)
(* ================================================================== *)

(** C9.  Whatever the source answers, be it non-empty pages without end,
    and whatever the count asked for: the LinkedIn run finishes and every
    request it made was for an offset below 1000; the Naukri run finishes,
    made at most fifty requests, and each was for a page between 1 and
    50. *)
Theorem pagination_ceilings :
  forall (lower markdown_converter : str -> str)
         (amount : Type) (currency_parser : str -> res amount)
         (int_of_amount : amount -> res Z) (strptime : str -> res date)
         (job_page : str -> option str)
         (today : date) (fromtimestamp_date : Z -> res date)
         (linkedin : LinkedIn.source) (naukri : Naukri.source)
         (inp : ScraperInput),
    (exists o,
        LinkedIn.scrape amount currency_parser int_of_amount strptime
                        markdown_converter job_page linkedin inp = Some o
        /\ Forall (fun start => start < 1000) (LinkedIn.fetched o)
        /\ Z.of_nat (length (LinkedIn.fetched o))
           <= Z.max 0 (1000 - LinkedIn.first_start inp))
    /\ (exists o,
           Naukri.scrape lower markdown_converter today fromtimestamp_date
                         naukri inp = Some o
           /\ (length (Naukri.fetched o) <= 50)%nat
           /\ Forall (fun page => 1 <= page <= 50) (Naukri.fetched o)).
Proof.
  intros. split.
  - destruct (li_scrape_spec amount currency_parser int_of_amount strptime
                markdown_converter job_page linkedin inp)
      as (o & Ho & Hlog & Hcount & _).
    exists o. repeat split; auto.
    eapply Forall_impl; [|exact Hlog]. intros a Ha. simpl in Ha. lia.
  - destruct (nk_scrape_spec lower markdown_converter today
                fromtimestamp_date naukri inp)
      as (o & Ho & Hlog & Hcount & _).
    exists o. auto.
Qed.

(* ================================================================== *)
(** * Properties: runs on concrete sources *)
(* ================================================================== *)



(** Evaluates the conjuncts of a goal one after the other, so that what a
    run returned is known before it is looked into. *)
Ltac run :=
  repeat (split; [vm_compute; reflexivity|]); vm_compute; reflexivity.

(** Against sources that never run dry, and with far more results asked
    for than they will ever get, both loops stop at their ceiling. *)
Lemma naukri_stops_after_fifty_pages :
  exists o,
    naukri_scrape naukri_endless (query "software engineer" 1000) = Some o
    /\ Naukri.fetched o = List.map Z.of_nat (seq 1 50)
    /\ length (returned (Naukri.result o)) = 50%nat.
Proof. eexists. run. Qed.

Lemma linkedin_stops_below_offset_1000 :
  exists o,
    linkedin_scrape linkedin_endless (query "software engineer" 5000) = Some o
    /\ LinkedIn.fetched o = List.map (fun i => 25 * Z.of_nat i) (seq 0 40)
    /\ length (LinkedIn.result o) = 1000%nat.
Proof. eexists. run. Qed.

(* ------------------------------------------------------------------ *)
(** ** The set of seen URLs of an Indeed object *)

(** An object whose set already holds as many URLs as the query asks for
    answers with an empty list, without a single request. *)
Lemma indeed_full_set_returns_nothing :
  forall lower upper get_enum markdown_converter strftime_of_ms
         (fetch : Indeed.source) (self : Indeed.instance) (inp : ScraperInput),
    results_wanted inp + offset inp <= set_len (Indeed.seen_urls self) ->
    exists o,
      Indeed.scrape lower upper get_enum markdown_converter strftime_of_ms
                    fetch self inp = Some o
      /\ Indeed.fetched o = [] /\ Indeed.result o = Ok [].
Proof.
  intros until inp. intros Hfull. unfold Indeed.scrape.
  cbn [Indeed.seen_urls Indeed.scrape_loop].
  destruct (Z.ltb_spec (set_len (Indeed.seen_urls self))
                       (results_wanted inp + offset inp)); [lia|].
  cbn [negb]. eexists. repeat split. cbn [Indeed.result].
  now rewrite slice_nil.
Qed.

(** C3.  Two runs in a row on one Indeed object, with the same query and
    a source that serves the same page both times: the first returns the
    posting [in-a1]; the second returns nothing and does not even send a
    request, because the URL recorded by the first run is still in the
    set. *)
Theorem indeed_second_run_is_suppressed :
  exists o1 o2 jp,
    indeed_scrape indeed_one_page Indeed.init (query "software engineer" 1)
      = Some o1
    /\ Indeed.result o1 = Ok [jp] /\ id jp = lit "in-a1"
    /\ indeed_scrape indeed_one_page (Indeed.self_after o1)
                     (query "software engineer" 1) = Some o2
    /\ Indeed.result o2 = Ok []
    /\ Indeed.fetched o2 = [].
Proof. do 3 eexists. run. Qed.

(** The same holds when the second run asks for more: the page is
    requested, its posting is skipped as already seen, and the run ends
    empty-handed. *)
Lemma indeed_second_run_skips_seen_posting :
  exists o1 o2,
    indeed_scrape indeed_one_page Indeed.init (query "software engineer" 1)
      = Some o1
    /\ indeed_scrape indeed_one_page (Indeed.self_after o1)
                     (query "software engineer" 2) = Some o2
    /\ Indeed.result o2 = Ok []
    /\ Indeed.fetched o2 = [None].
Proof. do 2 eexists. run. Qed.

(* ------------------------------------------------------------------ *)
(** ** Failures while fetching *)

(** C4.  The Indeed source fails in the transport on the second request,
    after a first page that brought one posting: [scrape] raises the
    transport error, and the posting gathered before is not returned. *)
Theorem indeed_transport_error_propagates :
  exists o,
    indeed_scrape indeed_then_failure Indeed.init
                  (query "software engineer" 2) = Some o
    /\ Indeed.fetched o = [None; Some (lit "c1")]
    /\ Indeed.result o = Raise TransportError.
Proof. eexists. run. Qed.

(** Whenever the request of a pass raises, so does [scrape_loop]. *)
Lemma indeed_loop_reraises :
  forall lower upper get_enum markdown_converter strftime_of_ms
         fuel (fetch : Indeed.source) inp self jl cursor log e,
    set_len (Indeed.seen_urls self) < results_wanted inp + offset inp ->
    Indeed._build_filters inp = Ok tt ->
    fetch (length log) cursor = Indeed.Raised e ->
    Indeed.scrape_loop lower upper get_enum markdown_converter strftime_of_ms
                       (S fuel) fetch inp self jl cursor log
    = Some {| Indeed.fetched := log ++ [cursor];
              Indeed.result := Raise e;
              Indeed.self_after := self |}.
Proof.
  intros until e. intros Hlt Hfilters Hfetch. cbn [Indeed.scrape_loop].
  destruct (Z.ltb_spec (set_len (Indeed.seen_urls self))
                       (results_wanted inp + offset inp)); [|lia].
  cbn [negb]. rewrite Hfilters, Hfetch. reflexivity.
Qed.

(** A response that is not [ok] ends the Indeed run with the postings
    gathered so far. *)
Lemma indeed_bad_status_keeps_jobs :
  exists o jp,
    indeed_scrape indeed_then_bad_status Indeed.init
                  (query "software engineer" 2) = Some o
    /\ Indeed.result o = Ok [jp] /\ id jp = lit "in-a1".
Proof. do 2 eexists. run. Qed.

(** The other two connectors catch the failure of a request and return
    what they have. *)
Lemma linkedin_loop_catches :
  forall amount currency_parser int_of_amount strptime markdown_converter
         job_page fuel (fetch : LinkedIn.source) inp jl seen start log e,
    LinkedIn.continue_search inp jl start = true ->
    fetch (length log) start = LinkedIn.Raised e ->
    LinkedIn.scrape_loop amount currency_parser int_of_amount strptime
                         markdown_converter job_page
                         (S fuel) fetch inp jl seen start log
    = Some {| LinkedIn.fetched := log ++ [start]; LinkedIn.result := jl |}.
Proof.
  intros until e. intros Hcs Hfetch. cbn [LinkedIn.scrape_loop].
  rewrite Hcs. cbn [negb]. rewrite Hfetch. reflexivity.
Qed.

Lemma naukri_loop_catches :
  forall lower markdown_converter today fromtimestamp_date
         fuel (fetch : Naukri.source) inp jl seen page log e term,
    Naukri.continue_search inp jl page = true ->
    search_term inp = Some term ->
    fetch (length log) page = Naukri.Raised e ->
    Naukri.scrape_loop lower markdown_converter today fromtimestamp_date
                       (S fuel) fetch inp jl seen page log
    = Some {| Naukri.fetched := log ++ [page]; Naukri.result := Ok jl |}.
Proof.
  intros until term. intros Hcs Hterm Hfetch. cbn [Naukri.scrape_loop].
  rewrite Hcs, Hterm. cbn [negb]. rewrite Hfetch. reflexivity.
Qed.

Lemma linkedin_transport_error_keeps_jobs :
  exists o jp,
    linkedin_scrape linkedin_then_failure (query "software engineer" 2)
      = Some o
    /\ LinkedIn.result o = [jp] /\ id jp = lit "li-3801".
Proof. do 2 eexists. run. Qed.

Lemma naukri_transport_error_keeps_jobs :
  exists o jp,
    naukri_scrape naukri_then_failure (query "software engineer" 2) = Some o
    /\ Naukri.result o = Ok [jp] /\ id jp = lit "nk-77".
Proof. do 2 eexists. run. Qed.

(* ================================================================== *)
(** * Properties: whole amounts are scaled exactly *)
(* ================================================================== *)

Lemma div_nearest_even_exact :
  forall n d, 0 < d -> Float64.div_nearest_even (n * d) d = n.
Proof.
  intros n d Hd. unfold Float64.div_nearest_even.
  rewrite Z.div_mul, Z.mod_mul by lia.
  destruct (Z.ltb_spec (2 * 0) d); [reflexivity | lia].
Qed.

(** A whole number below [2^53], given as a fraction whose denominator is
    a power of two, is represented as it is. *)
Lemma of_ratio_whole :
  forall n j,
    0 < n < 2 ^ 53 -> 0 <= j ->
    Float64.of_ratio (n * 2 ^ j) (2 ^ j)
    = Float64.Fin (n * 2 ^ (52 - Z.log2 n)) (Z.log2 n - 52).
Proof.
  intros n j [Hn Hn53] Hj. unfold Float64.of_ratio.
  assert (Hpow : 0 < 2 ^ j) by (apply Z.pow_pos_nonneg; lia).
  destruct (Z.eqb_spec (n * 2 ^ j) 0) as [E|_]; [nia|].
  rewrite Z.log2_mul_pow2, Z.log2_pow2 by lia.
  replace (j + Z.log2 n - j) with (Z.log2 n) by lia.
  assert (Hlog : 0 <= Z.log2 n < 53).
  { split; [apply Z.log2_nonneg|]. apply Z.log2_lt_pow2; lia. }
  assert (Hge : Float64.ge_pow2 (n * 2 ^ j) (2 ^ j) (Z.log2 n) = true).
  { unfold Float64.ge_pow2. destruct (Z.leb_spec 0 (Z.log2 n)); [|lia].
    apply Z.leb_le. pose proof (Z.log2_spec n Hn). nia. }
  rewrite Hge. rewrite Z.max_l by lia.
  destruct (Z.leb_spec 0 (Z.log2 n - 52)) as [H0|H0].
  - assert (Z.log2 n = 52) by lia.
    replace (Z.log2 n - 52) with 0 by lia.
    replace (52 - Z.log2 n) with 0 by lia.
    rewrite Z.pow_0_r, !Z.mul_1_r, div_nearest_even_exact by lia.
    destruct (Z.leb_spec (2 ^ 53) n); [lia|]. reflexivity.
  - replace (- (Z.log2 n - 52)) with (52 - Z.log2 n) by lia.
    replace (n * 2 ^ j * 2 ^ (52 - Z.log2 n))
      with (n * 2 ^ (52 - Z.log2 n) * 2 ^ j) by ring.
    rewrite div_nearest_even_exact by lia.
    destruct (Z.leb_spec 972 (Z.log2 n - 52)); [lia|].
    destruct (Z.leb_spec 971 (Z.log2 n - 52)); [lia|].
    now rewrite andb_false_r.
Qed.

Lemma to_int_whole :
  forall n,
    0 < n < 2 ^ 53 ->
    Float64.to_int
      (Float64.Fin (n * 2 ^ (52 - Z.log2 n)) (Z.log2 n - 52)) = Ok n.
Proof.
  intros n [Hn Hn53]. unfold Float64.to_int.
  assert (Hlog : 0 <= Z.log2 n < 53).
  { split; [apply Z.log2_nonneg|]. apply Z.log2_lt_pow2; lia. }
  destruct (Z.leb_spec 0 (Z.log2 n - 52)).
  - replace (Z.log2 n - 52) with 0 by lia.
    replace (52 - Z.log2 n) with 0 by lia. f_equal. rewrite Z.pow_0_r. lia.
  - replace (- (Z.log2 n - 52)) with (52 - Z.log2 n) by lia.
    f_equal. apply Z.div_mul. apply Z.pow_nonzero; lia.
Qed.

(** The amount an integer numeral denotes, multiplied by a factor such
    that the product stays below [2^53], comes out of [float], [*] and
    [int] as the exact product: so it is for lakhs (100,000) and for crores
    (10,000,000). *)
Lemma whole_amount_scaled_exactly :
  forall (digits : str) (factor : Z),
    0 <= digits_value digits -> 0 < factor ->
    digits_value digits * factor < 2 ^ 53 ->
    Float64.to_int (Float64.mul_int (Float64.of_decimal digits []) factor)
    = Ok (digits_value digits * factor).
Proof.
  intros digits factor Hn Hf Hbound. unfold Float64.of_decimal.
  rewrite app_nil_r. cbn [length Z.of_nat]. rewrite Z.pow_0_r.
  set (n := digits_value digits) in *.
  destruct (Z.eq_dec n 0) as [-> | Hnz]; [reflexivity|].
  assert (Hn53 : 0 < n < 2 ^ 53) by nia.
  replace n with (n * 2 ^ 0) at 1 by (rewrite Z.pow_0_r; lia).
  replace 1 with (2 ^ 0) at 1 by reflexivity.
  rewrite of_ratio_whole by lia. unfold Float64.mul_int.
  assert (Hlog : 0 <= Z.log2 n < 53).
  { split; [apply Z.log2_nonneg|]. apply Z.log2_lt_pow2; lia. }
  assert (Hp : 0 < n * factor < 2 ^ 53) by nia.
  destruct (Z.leb_spec 0 (Z.log2 n - 52)).
  - replace (Z.log2 n - 52) with 0 by lia.
    replace (52 - Z.log2 n) with 0 by lia.
    rewrite !Z.pow_0_r, !Z.mul_1_r.
    replace (n * factor) with (n * factor * 2 ^ 0) at 1
      by (rewrite Z.pow_0_r; lia).
    replace 1 with (2 ^ 0) at 1 by reflexivity.
    rewrite of_ratio_whole by lia. now apply to_int_whole.
  - replace (- (Z.log2 n - 52)) with (52 - Z.log2 n) by lia.
    replace (n * 2 ^ (52 - Z.log2 n) * factor)
      with (n * factor * 2 ^ (52 - Z.log2 n)) by ring.
    rewrite of_ratio_whole by lia. now apply to_int_whole.
Qed.

Lemma whole_amount_scaled_exactly_holds :
  0 <= digits_value (lit "16") /\ 0 < 100000
  /\ digits_value (lit "16") * 100000 < 2 ^ 53
  /\ Float64.to_int
       (Float64.mul_int (Float64.of_decimal (lit "16") []) 100000)
     = Ok 1600000.
Proof.
  split; [vm_compute; congruence|]. split; [lia|].
  split; [vm_compute; reflexivity|].
  apply (whole_amount_scaled_exactly (lit "16") 100000);
    vm_compute; congruence.
Defined.

(** A number of [2^1024] or more is beyond the largest binary64 number:
    [float] gives infinity for it, which [int] cannot convert. *)
Lemma of_ratio_overflows :
  forall n, 2 ^ 1024 <= n -> Float64.of_ratio n 1 = Float64.Inf.
Proof.
  intros n Hn. unfold Float64.of_ratio.
  assert (Hpos : 0 < n) by (pose proof (Z.pow_pos_nonneg 2 1024); lia).
  destruct (Z.eqb_spec n 0); [lia|].
  assert (Hlog : 1024 <= Z.log2 n).
  { rewrite <- (Z.log2_pow2 1024) by lia. now apply Z.log2_le_mono. }
  change (Z.log2 1) with 0. rewrite Z.sub_0_r.
  assert (Hge : Float64.ge_pow2 n 1 (Z.log2 n) = true).
  { unfold Float64.ge_pow2. destruct (Z.leb_spec 0 (Z.log2 n)); [|lia].
    apply Z.leb_le. pose proof (Z.log2_spec n Hpos). lia. }
  rewrite Hge. cbv zeta. rewrite Z.max_l by lia.
  destruct (Z.leb_spec 972 (Z.log2 n - 52)); [reflexivity | lia].
Qed.

Lemma huge_numeral_cannot_be_converted :
  forall digits : str,
    2 ^ 1024 <= digits_value digits ->
    Float64.to_int (Float64.mul_int (Float64.of_decimal digits []) 100000)
    = Raise OverflowError.
Proof.
  intros digits H. unfold Float64.of_decimal.
  rewrite app_nil_r. cbn [length Z.of_nat]. rewrite Z.pow_0_r.
  rewrite of_ratio_overflows by exact H. reflexivity.
Qed.

(** So the Naukri extractor raises for a salary of 309 digits. *)
Lemma naukri_huge_amount_raises :
  Naukri._get_compensation ascii_lower
    [ {| Naukri.ptype := Some (lit "salary");
         Naukri.plabel := Val (repeat 57%N 309 ++ lit "-2 Lacs P.A.") |} ]
  = Raise OverflowError.
Proof. vm_compute. reflexivity. Qed.

(** The Indeed loop has no ceiling of its own: against a source that never
    runs dry it sends as many requests as there are results asked for. *)
Lemma indeed_requests_follow_the_count :
  exists o,
    indeed_scrape indeed_endless Indeed.init (query "software engineer" 60)
      = Some o
    /\ length (Indeed.fetched o) = 60%nat
    /\ length (returned (Indeed.result o)) = 60%nat.
Proof. eexists. run. Qed.

(* ================================================================== *)
(** * Further properties: the requests of a run *)
(* ================================================================== *)

Lemma chain_cons :
  forall A (next : nat -> A -> option A) n a a' rest,
    next n a = Some a' -> chain next (S n) a' rest ->
    chain next n a (a :: rest).
Proof.
  intros A next n a a' rest Hnext Hrest. simpl. split; [reflexivity|].
  right. exists a'. auto.
Qed.

Lemma chain_single :
  forall A (next : nat -> A -> option A) n a, chain next n a [a].
Proof. intros. simpl. auto. Qed.

Section LinkedInTrace.

Variable amount : Type.
Variable currency_parser : str -> res amount.
Variable int_of_amount : amount -> res Z.
Variable strptime : str -> res date.
Variable markdown_converter : str -> str.
Variable job_page : str -> option str.
Variable fetch : LinkedIn.source.
Variable inp : ScraperInput.

Let li_loop :=
  LinkedIn.scrape_loop amount currency_parser int_of_amount strptime
                       markdown_converter job_page.

Lemma li_loop_exit :
  forall fuel jl seen start log o,
    LinkedIn.continue_search inp jl start = false ->
    li_loop fuel fetch inp jl seen start log = Some o ->
    LinkedIn.fetched o = log.
Proof.
  intros fuel jl seen start log o Hcs. unfold li_loop.
  destruct fuel as [|fuel]; cbn [LinkedIn.scrape_loop]; [discriminate|].
  rewrite Hcs. cbn [negb]. intros H. inversion H. reflexivity.
Qed.

Lemma li_loop_chain :
  forall fuel jl seen start log o,
    li_loop fuel fetch inp jl seen start log = Some o ->
    exists tail,
      LinkedIn.fetched o = log ++ tail
      /\ chain (li_next fetch) (length log) start tail.
Proof.
  unfold li_loop.
  induction fuel as [|fuel IH]; intros jl seen start log o Hrun;
    cbn [LinkedIn.scrape_loop] in Hrun; [discriminate|].
  destruct (LinkedIn.continue_search inp jl start) eqn:Ecs; cbn [negb] in Hrun.
  2:{ inversion Hrun. exists []. rewrite app_nil_r. simpl. auto. }
  assert (Hstop : forall r,
             Some {| LinkedIn.fetched := log ++ [start];
                     LinkedIn.result := r |} = Some o ->
             exists tail, LinkedIn.fetched o = log ++ tail
                          /\ chain (li_next fetch) (length log) start tail).
  { intros r H. inversion H. exists [start]. split; [reflexivity|].
    apply chain_single. }
  destruct (fetch (length log) start) as [e|status cards] eqn:Efetch;
    [eauto|].
  destruct (LinkedIn.status_ok status) eqn:Estatus; cbn [negb] in Hrun;
    [|eauto].
  destruct cards as [|c rest]; [eauto|].
  destruct (LinkedIn.process_page _ _ _ _ _ _ inp start (c :: rest) jl seen)
    as [jl' seen'].
  assert (Hnext : li_next fetch (length log) start
                  = Some (start + Z.of_nat (length (c :: rest)))).
  { unfold li_next. rewrite Efetch, Estatus. reflexivity. }
  destruct (LinkedIn.continue_search inp jl' start) eqn:Ecs'.
  - destruct (IH _ _ _ _ _ Hrun) as (tail & Hlog & Hchain).
    exists (start :: tail). split.
    + rewrite Hlog, <- app_assoc. reflexivity.
    + eapply chain_cons; [exact Hnext|].
      rewrite length_app in Hchain. simpl length in Hchain.
      now rewrite Nat.add_1_r in Hchain.
  - apply (li_loop_exit _ _ _ _ _ _ Ecs') in Hrun.
    exists [start]. split; [exact Hrun | apply chain_single].
Qed.

End LinkedInTrace.

(** X1.  Whatever the source answers, the LinkedIn run finishes and its
    requests form a chain: the first asks for the offset of the query
    rounded down to a multiple of ten, and every later one follows a
    response with a status from 200 to 399 and at least one card, asking
    for the previous offset plus the number of cards of that response.  So
    nothing is requested after a failure, an error status or an empty
    page. *)
Theorem linkedin_requests_chain :
  forall (amount : Type) (currency_parser : str -> res amount)
         (int_of_amount : amount -> res Z) (strptime : str -> res date)
         (markdown_converter : str -> str) (job_page : str -> option str)
         (fetch : LinkedIn.source) (inp : ScraperInput),
  exists o,
    LinkedIn.scrape amount currency_parser int_of_amount strptime
                    markdown_converter job_page fetch inp = Some o
    /\ chain (li_next fetch) 0 (LinkedIn.first_start inp) (LinkedIn.fetched o).
Proof.
  intros.
  destruct (li_scrape_spec amount currency_parser int_of_amount strptime
              markdown_converter job_page fetch inp) as (o & Ho & _).
  exists o. split; [exact Ho|].
  unfold LinkedIn.scrape in Ho.
  destruct (li_loop_chain _ _ _ _ _ _ _ _ _ _ _ _ _ _ Ho)
    as (tail & Hlog & Hchain).
  simpl in Hlog. rewrite Hlog. exact Hchain.
Qed.

Section NaukriTrace.

Variable lower : str -> str.
Variable markdown_converter : str -> str.
Variable today : date.
Variable fromtimestamp_date : Z -> res date.
Variable fetch : Naukri.source.
Variable inp : ScraperInput.

Let nk_loop :=
  Naukri.scrape_loop lower markdown_converter today fromtimestamp_date.

Lemma nk_loop_exit :
  forall fuel jl seen page log o,
    Naukri.continue_search inp jl page = false ->
    nk_loop fuel fetch inp jl seen page log = Some o ->
    Naukri.fetched o = log.
Proof.
  intros fuel jl seen page log o Hcs. unfold nk_loop.
  destruct fuel as [|fuel]; cbn [Naukri.scrape_loop]; [discriminate|].
  rewrite Hcs. cbn [negb]. intros H. inversion H. reflexivity.
Qed.

Lemma nk_loop_chain :
  forall fuel jl seen page log o,
    nk_loop fuel fetch inp jl seen page log = Some o ->
    exists tail,
      Naukri.fetched o = log ++ tail
      /\ chain (nk_next fetch) (length log) page tail.
Proof.
  unfold nk_loop.
  induction fuel as [|fuel IH]; intros jl seen page log o Hrun;
    cbn [Naukri.scrape_loop] in Hrun; [discriminate|].
  destruct (Naukri.continue_search inp jl page) eqn:Ecs; cbn [negb] in Hrun.
  2:{ inversion Hrun. exists []. rewrite app_nil_r. simpl. auto. }
  destruct (search_term inp) as [term|].
  2:{ inversion Hrun. exists []. rewrite app_nil_r. simpl. auto. }
  assert (Hstop : forall r,
             Some {| Naukri.fetched := log ++ [page];
                     Naukri.result := r |} = Some o ->
             exists tail, Naukri.fetched o = log ++ tail
                          /\ chain (nk_next fetch) (length log) page tail).
  { intros r H. inversion H. exists [page]. split; [reflexivity|].
    apply chain_single. }
  destruct (fetch (length log) page) as [e|status body] eqn:Efetch; [eauto|].
  destruct (Naukri.status_ok status) eqn:Estatus; cbn [negb] in Hrun;
    [|eauto].
  destruct body as [[|j rest]|e]; [eauto| |eauto].
  destruct (Naukri.process_page _ _ _ _ inp page (j :: rest) jl seen)
    as [[jl' seen']|e]; [|eauto].
  assert (Hnext : nk_next fetch (length log) page = Some (page + 1)).
  { unfold nk_next. rewrite Efetch, Estatus. reflexivity. }
  destruct (Naukri.continue_search inp jl' page) eqn:Ecs'.
  - destruct (IH _ _ _ _ _ Hrun) as (tail & Hlog & Hchain).
    exists (page :: tail). split.
    + rewrite Hlog, <- app_assoc. reflexivity.
    + eapply chain_cons; [exact Hnext|].
      rewrite length_app in Hchain. simpl length in Hchain.
      now rewrite Nat.add_1_r in Hchain.
  - apply (nk_loop_exit _ _ _ _ _ _ Ecs') in Hrun.
    exists [page]. split; [exact Hrun | apply chain_single].
Qed.

(** A chain of Naukri requests visits consecutive pages. *)
Lemma nk_chain_consecutive :
  forall l n page,
    chain (nk_next fetch) n page l ->
    l = List.map (fun i => page + Z.of_nat i) (seq 0 (length l)).
Proof.
  induction l as [|x rest IH]; intros n page Hchain; [reflexivity|].
  simpl in Hchain. destruct Hchain as [-> [-> | (p' & Hnext & Hrest)]].
  - simpl. f_equal. lia.
  - assert (p' = page + 1).
    { unfold nk_next in Hnext.
      destruct (fetch n page) as [|status [[|]|]]; try discriminate.
      destruct (Naukri.status_ok status); congruence. }
    subst p'. cbn [length seq List.map]. f_equal; [lia|].
    rewrite (IH _ _ Hrest) at 1. rewrite <- seq_shift, map_map.
    apply map_ext. intros i. lia.
Qed.

End NaukriTrace.

Lemma nk_scrape_unfold :
  forall lower markdown_converter today fromtimestamp_date fetch inp,
    Naukri.scrape lower markdown_converter today fromtimestamp_date fetch inp
    = Naukri.scrape_loop lower markdown_converter today fromtimestamp_date
                         51 fetch inp [] [] 1 [].
Proof. reflexivity. Qed.

(** X2.  Whatever the source answers, the Naukri run finishes and asks for
    the pages 1, 2, 3, ... in this order, each once; every request after
    the first follows a response with a status from 200 to 399 and a
    decoded, non-empty list of jobs, so nothing is requested after a
    failure, an error status, an undecodable body or an empty page. *)
Theorem naukri_requests_chain :
  forall (lower markdown_converter : str -> str) (today : date)
         (fromtimestamp_date : Z -> res date)
         (fetch : Naukri.source) (inp : ScraperInput),
  exists o,
    Naukri.scrape lower markdown_converter today fromtimestamp_date fetch inp
      = Some o
    /\ chain (nk_next fetch) 0 1 (Naukri.fetched o)
    /\ Naukri.fetched o
       = List.map Z.of_nat (seq 1 (length (Naukri.fetched o))).
Proof.
  intros.
  destruct (nk_scrape_spec lower markdown_converter today fromtimestamp_date
              fetch inp) as (o & Ho & _).
  exists o. split; [exact Ho|].
  pose proof Ho as Hrun. rewrite nk_scrape_unfold in Hrun.
  destruct (nk_loop_chain lower markdown_converter today fromtimestamp_date
              fetch inp 51%nat [] [] 1 [] o Hrun)
    as (tail & Hlog & Hchain).
  rewrite app_nil_l in Hlog. rewrite Hlog. split; [exact Hchain|].
  pose proof (nk_chain_consecutive fetch _ _ _ Hchain) as Hpages.
  rewrite Hpages at 1.
  rewrite <- seq_shift, map_map. apply map_ext. intros i. lia.
Qed.

Section IndeedTrace.

Variable lower upper : str -> str.
Variable get_enum_from_job_type : str -> option JobType.
Variable markdown_converter : str -> str.
Variable strftime_of_ms : Z -> res str.
Variable fetch : Indeed.source.
Variable inp : ScraperInput.

Let in_loop :=
  Indeed.scrape_loop lower upper get_enum_from_job_type markdown_converter
                     strftime_of_ms.

(** A page that brings postings had results, and its cursor is handed
    on as it came. *)
Lemma in_scrape_page_next :
  forall self answer self' jp jobs cursor',
    Indeed._scrape_page lower upper get_enum_from_job_type markdown_converter
                        strftime_of_ms self inp answer
    = (self', Ok (jp :: jobs, cursor')) ->
    exists data,
      answer = Indeed.Http true (Ok data)
      /\ Indeed.results data <> [] /\ cursor' = Indeed.nextCursor data.
Proof.
  intros self answer self' jp jobs cursor' H. unfold Indeed._scrape_page in H.
  destruct answer as [e|[|] [data|e]]; try discriminate.
  exists data. split; [reflexivity|].
  destruct (Indeed.results data) as [|j rest] eqn:Eres.
  - simpl in H. discriminate.
  - split; [discriminate|].
    destruct (Indeed.process_results _ _ _ _ _ self inp (j :: rest) [])
      as [s [l|e]]; inversion H; reflexivity.
Qed.

Lemma in_loop_chain :
  forall fuel self jl cursor log o,
    in_loop fuel fetch inp self jl cursor log = Some o ->
    exists tail,
      Indeed.fetched o = log ++ tail
      /\ chain (in_next fetch) (length log) cursor tail.
Proof.
  unfold in_loop.
  induction fuel as [|fuel IH]; intros self jl cursor log o Hrun;
    cbn [Indeed.scrape_loop] in Hrun; [discriminate|].
  destruct (negb _); [inversion Hrun; exists []; rewrite app_nil_r;
                      simpl; auto|].
  destruct (Indeed._build_filters inp) as [[]|e].
  2:{ inversion Hrun. exists []. rewrite app_nil_r. simpl. auto. }
  destruct (Indeed._scrape_page _ _ _ _ _ self inp (fetch (length log) cursor))
    as [self' [[[|jp jobs] cursor']|e]] eqn:Epage.
  - inversion Hrun. exists [cursor]. split; [reflexivity|apply chain_single].
  - destruct (in_scrape_page_next _ _ _ _ _ _ Epage)
      as (data & Hfetch & Hres & ->).
    destruct (IH _ _ _ _ _ Hrun) as (tail & Hlog & Hchain).
    exists (cursor :: tail). split.
    + rewrite Hlog, <- app_assoc. reflexivity.
    + eapply chain_cons.
      * unfold in_next. rewrite Hfetch.
        destruct (Indeed.results data); [contradiction | reflexivity].
      * rewrite length_app in Hchain. simpl length in Hchain.
        now rewrite Nat.add_1_r in Hchain.
  - inversion Hrun. exists [cursor]. split; [reflexivity|apply chain_single].
Qed.

End IndeedTrace.

(** X3.  Whatever the source answers and whatever state the object is in,
    the Indeed run finishes and its requests form a chain: the first is
    made without a cursor, and every later one follows a response that was
    [ok], decoded and with results, and carries the [nextCursor] of that
    response as it came, also when it is [None]. *)
Theorem indeed_requests_chain :
  forall (lower upper markdown_converter : str -> str)
         (get_enum_from_job_type : str -> option JobType)
         (strftime_of_ms : Z -> res str)
         (fetch : Indeed.source) (self : Indeed.instance)
         (inp : ScraperInput),
  exists o,
    Indeed.scrape lower upper get_enum_from_job_type markdown_converter
                  strftime_of_ms fetch self inp = Some o
    /\ chain (in_next fetch) 0 None (Indeed.fetched o).
Proof.
  intros.
  destruct (in_scrape_spec lower upper get_enum_from_job_type
              markdown_converter strftime_of_ms fetch inp self)
    as (o & Ho & _).
  exists o. split; [exact Ho|].
  unfold Indeed.scrape in Ho.
  destruct (in_loop_chain _ _ _ _ _ _ _ _ _ _ _ _ _ Ho)
    as (tail & Hlog & Hchain).
  simpl in Hlog. rewrite Hlog. exact Hchain.
Qed.

(* ================================================================== *)
(** * Further properties: the URLs an Indeed object has seen *)
(* ================================================================== *)

Lemma urls_new_mono :
  forall seen0 seen seen' jl,
    incl seen seen' -> urls_new seen0 seen jl -> urls_new seen0 seen' jl.
Proof.
  intros seen0 seen seen' jl Hincl H. unfold urls_new in *.
  eapply Forall_impl; [|exact H]. intros jp [H1 H2]. split; auto.
Qed.

Section IndeedSeen.

Variable lower upper : str -> str.
Variable get_enum_from_job_type : str -> option JobType.
Variable markdown_converter : str -> str.
Variable strftime_of_ms : Z -> res str.
Variable fetch : Indeed.source.
Variable inp : ScraperInput.
Variable seen0 : str_set.

Let in_process_job :=
  Indeed._process_job lower upper get_enum_from_job_type markdown_converter
                      strftime_of_ms.
Let in_process_results :=
  Indeed.process_results lower upper get_enum_from_job_type markdown_converter
                         strftime_of_ms.
Let in_scrape_page :=
  Indeed._scrape_page lower upper get_enum_from_job_type markdown_converter
                      strftime_of_ms.
Let in_loop :=
  Indeed.scrape_loop lower upper get_enum_from_job_type markdown_converter
                     strftime_of_ms.

Lemma in_process_job_seen :
  forall self j,
    let r := in_process_job self inp j in
    incl (Indeed.seen_urls self) (Indeed.seen_urls (fst r))
    /\ match snd r with
       | Ok (Some jp) =>
           ~ In (job_url jp) (Indeed.seen_urls self)
           /\ In (job_url jp) (Indeed.seen_urls (fst r))
       | _ => True
       end.
Proof.
  intros self j. unfold in_process_job, Indeed._process_job. cbv zeta.
  set (url := or_default (Indeed.base_url self) (lit "None")
              ++ lit "/viewjob?jk=" ++ Indeed.key j).
  destruct (set_mem url (Indeed.seen_urls self)) eqn:Emem; cbn [fst snd].
  - split; [apply incl_refl | exact I].
  - cbn [Indeed.with_seen Indeed.seen_urls]. split.
    + intros x Hx. apply set_add_In. now right.
    + match goal with
      | |- match ?m with _ => _ end => destruct m as [[jp|]|e] eqn:E
      end; [|exact I|exact I].
      bind_ok E. inversion E. cbn [job_url]. split.
      * now apply set_mem_false.
      * apply set_add_In. now left.
Qed.

Lemma in_process_results_seen :
  forall jobs self pl,
    incl seen0 (Indeed.seen_urls self) ->
    urls_new seen0 (Indeed.seen_urls self) pl ->
    let r := in_process_results self inp jobs pl in
    incl (Indeed.seen_urls self) (Indeed.seen_urls (fst r))
    /\ match snd r with
       | Ok pl' => urls_new seen0 (Indeed.seen_urls (fst r)) pl'
       | Raise _ => True
       end.
Proof.
  unfold in_process_results.
  induction jobs as [|j rest IH]; intros self pl Hincl Hpl; simpl.
  - split; [apply incl_refl | exact Hpl].
  - fold in_process_job.
    pose proof (in_process_job_seen self j) as Hj. cbv zeta in Hj.
    destruct (in_process_job self inp j) as [self' [[jp|]|e]];
      cbn [fst snd] in Hj; destruct Hj as [Hgrow Hj].
    + destruct Hj as [Hnew Hin].
      assert (Hincl' : incl seen0 (Indeed.seen_urls self'))
        by (eapply incl_tran; eauto).
      assert (Hpl' : urls_new seen0 (Indeed.seen_urls self') (pl ++ [jp])).
      { apply Forall_app. split.
        - apply (urls_new_mono seen0 (Indeed.seen_urls self)); assumption.
        - constructor; [|constructor]. split; [|exact Hin].
          intros H0. apply Hnew. now apply Hincl. }
      specialize (IH self' (pl ++ [jp]) Hincl' Hpl'). cbv zeta in IH.
      destruct (Indeed.process_results _ _ _ _ _ self' inp rest (pl ++ [jp]))
        as [self'' r]. cbn [fst snd] in *.
      destruct IH as [Hgrow' Hr]. split; [eapply incl_tran; eauto | exact Hr].
    + assert (Hincl' : incl seen0 (Indeed.seen_urls self'))
        by (eapply incl_tran; eauto).
      assert (Hpl' : urls_new seen0 (Indeed.seen_urls self') pl)
        by (apply (urls_new_mono seen0 (Indeed.seen_urls self)); assumption).
      specialize (IH self' pl Hincl' Hpl'). cbv zeta in IH.
      destruct (Indeed.process_results _ _ _ _ _ self' inp rest pl)
        as [self'' r]. cbn [fst snd] in *.
      destruct IH as [Hgrow' Hr]. split; [eapply incl_tran; eauto | exact Hr].
    + cbn [fst snd]. split; [exact Hgrow | exact I].
Qed.

Lemma in_scrape_page_seen :
  forall self answer,
    incl seen0 (Indeed.seen_urls self) ->
    let r := in_scrape_page self inp answer in
    incl (Indeed.seen_urls self) (Indeed.seen_urls (fst r))
    /\ match snd r with
       | Ok (jobs, _) => urls_new seen0 (Indeed.seen_urls (fst r)) jobs
       | Raise _ => True
       end.
Proof.
  intros self answer Hincl. unfold in_scrape_page, Indeed._scrape_page.
  destruct answer as [e|[|] [data|e]]; cbn [fst snd];
    try (split; [apply incl_refl | exact I || constructor]).
  fold in_process_results.
  pose proof (in_process_results_seen (Indeed.results data) self [] Hincl
                (Forall_nil _)) as H. cbv zeta in H.
  destruct (in_process_results self inp (Indeed.results data) [])
    as [self' [pl|e]]; cbn [fst snd] in *; exact H.
Qed.

Lemma in_loop_seen :
  forall fuel self jl cursor log o,
    in_loop fuel fetch inp self jl cursor log = Some o ->
    incl seen0 (Indeed.seen_urls self) ->
    urls_new seen0 (Indeed.seen_urls self) jl ->
    incl (Indeed.seen_urls self) (Indeed.seen_urls (Indeed.self_after o))
    /\ urls_new seen0 (Indeed.seen_urls (Indeed.self_after o))
                (returned (Indeed.result o)).
Proof.
  unfold in_loop.
  induction fuel as [|fuel IH]; intros self jl cursor log o Hrun Hincl Hjl;
    cbn [Indeed.scrape_loop] in Hrun; [discriminate|].
  assert (Hfinish : forall self' log',
             incl (Indeed.seen_urls self) (Indeed.seen_urls self') ->
             Some {| Indeed.fetched := log';
                     Indeed.result :=
                       Ok (slice jl (offset inp)
                                 (offset inp + results_wanted inp));
                     Indeed.self_after := self' |} = Some o ->
             incl (Indeed.seen_urls self)
                  (Indeed.seen_urls (Indeed.self_after o))
             /\ urls_new seen0 (Indeed.seen_urls (Indeed.self_after o))
                         (returned (Indeed.result o))).
  { intros self' log' Hgrow H. inversion H. cbn. split; [exact Hgrow|].
    apply Forall_forall. intros jp Hjp. apply slice_incl in Hjp.
    unfold urls_new in Hjl. rewrite Forall_forall in Hjl.
    destruct (Hjl jp Hjp). split; auto. }
  destruct (negb _); [apply (Hfinish self log); auto; apply incl_refl|].
  destruct (Indeed._build_filters inp) as [[]|e].
  2:{ inversion Hrun. cbn. split; [apply incl_refl | constructor]. }
  fold in_scrape_page in Hrun.
  pose proof (in_scrape_page_seen self (fetch (length log) cursor) Hincl)
    as Hpage. cbv zeta in Hpage.
  destruct (in_scrape_page self inp (fetch (length log) cursor))
    as [self' [[[|jp jobs] cursor']|e]]; cbn [fst snd] in Hpage;
    destruct Hpage as [Hgrow Hjobs].
  - eapply Hfinish; eauto.
  - assert (Hincl' : incl seen0 (Indeed.seen_urls self'))
      by (eapply incl_tran; eauto).
    assert (Hjl' : urls_new seen0 (Indeed.seen_urls self')
                            (jl ++ jp :: jobs)).
    { apply Forall_app. split; [|exact Hjobs].
      apply (urls_new_mono seen0 (Indeed.seen_urls self)); assumption. }
    destruct (IH _ _ _ _ _ Hrun Hincl' Hjl') as [Hgrow' Hres].
    split; [eapply incl_tran; eauto | exact Hres].
  - inversion Hrun. cbn. split; [exact Hgrow | constructor].
Qed.

End IndeedSeen.

(** X4.  Whatever the source answers: a run on an Indeed object returns no
    posting whose URL the object had seen before the run, the URL of every
    posting it returns is in the set afterwards, and no URL ever leaves the
    set. *)
Theorem indeed_returns_only_unseen_urls :
  forall (lower upper markdown_converter : str -> str)
         (get_enum_from_job_type : str -> option JobType)
         (strftime_of_ms : Z -> res str)
         (fetch : Indeed.source) (self : Indeed.instance)
         (inp : ScraperInput),
  exists o,
    Indeed.scrape lower upper get_enum_from_job_type markdown_converter
                  strftime_of_ms fetch self inp = Some o
    /\ incl (Indeed.seen_urls self) (Indeed.seen_urls (Indeed.self_after o))
    /\ urls_new (Indeed.seen_urls self)
                (Indeed.seen_urls (Indeed.self_after o))
                (returned (Indeed.result o)).
Proof.
  intros.
  destruct (in_scrape_spec lower upper get_enum_from_job_type
              markdown_converter strftime_of_ms fetch inp self)
    as (o & Ho & _).
  exists o. split; [exact Ho|].
  pose proof Ho as Hrun. unfold Indeed.scrape in Hrun.
  apply (in_loop_seen lower upper get_enum_from_job_type markdown_converter
           strftime_of_ms fetch inp (Indeed.seen_urls self)) in Hrun.
  - exact Hrun.
  - apply incl_refl.
  - constructor.
Qed.

(* ================================================================== *)
(** * Further properties: queries a connector cannot serve *)
(* ================================================================== *)

(** X5.  The table of filter keys of the Indeed connector has no entry for
    temporary jobs: when the query asks for them without a recency window
    and the object still has results to gather, [scrape] raises a
    [KeyError] before any request is sent. *)
Theorem indeed_temporary_filter_raises :
  forall (lower upper markdown_converter : str -> str)
         (get_enum_from_job_type : str -> option JobType)
         (strftime_of_ms : Z -> res str)
         (fetch : Indeed.source) (self : Indeed.instance)
         (inp : ScraperInput),
    hours_old inp = None \/ hours_old inp = Some 0 ->
    wanted_job_type inp = Some TEMPORARY ->
    set_len (Indeed.seen_urls self) < results_wanted inp + offset inp ->
    exists o,
      Indeed.scrape lower upper get_enum_from_job_type markdown_converter
                    strftime_of_ms fetch self inp = Some o
      /\ Indeed.fetched o = []
      /\ Indeed.result o = Raise KeyError.
Proof.
  intros until inp. intros Hhours Htype Hroom. unfold Indeed.scrape.
  cbn [Indeed.seen_urls Indeed.scrape_loop].
  destruct (Z.ltb_spec (set_len (Indeed.seen_urls self))
                       (results_wanted inp + offset inp)); [|lia].
  cbn [negb]. unfold Indeed._build_filters. rewrite Htype.
  destruct Hhours as [-> | ->]; cbn; eexists; repeat split.
Qed.

Lemma indeed_temporary_filter_raises_witness :
  (hours_old temporary_query = None \/ hours_old temporary_query = Some 0)
  /\ wanted_job_type temporary_query = Some TEMPORARY
  /\ set_len (Indeed.seen_urls Indeed.init)
     < results_wanted temporary_query + offset temporary_query
  /\ exists o,
       indeed_scrape indeed_one_page Indeed.init temporary_query = Some o
       /\ Indeed.fetched o = []
       /\ Indeed.result o = Raise KeyError.
Proof.
  split; [left; reflexivity|]. split; [reflexivity|].
  split; [reflexivity|].
  apply (indeed_temporary_filter_raises ascii_lower ascii_upper markdown
           no_job_type published indeed_one_page Indeed.init temporary_query).
  - left; reflexivity.
  - reflexivity.
  - reflexivity.
Defined.

Lemma nk_loop_without_term :
  forall lower markdown_converter today fromtimestamp_date
         fuel (fetch : Naukri.source) inp jl seen page log,
    search_term inp = None ->
    Naukri.continue_search inp jl page = true ->
    Naukri.scrape_loop lower markdown_converter today fromtimestamp_date
                       (S fuel) fetch inp jl seen page log
    = Some {| Naukri.fetched := log; Naukri.result := Raise AttributeError |}.
Proof.
  intros until log. intros Hterm Hcs. cbn [Naukri.scrape_loop].
  rewrite Hcs, Hterm. reflexivity.
Qed.

(** X6.  The Naukri connector lower-cases the search term while it builds
    the request: for a query without a search term that asks for at least
    one result, [scrape] raises an [AttributeError] before any request is
    sent. *)
Theorem naukri_without_search_term_raises :
  forall (lower markdown_converter : str -> str) (today : date)
         (fromtimestamp_date : Z -> res date)
         (fetch : Naukri.source) (inp : ScraperInput),
    search_term inp = None ->
    0 < results_wanted inp ->
    Naukri.scrape lower markdown_converter today fromtimestamp_date fetch inp
    = Some {| Naukri.fetched := []; Naukri.result := Raise AttributeError |}.
Proof.
  intros lower markdown_converter today fromtimestamp_date fetch inp Hterm Hrw.
  rewrite nk_scrape_unfold.
  apply (nk_loop_without_term lower markdown_converter today
           fromtimestamp_date 50 fetch inp [] [] 1 [] Hterm).
  unfold Naukri.continue_search. cbn [length Z.of_nat].
  destruct (Z.ltb_spec 0 (results_wanted inp)); [reflexivity | lia].
Qed.

Lemma naukri_without_search_term_raises_witness :
  search_term termless_query = None
  /\ 0 < results_wanted termless_query
  /\ naukri_scrape naukri_endless termless_query
     = Some {| Naukri.fetched := []; Naukri.result := Raise AttributeError |}.
Proof.
  split; [reflexivity|]. split; [reflexivity|].
  apply (naukri_without_search_term_raises ascii_lower markdown 739000
           utc_date naukri_endless termless_query); reflexivity.
Defined.

(* ================================================================== *)
(** * Further properties: field extractors of the connectors *)
(* ================================================================== *)

(** X7.  [get_compensation] of the Indeed connector answers with a
    compensation only when the unit of work is one it knows: the interval
    is then set, and the currency is never the empty text, "USD" standing
    in when no code is given. *)
Theorem indeed_compensation_has_interval_and_currency :
  forall (upper : str -> str) (data : option Indeed.compensation_data)
         (c : Compensation),
    Indeed.get_compensation upper data = Ok (Some c) ->
    interval c <> None /\ currency c <> [].
Proof.
  intros upper data c H. unfold Indeed.get_compensation in H.
  destruct data as [d|]; [|discriminate].
  destruct (match Indeed.baseSalary d with
            | Some b => Some b
            | None => match Indeed.estimated d with
                      | Val e => Indeed.est_baseSalary e
                      | _ => None
                      end
            end) as [comp|]; [|discriminate].
  destruct (Indeed._get_compensation_interval upper _) as [i|];
    [|discriminate].
  bind_ok H. inversion H; subst c; clear H. cbn [interval currency].
  split; [discriminate|].
  unfold Indeed.nonempty.
  match goal with
  | |- context [Indeed.est_currencyCode ?e] =>
      destruct (Indeed.est_currencyCode e) as [[|x t]|]
  end;
    destruct (Indeed.currencyCode d) as [[|y u]|]; discriminate.
Qed.

Lemma indeed_compensation_has_interval_and_currency_witness :
  Indeed.get_compensation ascii_upper (Some yearly_salary)
    = Ok (Some {| interval := Some YEARLY; min_amount := Some 500000;
                  max_amount := Some 800000; currency := lit "USD" |})
  /\ interval {| interval := Some YEARLY; min_amount := Some 500000;
                 max_amount := Some 800000; currency := lit "USD" |} <> None.
Proof.
  split; [reflexivity|].
  apply (indeed_compensation_has_interval_and_currency ascii_upper
           (Some yearly_salary)).
  reflexivity.
Defined.

(** A [null] in place of the range, or in place of the estimate, makes
    [get_compensation] raise once the interval is known. *)
Lemma indeed_null_compensation_key_raises :
  forall (upper : str -> str) (c : Indeed.compensation_data)
         (comp : Indeed.salary) (i : CompensationInterval),
    Indeed.baseSalary c = Some comp ->
    Indeed._get_compensation_interval
      upper (or_default (Indeed.unitOfWork comp) []) = Some i ->
    Indeed.range comp = Null \/ Indeed.estimated c = Null ->
    Indeed.get_compensation upper (Some c) = Raise AttributeError.
Proof.
  intros upper c comp i Hbase Hint Hnull. unfold Indeed.get_compensation.
  rewrite Hbase, Hint.
  destruct Hnull as [Hnull | Hnull]; rewrite Hnull.
  - reflexivity.
  - destruct (Indeed.range comp); reflexivity.
Qed.

(** X8.  [get_job_type] keeps, in the order of the attributes, the job
    types of the labels that [get_enum_from_job_type] knows once dashes and
    spaces are removed and the text is lower-cased; a label it does not
    know is left out, so there are never more types than attributes. *)
Theorem indeed_job_types_come_from_labels :
  forall (lower : str -> str) (get_enum : str -> option JobType)
         (attributes : list str) (t : JobType),
    (In t (Indeed.get_job_type lower get_enum attributes) <->
     exists label,
       In label attributes
       /\ get_enum (lower (filter (fun c => negb (N.eqb c 45 || N.eqb c 32))
                                  label)) = Some t)
    /\ (length (Indeed.get_job_type lower get_enum attributes)
        <= length attributes)%nat.
Proof.
  intros lower get_enum attributes t. unfold Indeed.get_job_type. split.
  - rewrite in_flat_map. split.
    + intros (label & Hin & Ht). exists label. split; [exact Hin|].
      destruct (get_enum _) as [t'|]; [|contradiction].
      destruct Ht as [-> | []]. reflexivity.
    + intros (label & Hin & Ht). exists label. split; [exact Hin|].
      rewrite Ht. now left.
  - induction attributes as [|a rest IH]; [simpl; lia|].
    cbn [flat_map]. rewrite length_app.
    destruct (get_enum _); simpl length; lia.
Qed.

(** X9.  The location the LinkedIn connector reads off a card always has a
    country, and has a city exactly when it has a state: a location text
    that does not split into two or three parts sets neither. *)
Theorem linkedin_location_shape :
  forall c : LinkedIn.job_card,
    country (LinkedIn._get_location c) <> None
    /\ (city (LinkedIn._get_location c) = None
        <-> state (LinkedIn._get_location c) = None).
Proof.
  intros c. unfold LinkedIn._get_location.
  destruct (LinkedIn.card_location c) as [text|].
  2:{ cbn. split; [intros H; discriminate H | tauto]. }
  destruct (split (strip text) (lit ", ")) as [|a [|b [|d [|e l]]]]; cbn;
    (split; [intros H; discriminate H
           | split; intros H; (reflexivity || discriminate H)]).
Qed.

(* ------------------------------------------------------------------ *)
(** ** Splitting at one character *)

Lemma split_go_single :
  forall (c : char) (s cur : str),
    ~ In c cur ->
    Forall (fun part => ~ In c part /\ incl part (rev cur ++ s))
           (split_go [c] s 0 cur).
Proof.
  intros c s. induction s as [|x t IH]; intros cur Hcur; cbn [split_go].
  - constructor; [|constructor]. split.
    + now rewrite <- in_rev.
    + rewrite app_nil_r. apply incl_refl.
  - cbn [startswith length Nat.sub].
    destruct (N.eqb_spec c x) as [->|Hneq]; cbn [andb].
    + constructor.
      * split; [now rewrite <- in_rev | apply incl_appl, incl_refl].
      * specialize (IH [] (fun H => H)). cbn [rev app] in IH.
        eapply Forall_impl; [|exact IH]. intros part [H1 H2].
        split; [exact H1|]. intros y Hy. apply in_or_app. right. right.
        now apply H2.
    + assert (Hcur' : ~ In c (x :: cur)).
      { intros [H|H]; [congruence | contradiction]. }
      specialize (IH (x :: cur) Hcur'). cbn [rev] in IH.
      rewrite <- app_assoc in IH. exact IH.
Qed.

Lemma split_single :
  forall (c : char) (s : str),
    Forall (fun part => ~ In c part /\ incl part s) (split s [c]).
Proof.
  intros c s. unfold split.
  apply (split_go_single c s [] (fun H => H)).
Qed.

Lemma Forall_last :
  forall A (P : A -> Prop) (l : list A) d, P d -> Forall P l -> P (last l d).
Proof.
  intros A P l d Hd H. induction H as [|x l Hx Hl IH]; [exact Hd|].
  destruct l; [exact Hx | exact IH].
Qed.

Lemma last_split_single :
  forall (c : char) (s : str), ~ In c (last (split s [c]) []).
Proof.
  intros c s.
  apply (Forall_last _ (fun part => ~ In c part) (split s [c]) []).
  - intros H. exact H.
  - eapply Forall_impl; [|apply split_single]. intros part [H _]. exact H.
Qed.

Lemma hd_split_single :
  forall (c : char) (s : str), ~ In c (hd [] (split s [c])).
Proof.
  intros c s. pose proof (split_single c s) as H.
  destruct (split s [c]) as [|part l]; cbn [hd].
  - intros Hin. exact Hin.
  - apply Forall_inv in H. exact (proj1 H).
Qed.

Lemma last_split_incl :
  forall (c : char) (s : str), incl (last (split s [c]) []) s.
Proof.
  intros c s.
  apply (Forall_last _ (fun part => incl part s) (split s [c]) []).
  - apply incl_nil_l.
  - eapply Forall_impl; [|apply split_single]. intros part [_ H]. exact H.
Qed.

Lemma li_job_id_marks :
  forall href : str,
    ~ In 63%N (LinkedIn.job_id_of href) /\ ~ In 45%N (LinkedIn.job_id_of href).
Proof.
  intros href. unfold LinkedIn.job_id_of. split.
  - intros H. apply (hd_split_single 63%N href).
    change [63%N] with (lit "?").
    exact (last_split_incl 45%N _ _ H).
  - exact (last_split_single 45%N _).
Qed.

Lemma li_location_has_country :
  forall c : LinkedIn.job_card, country (LinkedIn._get_location c) <> None.
Proof.
  intros c. unfold LinkedIn._get_location.
  destruct (LinkedIn.card_location c) as [text|]; [|discriminate].
  destruct (split (strip text) (lit ", ")) as [|a [|b [|d [|e l]]]];
    discriminate.
Qed.

(** X10.  The job id the LinkedIn connector takes from the link of a card
    holds neither a question mark nor a dash, and is made of characters of
    the link. *)
Theorem linkedin_job_id_is_clean :
  forall href : str,
    ~ In 63%N (LinkedIn.job_id_of href)
    /\ ~ In 45%N (LinkedIn.job_id_of href)
    /\ incl (LinkedIn.job_id_of href) href.
Proof.
  intros href. unfold LinkedIn.job_id_of.
  pose proof (split_single 63%N href) as Hq.
  assert (Hhead : ~ In 63%N (hd [] (split href (lit "?")))
                  /\ incl (hd [] (split href (lit "?"))) href).
  { change [63%N] with (lit "?") in Hq.
    destruct (split href (lit "?")) as [|part l]; cbn [hd].
    - split; [intros H; exact H | intros y H; destruct H].
    - apply Forall_inv in Hq. exact Hq. }
  destruct Hhead as [Hnoq Hsub].
  set (head := hd [] (split href (lit "?"))) in *.
  pose proof (split_single 45%N head) as Hd. change [45%N] with (lit "-") in Hd.
  pose proof (Forall_last _ _ (split head (lit "-")) []
                (conj (fun H : In 45%N [] => H) (incl_nil_l head)) Hd)
    as [Hnodash Hin].
  split; [|split; [exact Hnodash | eapply incl_tran; eauto]].
  intros H. apply Hnoq. now apply Hin.
Qed.

(* ------------------------------------------------------------------ *)
(** ** Naukri: compensation *)

(** X11.  Whenever the Naukri extractor returns a compensation, its
    currency is INR, both amounts are set and no interval is given. *)
Theorem naukri_compensation_is_in_rupees :
  forall (lower : str -> str) (placeholders : list Naukri.placeholder)
         (c : Compensation),
    Naukri._get_compensation lower placeholders = Ok (Some c) ->
    currency c = lit "INR" /\ interval c = None
    /\ min_amount c <> None /\ max_amount c <> None.
Proof.
  intros lower placeholders c.
  induction placeholders as [|p rest IH]; cbn [Naukri._get_compensation];
    [discriminate|].
  destruct (opt_eqb (Naukri.ptype p) (lit "salary")); [|exact IH].
  destruct (attr_of (get_or (Naukri.plabel p) [])) as [label|e];
    cbn [bind]; [|discriminate].
  destruct (PyStr.eqb _ (lit "Not disclosed")); [discriminate|].
  destruct (re_match true Naukri.salary_pattern _) as [m|]; [|exact IH].
  cbv zeta.
  destruct (Float64.to_int _) as [lo|e]; cbn [bind]; [|discriminate].
  destruct (Float64.to_int _) as [hi|e]; cbn [bind]; [|discriminate].
  intros H. inversion H. cbn. repeat split; discriminate.
Qed.

Lemma naukri_compensation_is_in_rupees_witness :
  Naukri._get_compensation ascii_lower [salary_placeholder "12-16 Lacs P.A."]
    = Ok (Some (inr 1200000 1600000))
  /\ currency (inr 1200000 1600000) = lit "INR".
Proof.
  split; [vm_compute; reflexivity|].
  apply (naukri_compensation_is_in_rupees ascii_lower
           [salary_placeholder "12-16 Lacs P.A."]).
  vm_compute; reflexivity.
Defined.

(** X12.  A salary placeholder that reads "Not disclosed" ends the search:
    when it is the first salary placeholder of the record there is no
    compensation, whatever the placeholders after it say; and a record
    without a salary placeholder has none either. *)
Theorem naukri_not_disclosed_hides_later_salaries :
  forall (lower : str -> str) (before after : list Naukri.placeholder)
         (p : Naukri.placeholder),
    forallb (fun q => negb (is_salary q)) before = true ->
    is_salary p = true ->
    option_map strip (get_or (Naukri.plabel p) [])
    = Some (lit "Not disclosed") ->
    Naukri._get_compensation lower (before ++ p :: after) = Ok None
    /\ Naukri._get_compensation lower before = Ok None.
Proof.
  intros lower before after p Hbefore Hp Hlabel.
  induction before as [|q rest IH]; cbn [app Naukri._get_compensation].
  - split; [|reflexivity]. unfold is_salary in Hp. rewrite Hp.
    destruct (get_or (Naukri.plabel p) []) as [label|]; [|discriminate].
    cbn [option_map] in Hlabel. inversion Hlabel as [Hstrip].
    cbn [attr_of bind]. cbv zeta. rewrite Hstrip. reflexivity.
  - cbn [forallb] in Hbefore. apply andb_prop in Hbefore.
    destruct Hbefore as [Hq Hrest]. unfold is_salary in Hq.
    destruct (opt_eqb (Naukri.ptype q) (lit "salary")); [discriminate|].
    now apply IH.
Qed.

Lemma naukri_not_disclosed_hides_later_salaries_witness :
  forallb (fun q => negb (is_salary q)) [experience_placeholder] = true
  /\ is_salary (salary_placeholder " Not disclosed ") = true
  /\ Naukri._get_compensation ascii_lower
       ([experience_placeholder]
        ++ salary_placeholder " Not disclosed "
        :: [salary_placeholder "12-16 Lacs P.A."]) = Ok None.
Proof.
  split; [reflexivity|]. split; [reflexivity|].
  apply (naukri_not_disclosed_hides_later_salaries ascii_lower
           [experience_placeholder] [salary_placeholder "12-16 Lacs P.A."]
           (salary_placeholder " Not disclosed ")); reflexivity.
Defined.

(* ================================================================== *)
(** * Further properties: normalization *)
(* ================================================================== *)

(** X13.  The free-text salary extractor answers only for a description
    that is true-ish, and every text it returns begins with the rupee
    sign. *)
Theorem extracted_salary_starts_with_rupee :
  forall (lower : str -> str) (description : pyval) (s : str),
    Server.extract_indian_salary lower description = Some s ->
    truthy description = true /\ exists rest, s = rupee :: rest.
Proof.
  intros lower description s. unfold Server.extract_indian_salary.
  destruct (truthy description); cbn [negb]; [|discriminate].
  intros H. split; [reflexivity|].
  destruct (re_search true Server.pay_pattern _) as [m|].
  { cbv zeta in H. destruct (group m 2) as [[|x t]|];
      inversion H; eexists; reflexivity. }
  destruct (re_search true Server.lpa_pattern _) as [m|];
    [inversion H; eexists; reflexivity|].
  destruct (re_search true Server.single_lpa _) as [m|];
    [inversion H; eexists; reflexivity|].
  destruct (re_search true Server.ctc_pattern _) as [m|];
    [inversion H; eexists; reflexivity | discriminate].
Qed.

Lemma extracted_salary_starts_with_rupee_witness :
  Server.extract_indian_salary ascii_lower (PStr pay_line)
    = Some (rupee :: lit "200,000.00 - " ++ [rupee]
            ++ lit "300,000.00 per year")
  /\ truthy (PStr pay_line) = true.
Proof.
  split; [vm_compute; reflexivity|].
  apply (extracted_salary_starts_with_rupee ascii_lower (PStr pay_line)
           (rupee :: lit "200,000.00 - " ++ [rupee]
            ++ lit "300,000.00 per year")).
  vm_compute; reflexivity.
Defined.

Lemma slice_to_firstn :
  forall A (l : list A) (n : nat),
    slice_to l (Z.of_nat n) = firstn n l.
Proof.
  intros A l n. unfold slice_to, slice, clamp_index. cbv zeta.
  assert (Ha : Z.to_nat (Z.min (Z.of_nat (length l))
                 (if 0 <? 0 then Z.max 0 (Z.of_nat (length l) + 0) else 0))
               = 0%nat).
  { change (0 <? 0) with false. cbv iota. lia. }
  assert (Hb : Z.to_nat (Z.min (Z.of_nat (length l))
                 (if Z.of_nat n <? 0
                  then Z.max 0 (Z.of_nat (length l) + Z.of_nat n)
                  else Z.of_nat n))
               = Nat.min (length l) n).
  { destruct (Z.ltb_spec (Z.of_nat n) 0); lia. }
  rewrite Ha, Hb. cbn [skipn]. rewrite Nat.sub_0_r.
  destruct (Nat.le_gt_cases n (length l)).
  - rewrite Nat.min_r by lia. reflexivity.
  - rewrite Nat.min_l by lia. rewrite !firstn_all2 by lia. reflexivity.
Qed.

(** X14.  The short description of a transformed record is the description
    itself when that has at most 200 characters, and otherwise its first
    200 characters followed by three dots: it never has more than 203
    characters. *)
Theorem short_description_is_bounded :
  forall (lower capitalize : str -> str) (doc : dict),
    let out := snd (Server.transform_jobspy_to_schema lower capitalize doc) in
    Server.short_description out
    = (if (200 <? length (Server.description out))%nat
       then firstn 200 (Server.description out) ++ lit "..."
       else Server.description out)
    /\ (length (Server.short_description out) <= 203)%nat.
Proof.
  intros lower capitalize doc out. subst out.
  unfold Server.transform_jobspy_to_schema.
  cbn [snd Server.short_description Server.description].
  set (description := py_str _).
  change 200 with (Z.of_nat 200). rewrite slice_to_firstn.
  split; [reflexivity|].
  destruct (Nat.ltb_spec 200 (length description)).
  - rewrite length_app, length_firstn.
    change (length (lit "...")) with 3%nat. lia.
  - lia.
Qed.

Lemma get_default_cleaned_not_nan :
  forall doc k d, d <> PNaN -> get_default (cleaned doc) k d <> PNaN.
Proof.
  intros doc k d Hd. induction doc as [|[k' v] t IH]; simpl; [exact Hd|].
  destruct (PyStr.eqb k' k); [|exact IH].
  destruct v; discriminate.
Qed.

(** X15.  The transform leaves no NaN behind: not in the record, which it
    rewrites in place, and not in the title, the company name, the salary
    range or the URL of what it returns. *)
Theorem transform_leaves_no_nan :
  forall (lower capitalize : str -> str) (doc : dict),
    let r := Server.transform_jobspy_to_schema lower capitalize doc in
    Forall (fun kv => snd kv <> PNaN) (fst r)
    /\ Server.title (snd r) <> PNaN
    /\ Server.company_name (snd r) <> PNaN
    /\ Server.salary_range (snd r) <> PNaN
    /\ Server.apply_url (snd r) <> PNaN.
Proof.
  intros lower capitalize doc r. subst r.
  unfold Server.transform_jobspy_to_schema. fold (cleaned doc).
  cbn [fst snd Server.title Server.company_name Server.salary_range
       Server.apply_url].
  split; [|split; [|split; [|split]]].
  - unfold cleaned. apply Forall_forall. intros kv Hin.
    apply in_map_iff in Hin. destruct Hin as ([k v] & <- & _). cbn.
    destruct v; discriminate.
  - apply get_default_cleaned_not_nan. discriminate.
  - unfold py_or, get.
    destruct (truthy (get_default (cleaned doc) (lit "company_name") PNone));
      apply get_default_cleaned_not_nan; discriminate.
  - destruct (truthy (get (cleaned doc) (lit "min_amount")));
      [destruct (truthy (get (cleaned doc) (lit "max_amount")))|];
      cbn [andb]; try discriminate.
    unfold Server.of_option.
    destruct (Server.extract_indian_salary lower _); discriminate.
  - apply get_default_cleaned_not_nan. discriminate.
Qed.

Lemma eqb_sym : forall a b : str, PyStr.eqb a b = PyStr.eqb b a.
Proof.
  intros a b. destruct (PyStr.eqb a b) eqn:E1, (PyStr.eqb b a) eqn:E2; auto.
  - apply eqb_eq in E1. subst. unfold PyStr.eqb in E2.
    destruct (list_eq_dec N.eq_dec b b); congruence.
  - apply eqb_eq in E2. subst. unfold PyStr.eqb in E1.
    destruct (list_eq_dec N.eq_dec a a); congruence.
Qed.

Lemma has_key_false_get :
  forall row k, Server.has_key row k = false -> get row k = PNone.
Proof.
  intros row k. unfold get. induction row as [|[k' v] t IH]; simpl; auto.
  destruct (PyStr.eqb k' k); simpl; [discriminate | exact IH].
Qed.

Lemma get_filtered_columns :
  forall (cols : list str) (row : dict) (k : str),
    get (flat_map (fun col => if Server.has_key row col
                              then [(col, get row col)] else [])
                  cols) k
    = if existsb (PyStr.eqb k) cols then get row k else PNone.
Proof.
  intros cols row k. induction cols as [|col rest IH]; [reflexivity|].
  cbn [flat_map existsb]. rewrite (eqb_sym k col).
  destruct (Server.has_key row col) eqn:Ekey; cbn [app].
  - unfold get at 1. cbn [get_default].
    destruct (PyStr.eqb col k) eqn:E; cbn [orb].
    + apply eqb_eq in E. now subst.
    + exact IH.
  - rewrite IH. destruct (PyStr.eqb col k) eqn:E; cbn [orb]; [|reflexivity].
    apply eqb_eq in E. subst col.
    rewrite (has_key_false_get _ _ Ekey). now destruct (existsb _ _).
Qed.

(** X16.  The column filter of [run_scraper] keeps, under the same key,
    the value of each of the thirteen required fields and drops every
    other key of a row, the identifier among them. *)
Theorem required_columns_lookup :
  forall (row : dict) (k : str),
    get (Server.required_columns row) k
    = (if existsb (PyStr.eqb k) Server.REQUIRED_FIELDS
       then get row k else PNone)
    /\ get (Server.required_columns row) (lit "id") = PNone.
Proof.
  intros row k. unfold Server.required_columns.
  split; [apply get_filtered_columns|].
  rewrite get_filtered_columns. reflexivity.
Qed.

(* ================================================================== *)
(** * Further properties: the employer connectors *)
(* ================================================================== *)

Lemma take_matching_length :
  forall A (visit : A -> res (option CompanyCareers.posting))
         (limit count : Z) (l : list A),
    Z.of_nat (length (CompanyCareers.take_matching visit limit count l))
    <= Z.max 0 (limit - count).
Proof.
  intros A visit limit count l. revert count.
  induction l as [|j rest IH]; intros count; cbn [CompanyCareers.take_matching].
  - simpl. lia.
  - destruct (Z.leb_spec limit count); [simpl; lia|].
    destruct (visit j) as [[p|]|e].
    + cbn [length]. specialize (IH (count + 1)). lia.
    + specialize (IH count). lia.
    + simpl. lia.
Qed.

Lemma take_matching_Forall :
  forall A (visit : A -> res (option CompanyCareers.posting))
         (P : CompanyCareers.posting -> Prop) (limit count : Z) (l : list A),
    (forall j p, visit j = Ok (Some p) -> P p) ->
    Forall P (CompanyCareers.take_matching visit limit count l).
Proof.
  intros A visit P limit count l HP. revert count.
  induction l as [|j rest IH]; intros count; cbn [CompanyCareers.take_matching].
  - constructor.
  - destruct (limit <=? count); [constructor|].
    destruct (visit j) as [[p|]|e] eqn:E.
    + constructor; [now apply (HP j) | apply IH].
    + apply IH.
    + constructor.
Qed.

(** Takes the body of a connector's loop apart, for an element that got a
    posting appended. *)
Ltac visit_ok H :=
  repeat first
    [ progress (bind_ok H)
    | match type of H with
      | (if ?b then _ else _) = _ => destruct b eqn:?; [|discriminate H]
      end ].

(** X17.  Each of the five employer connectors that filter on their own
    side returns at most [limit] postings, and none for a limit that is
    not positive, whatever the site sends. *)
Theorem company_connectors_respect_limit :
  forall (lower : str -> str) (today_text term location : str) (limit : Z)
         (greenhouse : CompanyCareers.response CompanyCareers.greenhouse_job)
         (lever : CompanyCareers.response CompanyCareers.lever_job),
    Z.of_nat (length (CompanyCareers.scrape_gitlab_jobs
                        lower term location limit greenhouse))
      <= Z.max 0 limit
    /\ Z.of_nat (length (CompanyCareers.scrape_pinterest_jobs
                           lower term location limit greenhouse))
       <= Z.max 0 limit
    /\ Z.of_nat (length (CompanyCareers.scrape_phonepe_jobs
                           lower term limit greenhouse))
       <= Z.max 0 limit
    /\ Z.of_nat (length (CompanyCareers.scrape_razorpay_jobs
                           lower term limit greenhouse))
       <= Z.max 0 limit
    /\ Z.of_nat (length (CompanyCareers.scrape_flipkart_jobs
                           lower today_text term limit lever))
       <= Z.max 0 limit.
Proof.
  intros. unfold CompanyCareers.scrape_gitlab_jobs,
    CompanyCareers.scrape_pinterest_jobs, CompanyCareers.scrape_phonepe_jobs,
    CompanyCareers.scrape_razorpay_jobs, CompanyCareers.scrape_flipkart_jobs.
  repeat split;
    match goal with
    | |- Z.of_nat (length (CompanyCareers.take_matching ?v ?l 0 ?x)) <= _ =>
        pose proof (take_matching_length _ v l 0 x); lia
    end.
Qed.

Lemma slice_to_length :
  forall A (l : list A) (n : nat),
    (length (slice_to l (Z.of_nat n)) <= n)%nat.
Proof.
  intros A l n. rewrite slice_to_firstn, length_firstn. lia.
Qed.

Lemma greenhouse_posting_bounded :
  forall company title location j p,
    CompanyCareers.greenhouse_posting company title location j = Ok p ->
    posting_bounded p /\ CompanyCareers.title p = title.
Proof.
  intros company title location j p H.
  unfold CompanyCareers.greenhouse_posting in H. bind_ok H.
  inversion H. unfold posting_bounded. cbn.
  repeat split.
  - apply (slice_to_length _ _ 500).
  - apply (slice_to_length _ _ 200).
Qed.

(** X18.  Every posting the employer connectors hand over, in whatever
    order they complete and whatever the sites send, has a description of
    at most 500 characters, a short description of at most 200, and no
    salary range. *)
Theorem company_postings_are_bounded :
  forall (lower : str -> str) (today_text : str)
         (completed : list CompanyCareers.company) (w : CompanyCareers.sites)
         (term location : str) (limit : Z),
    Forall posting_bounded
           (CompanyCareers.scrape_all_company_careers
              lower today_text completed w term location limit).
Proof.
  intros. unfold CompanyCareers.scrape_all_company_careers.
  apply Forall_flat_map. apply Forall_forall. intros c _.
  destruct c.
  - unfold CompanyCareers.scrape_amazon_jobs. apply Forall_map.
    apply Forall_forall. intros j _. unfold posting_bounded. cbn.
    repeat split.
    + apply (slice_to_length _ _ 500).
    + apply (slice_to_length _ _ 200).
  - apply take_matching_Forall. intros j p H. visit_ok H.
    inversion H; subst. eapply greenhouse_posting_bounded; eassumption.
  - apply take_matching_Forall. intros j p H. visit_ok H.
    inversion H; subst. eapply greenhouse_posting_bounded; eassumption.
  - apply take_matching_Forall. intros j p H. visit_ok H.
    inversion H; subst. eapply greenhouse_posting_bounded; eassumption.
  - apply take_matching_Forall. intros j p H. visit_ok H.
    inversion H; subst. eapply greenhouse_posting_bounded; eassumption.
  - apply take_matching_Forall. intros j p H. visit_ok H.
    inversion H. unfold posting_bounded. cbn.
    repeat split.
    + apply (slice_to_length _ _ 500).
    + apply (slice_to_length _ _ 200).
Qed.

Lemma title_has_of_opt :
  forall (lower : str -> str) (term : str) (t : option str),
    CompanyCareers.title_has lower term t = Ok true ->
    contains (lower term) (lower (title_text (CompanyCareers.of_opt t)))
    = true.
Proof.
  intros lower term [t|] H; [|discriminate H].
  cbn in H. inversion H. reflexivity.
Qed.

Lemma title_has_get_opt :
  forall (lower : str -> str) (term : str) (f : jfield str),
    CompanyCareers.title_has lower term (get_or f []) = Ok true ->
    contains (lower term)
             (lower (title_text (CompanyCareers.of_opt (get_opt f))))
    = true.
Proof.
  intros lower term [| |t] H; [|discriminate H|];
    cbn in H; inversion H; reflexivity.
Qed.

(** X19.  The five employer connectors that filter on their own side keep
    only postings whose title, lower-cased, contains the lower-cased search
    term. *)
Theorem company_connectors_match_title :
  forall (lower : str -> str) (today_text term location : str) (limit : Z)
         (greenhouse : CompanyCareers.response CompanyCareers.greenhouse_job)
         (lever : CompanyCareers.response CompanyCareers.lever_job),
    let matches (p : CompanyCareers.posting) :=
      contains (lower term) (lower (title_text (CompanyCareers.title p)))
      = true in
    Forall matches (CompanyCareers.scrape_gitlab_jobs
                      lower term location limit greenhouse)
    /\ Forall matches (CompanyCareers.scrape_pinterest_jobs
                         lower term location limit greenhouse)
    /\ Forall matches (CompanyCareers.scrape_phonepe_jobs
                         lower term limit greenhouse)
    /\ Forall matches (CompanyCareers.scrape_razorpay_jobs
                         lower term limit greenhouse)
    /\ Forall matches (CompanyCareers.scrape_flipkart_jobs
                         lower today_text term limit lever).
Proof.
  intros. subst matches.
  unfold CompanyCareers.scrape_gitlab_jobs,
    CompanyCareers.scrape_pinterest_jobs, CompanyCareers.scrape_phonepe_jobs,
    CompanyCareers.scrape_razorpay_jobs, CompanyCareers.scrape_flipkart_jobs.
  repeat split; apply take_matching_Forall; intros j p H; visit_ok H;
    inversion H; subst;
    repeat match goal with
           | E : CompanyCareers.greenhouse_posting _ _ _ _ = Ok _ |- _ =>
               apply greenhouse_posting_bounded in E;
               destruct E as [_ E]; rewrite E
           end;
    cbn [CompanyCareers.title];
    first [ now apply title_has_of_opt | now apply title_has_get_opt ].
Qed.

Lemma strip_tags_plain :
  forall s, ~ In 60%N s -> CompanyCareers.strip_tags s 0 = s.
Proof.
  induction s as [|c t IH]; intros H; [reflexivity|].
  cbn [CompanyCareers.strip_tags].
  destruct (N.eqb_spec c 60) as [->|_]; [exfalso; apply H; now left|].
  f_equal. apply IH. intros Hin. apply H. now right.
Qed.

Lemma strip_tags_length :
  forall s skip,
    (length (CompanyCareers.strip_tags s skip) <= length s)%nat.
Proof.
  induction s as [|c t IH]; intros skip; [simpl; lia|].
  cbn [CompanyCareers.strip_tags].
  destruct skip as [|k]; [|specialize (IH k); simpl; lia].
  destruct (N.eqb c 60).
  - destruct (CompanyCareers.tag_length t) as [n|].
    + specialize (IH n). simpl. lia.
    + specialize (IH 0%nat). simpl. lia.
  - specialize (IH 0%nat). simpl. lia.
Qed.

(** X20.  [clean_html] never makes a text longer, and leaves a text
    without ['<'] as it is. *)
Theorem clean_html_keeps_plain_text :
  forall s : str,
    (length (CompanyCareers.clean_html (Some s)) <= length s)%nat
    /\ (forallb (fun c => negb (N.eqb c 60)) s = true ->
        CompanyCareers.clean_html (Some s) = s).
Proof.
  intros s. unfold CompanyCareers.clean_html. split.
  - apply strip_tags_length.
  - intros H. apply strip_tags_plain. intros Hin.
    rewrite forallb_forall in H. specialize (H _ Hin).
    now rewrite N.eqb_refl in H.
Qed.

Lemma clean_html_keeps_plain_text_witness :
  forallb (fun c => negb (N.eqb c 60)) (lit "Data Engineer, Payments") = true
  /\ CompanyCareers.clean_html (Some (lit "Data Engineer, Payments"))
     = lit "Data Engineer, Payments".
Proof.
  split; [reflexivity|].
  apply (proj2 (clean_html_keeps_plain_text (lit "Data Engineer, Payments"))).
  reflexivity.
Defined.

(** X21.  The postings [scrape_all_company_careers] collects do not depend
    on which connector completes first: two completion orders of the same
    connectors give the same postings, up to their order. *)
Theorem company_postings_whatever_the_order :
  forall (lower : str -> str) (today_text : str)
         (first second : list CompanyCareers.company)
         (w : CompanyCareers.sites) (term location : str) (limit : Z),
    Permutation first second ->
    Permutation
      (CompanyCareers.scrape_all_company_careers
         lower today_text first w term location limit)
      (CompanyCareers.scrape_all_company_careers
         lower today_text second w term location limit).
Proof.
  intros. unfold CompanyCareers.scrape_all_company_careers.
  now apply Permutation_flat_map.
Qed.

Lemma company_postings_whatever_the_order_witness :
  Permutation all_six all_six_reversed
  /\ Permutation
       (CompanyCareers.scrape_all_company_careers
          ascii_lower (lit "2026-01-05") all_six two_amazon_postings
          (lit "engineer") (lit "India") 10)
       (CompanyCareers.scrape_all_company_careers
          ascii_lower (lit "2026-01-05") all_six_reversed two_amazon_postings
          (lit "engineer") (lit "India") 10).
Proof.
  split; [apply Permutation_rev|].
  apply (company_postings_whatever_the_order ascii_lower (lit "2026-01-05")
           all_six all_six_reversed).
  apply Permutation_rev.
Defined.

(** X22.  The first offset the LinkedIn connector asks for is the offset
    of the query rounded down to a multiple of ten. *)
Theorem linkedin_first_offset_is_rounded_down :
  forall inp : ScraperInput,
    LinkedIn.first_start inp mod 10 = 0
    /\ LinkedIn.first_start inp <= offset inp < LinkedIn.first_start inp + 10.
Proof.
  intros inp. unfold LinkedIn.first_start.
  destruct (Z.eqb_spec (offset inp) 0) as [->|_]; [split; [reflexivity|lia]|].
  pose proof (Z.div_mod (offset inp) 10 ltac:(lia)).
  pose proof (Z.mod_pos_bound (offset inp) 10 ltac:(lia)).
  split; [apply Z.mod_mul; lia | lia].
Qed.

(* ================================================================== *)
(** * Further properties: the postings a connector returns *)
(* ================================================================== *)

Section LinkedInPostings.

Variable amount : Type.
Variable currency_parser : str -> res amount.
Variable int_of_amount : amount -> res Z.
Variable strptime : str -> res date.
Variable markdown_converter : str -> str.
Variable job_page : str -> option str.
Variable fetch : LinkedIn.source.
Variable inp : ScraperInput.

Let li_process_job :=
  LinkedIn._process_job amount currency_parser int_of_amount strptime
                        markdown_converter job_page inp.

Lemma li_process_job_shaped :
  forall c h, linkedin_shaped (li_process_job c (LinkedIn.job_id_of h)).
Proof.
  intros c h. exists (LinkedIn.job_id_of h).
  destruct (li_job_id_marks h) as (Hq & Hd).
  pose proof (li_location_has_country c) as Hcountry.
  unfold li_process_job, LinkedIn._process_job. cbn.
  repeat split; auto. discriminate.
Qed.

Lemma li_process_page_shaped :
  forall start cards jl seen,
    Forall linkedin_shaped jl ->
    Forall linkedin_shaped
      (fst (LinkedIn.process_page amount currency_parser int_of_amount
              strptime markdown_converter job_page inp start cards jl seen)).
Proof.
  intros start cards.
  induction cards as [|c rest IH]; intros jl seen Hjl; simpl; [exact Hjl|].
  destruct (LinkedIn.href c) as [h|]; [|now apply IH].
  destruct (set_mem (LinkedIn.job_id_of h) seen); [now apply IH|].
  fold li_process_job.
  assert (Hjl' : Forall linkedin_shaped
                   (jl ++ [li_process_job c (LinkedIn.job_id_of h)])).
  { apply Forall_app. split; [exact Hjl|].
    constructor; [apply li_process_job_shaped | constructor]. }
  destruct (LinkedIn.continue_search inp _ start); simpl;
    [now apply IH | exact Hjl'].
Qed.

Lemma Forall_slice :
  forall A (P : A -> Prop) (l : list A) i j,
    Forall P l -> Forall P (slice l i j).
Proof.
  intros A P l i j H. apply Forall_forall. intros x Hx.
  apply slice_incl in Hx. rewrite Forall_forall in H. auto.
Qed.

Lemma li_loop_shaped :
  forall fuel jl seen start log o,
    LinkedIn.scrape_loop amount currency_parser int_of_amount strptime
                         markdown_converter job_page
                         fuel fetch inp jl seen start log = Some o ->
    Forall linkedin_shaped jl ->
    Forall linkedin_shaped (LinkedIn.result o).
Proof.
  induction fuel as [|fuel IH]; intros jl seen start log o Hrun Hjl;
    cbn [LinkedIn.scrape_loop] in Hrun; [discriminate|].
  destruct (negb _).
  { inversion Hrun. cbn. now apply Forall_slice. }
  destruct (fetch (length log) start) as [e|status cards].
  { inversion Hrun. exact Hjl. }
  destruct (negb _); [inversion Hrun; exact Hjl|].
  destruct cards as [|c rest]; [inversion Hrun; exact Hjl|].
  pose proof (li_process_page_shaped start (c :: rest) jl seen Hjl) as Hpage.
  destruct (LinkedIn.process_page _ _ _ _ _ _ inp start (c :: rest) jl seen)
    as [jl' seen']. cbn [fst] in Hpage.
  eapply IH; eauto.
Qed.

End LinkedInPostings.

(** X23.  Whatever the source answers, every posting a LinkedIn run
    returns has an identifier and a URL built from the same job id, which
    holds neither a dash nor a question mark, and has a company and a
    country set. *)
Theorem linkedin_postings_are_shaped :
  forall (amount : Type) (currency_parser : str -> res amount)
         (int_of_amount : amount -> res Z) (strptime : str -> res date)
         (markdown_converter : str -> str) (job_page : str -> option str)
         (fetch : LinkedIn.source) (inp : ScraperInput),
  exists o,
    LinkedIn.scrape amount currency_parser int_of_amount strptime
                    markdown_converter job_page fetch inp = Some o
    /\ Forall linkedin_shaped (LinkedIn.result o).
Proof.
  intros.
  destruct (li_scrape_spec amount currency_parser int_of_amount strptime
              markdown_converter job_page fetch inp) as (o & Ho & _).
  exists o. split; [exact Ho|].
  pose proof Ho as Hrun. unfold LinkedIn.scrape in Hrun.
  eapply li_loop_shaped; [exact Hrun | constructor].
Qed.

Section NaukriPostings.

Variable lower : str -> str.
Variable markdown_converter : str -> str.
Variable today : date.
Variable fromtimestamp_date : Z -> res date.
Variable fetch : Naukri.source.
Variable inp : ScraperInput.

Let nk_process_job :=
  Naukri._process_job lower markdown_converter today fromtimestamp_date inp.



(** The title and the company of a posting are what [.get] gave: the
    default for a missing key, [None] for [null]. *)
Lemma nk_process_job_names :
  forall j job_id jp,
    nk_process_job j job_id = Ok jp ->
    title jp = get_or (Naukri.jtitle j) (lit "N/A")
    /\ company_name jp = get_or (Naukri.companyName j) (lit "N/A").
Proof.
  intros j job_id jp H. unfold nk_process_job, Naukri._process_job in H.
  bind_ok H. inversion H. split; reflexivity.
Qed.




End NaukriPostings.


Section IndeedPostings.

Variable lower upper : str -> str.
Variable get_enum_from_job_type : str -> option JobType.
Variable markdown_converter : str -> str.
Variable strftime_of_ms : Z -> res str.
Variable fetch : Indeed.source.
Variable inp : ScraperInput.
Variable base : str.

Let in_process_job :=
  Indeed._process_job lower upper get_enum_from_job_type markdown_converter
                      strftime_of_ms.





End IndeedPostings.

